(** * snedbot_v2: error reporter, settings navigator and permission helpers

    A shallow embedding of [src/utils/helpers.py], [src/extensions/error_handler.py]
    and [src/extensions/settings.py].  Coroutines become functions in a small
    state-and-exception monad; every call that leaves the process (a message sent,
    edited or deleted, a statement executed, a log line written) is recorded as an
    event of a trace, so that statements about "what the handler did" are statements
    about that trace. *)

From Stdlib Require Import ZArith Ascii.
From stdpp Require Import base strings list gmap pretty sorting.

Open Scope Z_scope.

(* ===================================================================== *)
(** * Python runtime: exceptions, results, dictionaries *)
(* ===================================================================== *)

Module Py.

(** The exceptions the embedded code raises or catches.  [SendError] stands
    for whatever [Exception] a REST call raises.  All of them derive from
    Python's [Exception] but [CancelledError]: [asyncio.CancelledError] derives
    from [BaseException] only, and is what an [await] raises when its task is
    cancelled. *)
Inductive Exception :=
| AttributeError (what : string)
| KeyError (key : string)
| ValueError
| IndexError
| TypeError
| AsyncTimeoutError
| SendError (msg : string)
| CancelledError.

(** [isinstance(e, Exception)]: what an [except Exception] clause matches. *)
Definition is_exception (e : Exception) : bool :=
  match e with
  | CancelledError => false
  | _ => true
  end.

Definition exc_str (e : Exception) : string :=
  match e with
  | AttributeError what => what
  | KeyError key => key
  | ValueError => "ValueError"
  | IndexError => "list index out of range"
  | TypeError => "TypeError"
  | AsyncTimeoutError => ""
  | SendError msg => msg
  | CancelledError => ""
  end.

(** How a coroutine ends: it returns, it raises, it is still awaiting an
    interaction when the script of interactions is over, or the evaluator ran
    out of fuel. *)
Inductive Res (A : Type) :=
| Ret (a : A)
| Exc (e : Exception)
| Suspended
| OutOfFuel.
Arguments Ret {A} a.
Arguments Exc {A} e.
Arguments Suspended {A}.
Arguments OutOfFuel {A}.

Definition M (S A : Type) : Type := S → Res A * S.

Definition ret {S A} (a : A) : M S A := λ s, (Ret a, s).
Definition raise {S A} (e : Exception) : M S A := λ s, (Exc e, s).
Definition bind {S A B} (m : M S A) (k : A → M S B) : M S B :=
  λ s, match m s with
       | (Ret a, s') => k a s'
       | (Exc e, s') => (Exc e, s')
       | (Suspended, s') => (Suspended, s')
       | (OutOfFuel, s') => (OutOfFuel, s')
       end.
Definition get {S} : M S S := λ s, (Ret s, s).
Definition modify {S} (f : S → S) : M S unit := λ s, (Ret tt, f s).

(** [try: body except <filter>: handler]. *)
Definition try_except {S A} (body : M S A) (catches : Exception → bool)
    (handler : Exception → M S A) : M S A :=
  λ s, match body s with
       | (Exc e, s') => if catches e then handler e s' else (Exc e, s')
       | r => r
       end.

(** [for x in xs: body]. *)
Fixpoint for_each {S A} (xs : list A) (body : A → M S unit) : M S unit :=
  match xs with
  | [] => ret tt
  | x :: xs' => bind (body x) (λ _, for_each xs' body)
  end.

(** A [dict] keeps insertion order: an association list whose first match
    is the entry of a key. *)
Fixpoint dict_get {K V} `{EqDecision K} (d : list (K * V)) (k : K) : option V :=
  match d with
  | [] => None
  | (k', v) :: d' => if decide (k' = k) then Some v else dict_get d' k
  end.

(** [list.index(x)]: position of the first element equal to [x]. *)
Fixpoint index {A} `{EqDecision A} (x : A) (l : list A) : option nat :=
  match l with
  | [] => None
  | y :: l' => if decide (y = x) then Some 0%nat else S <$> index x l'
  end.

(** [str.split("\n")]. *)
Fixpoint split_lines_go (cur : string) (s : string) : list string :=
  match s with
  | EmptyString => [String.rev cur]
  | String c s' =>
      if Ascii.eqb c "010"%char then String.rev cur :: split_lines_go EmptyString s'
      else split_lines_go (String c cur) s'
  end.
Definition split_lines (s : string) : list string := split_lines_go EmptyString s.

Definition nl : string := String "010"%char EmptyString.

(** [sep.join(parts)]. *)
Definition join (sep : string) (parts : list string) : string :=
  String.concat sep parts.

(** Values a configuration entry may hold, with Python's truth test. *)
Inductive PyValue :=
| PyNone
| PyInt (z : Z)
| PyStr (s : string).

Definition truthy (v : PyValue) : bool :=
  match v with
  | PyNone => false
  | PyInt z => negb (z =? 0)
  | PyStr s => negb (String.eqb s "")
  end.

(** Running a bind whose first step is known. *)
Lemma bind_eq {S A B} (m : M S A) (k : A → M S B) (s s' : S) (a : A) :
  m s = (Ret a, s') → bind m k s = k a s'.
Proof. intros H. unfold bind. rewrite H. reflexivity. Qed.

Lemma bind_exc {S A B} (m : M S A) (k : A → M S B) (s s' : S) (e : Exception) :
  m s = (Exc e, s') → bind m k s = (Exc e, s').
Proof. intros H. unfold bind. rewrite H. reflexivity. Qed.

End Py.

Notation "'let*' x ':=' m 'in' k" := (Py.bind m (λ x, k))
  (at level 10, x pattern, m at level 100, k at level 200).
Notation "m ';;' k" := (Py.bind m (λ _, k))
  (at level 100, k at level 200, right associativity).

(* ===================================================================== *)
(** * utils/helpers.py *)
(* ===================================================================== *)

Module Helpers.
Import Py.

(** [hikari.Permissions] is an integer flag; the two members used here. *)
Definition NONE : Z := 0.
Definition ADMINISTRATOR : Z := Z.shiftl 1 3.
Definition VIEW_AUDIT_LOG : Z := Z.shiftl 1 7.

(** What the code needs of hikari's flag type beyond plain integers:
    [everything], the union of all members of [hikari.Permissions].  A value
    may hold bits outside it; [~value] is [everything & ~value], so it never
    does. *)
Class Hikari := { everything : Z }.

(** Every bit set in [b] is set in [a]. *)
Definition covers (a b : Z) : Prop :=
  ∀ i, 0 ≤ i → Z.testbit b i = true → Z.testbit a i = true.

Section Permissions.
Context {hikari : Hikari}.

(** [~value] of a [hikari.Permissions]. *)
Definition invert (value : Z) : Z := Z.land everything (Z.lnot value).

(** [includes_permissions(permissions, should_include)] *)
Definition includes_permissions (permissions should_include : Z) : bool :=
  if negb (Z.land permissions ADMINISTRATOR =? 0) then true
  else
    let missing_perms := Z.land (invert permissions) should_include in
    if negb (missing_perms =? NONE) then false else true.

Lemma land_lnot_zero_covers (p s : Z) :
  Z.land (Z.lnot p) s = 0 ↔ covers p s.
Proof.
  unfold covers. split.
  - intros H i Hi Hs.
    assert (Hb : Z.testbit (Z.land (Z.lnot p) s) i = false)
      by (rewrite H; apply Z.bits_0).
    rewrite Z.land_spec, Z.lnot_spec, Hs in Hb by exact Hi.
    destruct (Z.testbit p i); [reflexivity | discriminate].
  - intros H. apply Z.bits_inj'. intros i Hi.
    rewrite Z.bits_0, Z.land_spec, Z.lnot_spec by exact Hi.
    destruct (Z.testbit s i) eqn:Hs.
    + rewrite (H i Hi Hs). reflexivity.
    + apply andb_false_r.
Qed.

(** Nothing is missing exactly when the known bits asked for are all held. *)
Lemma missing_zero_covers (p s : Z) :
  Z.land (invert p) s = 0 ↔ covers p (Z.land everything s).
Proof.
  rewrite <- land_lnot_zero_covers. unfold invert.
  rewrite (Z.land_comm everything (Z.lnot p)), <- Z.land_assoc. reflexivity.
Qed.

Lemma land_administrator (p : Z) :
  (Z.land p ADMINISTRATOR =? 0) = negb (Z.testbit p 3).
Proof.
  unfold ADMINISTRATOR. rewrite Z.shiftl_1_l.
  destruct (Z.testbit p 3) eqn:Hb; simpl.
  - apply Z.eqb_neq. intros H.
    assert (Hc : Z.testbit (Z.land p (2 ^ 3)) 3 = false)
      by (rewrite H; apply Z.bits_0).
    rewrite Z.land_spec, Hb, Z.pow2_bits_true in Hc by lia. discriminate.
  - apply Z.eqb_eq. apply Z.bits_inj'. intros i Hi.
    rewrite Z.bits_0, Z.land_spec.
    destruct (decide (i = 3)) as [->|Hne].
    + rewrite Hb. reflexivity.
    + rewrite Z.pow2_bits_false by lia. apply andb_false_r.
Qed.

Lemma includes_true_iff (p s : Z) :
  includes_permissions p s = true
  ↔ Z.testbit p 3 = true ∨ covers p (Z.land everything s).
Proof.
  unfold includes_permissions, NONE. rewrite land_administrator.
  rewrite <- missing_zero_covers.
  destruct (Z.testbit p 3); simpl; [tauto |].
  destruct (Z.eqb_spec (Z.land (invert p) s) 0) as [E|E]; simpl.
  - tauto.
  - split; [discriminate | intros [H|H]; [discriminate | contradiction]].
Qed.

(** For a request made of known members the mask changes nothing. *)
Lemma covers_known (p s : Z) :
  covers everything s → (covers p (Z.land everything s) ↔ covers p s).
Proof.
  intros Hk. split; intros H i Hi Hs.
  - apply (H i Hi). rewrite Z.land_spec, Hs, (Hk i Hi Hs). reflexivity.
  - rewrite Z.land_spec in Hs. apply andb_true_iff in Hs as [_ Hs]. auto.
Qed.

(** C9 (restricted to the bits hikari knows).  [includes_permissions] answers
    [True] whenever [permissions] has the ADMINISTRATOR bit (bit 3), whatever
    [should_include] is; without that bit it answers [True] exactly when
    every bit of [should_include] that belongs to a member of
    [hikari.Permissions] is also set in [permissions].  Bits of
    [should_include] outside [everything] are never missed; when
    [should_include] has none, the answer is [True] exactly when every bit
    set in [should_include] is set in [permissions]. *)
Theorem includes_permissions_spec (permissions should_include : Z) :
  (Z.testbit permissions 3 = true →
     includes_permissions permissions should_include = true)
  ∧ (Z.testbit permissions 3 = false →
     (includes_permissions permissions should_include = true
        ↔ covers permissions (Z.land everything should_include))
     ∧ (covers everything should_include →
        (includes_permissions permissions should_include = true
           ↔ covers permissions should_include))).
Proof.
  split.
  - intros Hadm. apply includes_true_iff. left. exact Hadm.
  - intros Hnot.
    assert (Hiff : includes_permissions permissions should_include = true
                   ↔ covers permissions (Z.land everything should_include)).
    { rewrite includes_true_iff, Hnot. split; [| tauto].
      intros [H|H]; [discriminate H | exact H]. }
    split; [exact Hiff |].
    intros Hk. rewrite Hiff. apply covers_known, Hk.
Qed.

Lemma covers_lor (p a b : Z) : covers p (Z.lor a b) ↔ covers p a ∧ covers p b.
Proof.
  unfold covers. split.
  - intros H. split; intros i Hi Hb; apply (H i Hi); rewrite Z.lor_spec, Hb;
      [reflexivity | apply orb_true_r].
  - intros [Ha Hb] i Hi Hab. rewrite Z.lor_spec in Hab.
    apply orb_true_iff in Hab as [H|H]; auto.
Qed.

(** X1.  Asking for the union of two permission sets is asking for both:
    [includes_permissions p (a | b)] is the conjunction of the two separate
    answers; asking for nothing ([NONE]) always succeeds, and a permission
    set includes itself. *)
Theorem includes_permissions_union (permissions a b : Z) :
  includes_permissions permissions (Z.lor a b)
  = includes_permissions permissions a && includes_permissions permissions b
  ∧ includes_permissions permissions NONE = true
  ∧ includes_permissions permissions permissions = true.
Proof.
  split; [| split].
  - apply eq_true_iff_eq.
    rewrite andb_true_iff, !includes_true_iff, Z.land_lor_distr_r, covers_lor.
    tauto.
  - apply includes_true_iff. right. intros i _ Hb. unfold NONE in Hb.
    rewrite Z.land_0_r, Z.bits_0 in Hb. discriminate.
  - apply includes_true_iff. right. intros i _ Hb.
    rewrite Z.land_spec in Hb. apply andb_true_iff in Hb as [_ Hb]. exact Hb.
Qed.

(** X2.  [includes_permissions] is monotone in the permissions held: a
    holder of more permissions passes every check the holder of fewer
    passes. *)
Theorem includes_permissions_monotone (permissions more should_include : Z) :
  covers more permissions →
  includes_permissions permissions should_include = true →
  includes_permissions more should_include = true.
Proof.
  intros Hmore Hinc. rewrite !includes_true_iff in *.
  destruct Hinc as [Hadm|Hc]; [left; apply Hmore; [lia | exact Hadm] |].
  right. intros i Hi Hs. apply Hmore; auto.
Qed.

End Permissions.

(** A flag type whose members are bits 0 to 40, as Discord's permissions
    were when the bot was written. *)
Definition discord_permissions : Hikari := {| everything := Z.ones 41 |}.

Example includes_permissions_admin :
  includes_permissions (hikari := discord_permissions) 8 1024 = true.
Proof. reflexivity. Qed.
Example includes_permissions_missing :
  includes_permissions (hikari := discord_permissions) 3 6 = false.
Proof. reflexivity. Qed.
Example includes_permissions_subset :
  includes_permissions (hikari := discord_permissions) 7 6 = true.
Proof. reflexivity. Qed.

(** An administrator, a subset, and a missing bit. *)
Lemma includes_permissions_spec_witness :
  includes_permissions (hikari := discord_permissions) 8 1024 = true
  ∧ includes_permissions (hikari := discord_permissions) 7 6 = true
  ∧ ¬ covers 3 6.
Proof.
  destruct (includes_permissions_spec (hikari := discord_permissions) 8 1024)
    as [Hadm _].
  destruct (includes_permissions_spec (hikari := discord_permissions) 3 6)
    as [_ Hmiss].
  split; [apply Hadm; reflexivity |].
  split; [reflexivity |].
  intros Hc. destruct (Hmiss eq_refl) as [_ Hknown].
  apply Hknown in Hc; [discriminate Hc |].
  apply land_lnot_zero_covers. reflexivity.
Defined.

(** C9, as stated: bit 60, which hikari does not know, is asked for and not
    held, there is no ADMINISTRATOR bit, and the answer is [True]. *)
Lemma unknown_bit_is_not_missed :
  Z.testbit 0 3 = false
  ∧ Z.testbit (Z.shiftl 1 60) 60 = true
  ∧ Z.testbit 0 60 = false
  ∧ ¬ covers 0 (Z.shiftl 1 60)
  ∧ includes_permissions (hikari := discord_permissions) 0 (Z.shiftl 1 60) = true.
Proof.
  split; [reflexivity |]. split; [reflexivity |]. split; [reflexivity |].
  split; [| reflexivity].
  intros Hc. specialize (Hc 60 ltac:(lia) eq_refl). discriminate Hc.
Qed.

Lemma includes_permissions_monotone_witness :
  includes_permissions (hikari := discord_permissions) 7 2 = true.
Proof.
  apply (includes_permissions_monotone (hikari := discord_permissions) 3 7 2);
    [| reflexivity].
  apply land_lnot_zero_covers. reflexivity.
Defined.

(** A [datetime.datetime], as far as [format_dt] reads it: what
    [int(time.timestamp())] gives, the whole second, or the exception
    [time.timestamp()] raises (a naive [datetime.min] is out of the platform's
    range and raises [ValueError]). *)
Record datetime := { timestamp : Exception + Z }.

Definition valid_styles : list string :=
  ["t"; "T"; "d"; "D"; "f"; "F"; "R"]%string.

(** [format_dt(time, style)]: the style is checked first, the timestamp is
    taken when the text is built. *)
Definition format_dt (time : datetime) (style : option string) : Res string :=
  let given :=
    match style with
    | None => false
    | Some s => negb (bool_decide (s = EmptyString))
    end in
  let style_text := default EmptyString style in
  if given && negb (bool_decide (style_text ∈ valid_styles)) then Exc ValueError
  else if given then
    match timestamp time with
    | inl e => Exc e
    | inr seconds =>
        Ret ("<t:" +:+ pretty seconds +:+ ":" +:+ style_text +:+ ">")%string
    end
  else
    match timestamp time with
    | inl e => Exc e
    | inr seconds => Ret ("<t:" +:+ pretty seconds +:+ ">")%string
    end.

(** A [hikari.Role], with the attributes the helpers read. *)
Record Role := { role_id : Z; position : Z; color : Z }.

(** [hikari.Color.from_rgb(0, 0, 0)] *)
Definition black : Z := 0.

(** [get_color(member)]; [roles] is [member.get_roles()]. *)
Fixpoint first_colored (roles : list Role) : option Z :=
  match roles with
  | [] => None
  | role :: rest =>
      if negb (color role =? black) then Some (color role)
      else first_colored rest
  end.

Definition get_color (roles : list Role) : option Z :=
  first_colored (reverse roles).

(** [sorted(roles, key=lambda r: r.position, reverse=True)]: Python's sort
    is stable, also with [reverse=True]. *)
Fixpoint insert_role (role : Role) (sorted : list Role) : list Role :=
  match sorted with
  | [] => [role]
  | other :: rest =>
      if position role <? position other then other :: insert_role role rest
      else role :: other :: rest
  end.

Definition sort_roles (roles : list Role) : list Role :=
  foldr insert_role [] roles.

Lemma insert_role_perm role l : insert_role role l ≡ₚ role :: l.
Proof.
  induction l as [|o l IH]; cbn [insert_role]; [reflexivity |].
  destruct (position role <? position o); [| reflexivity].
  rewrite IH. apply Permutation_swap.
Qed.

Definition descending : relation Role := λ a b, position b ≤ position a.

Lemma insert_role_sorted role l :
  StronglySorted descending l → StronglySorted descending (insert_role role l).
Proof.
  induction 1 as [|o l Hs IH Hall]; cbn [insert_role].
  - repeat constructor.
  - destruct (Z.ltb_spec (position role) (position o)) as [Hlt|Hge].
    + constructor; [exact IH |].
      rewrite insert_role_perm. constructor; [unfold descending; lia | exact Hall].
    + constructor; [constructor; assumption |].
      constructor; [exact Hge |].
      eapply Forall_impl; [exact Hall |]. unfold descending. intros; lia.
Qed.

Lemma insert_role_filter k role l :
  filter (λ r, position r = k) (insert_role role l)
  = filter (λ r, position r = k) (role :: l).
Proof.
  induction l as [|o l IH]; cbn [insert_role]; [reflexivity |].
  destruct (Z.ltb_spec (position role) (position o)) as [Hlt|Hge]; [| reflexivity].
  rewrite filter_cons, IH, !filter_cons.
  repeat case_decide; try reflexivity; lia.
Qed.

(** X5.  [sort_roles] returns the same roles (a permutation), in descending
    order of position, and roles of equal position keep the order they had
    in the input. *)
Theorem sort_roles_sorted_stable (roles : list Role) :
  sort_roles roles ≡ₚ roles
  ∧ StronglySorted descending (sort_roles roles)
  ∧ ∀ k, filter (λ r, position r = k) (sort_roles roles)
         = filter (λ r, position r = k) roles.
Proof.
  induction roles as [|r l (Hp & Hs & Hf)]; cbn [sort_roles foldr].
  - split; [reflexivity |]. split; [constructor | reflexivity].
  - fold (sort_roles l). split; [| split].
    + rewrite insert_role_perm, Hp. reflexivity.
    + apply insert_role_sorted, Hs.
    + intros k. rewrite insert_role_filter, !filter_cons, Hf. reflexivity.
Qed.

Lemma first_colored_None l :
  first_colored l = None ↔ Forall (λ r, color r = black) l.
Proof.
  induction l as [|r l IH]; cbn [first_colored].
  - split; [constructor | reflexivity].
  - destruct (Z.eqb_spec (color r) black) as [E|E]; cbn [negb].
    + rewrite IH. split; [constructor; assumption | inversion 1; assumption].
    + split; [discriminate | inversion 1; contradiction].
Qed.

Lemma first_colored_Some l c :
  first_colored l = Some c ↔
  ∃ before r after, l = before ++ r :: after
    ∧ Forall (λ r, color r = black) before ∧ color r = c ∧ c ≠ black.
Proof.
  induction l as [|r l IH]; cbn [first_colored].
  - split; [discriminate | intros (b & r & a & H & _)].
    destruct b; discriminate.
  - destruct (Z.eqb_spec (color r) black) as [E|E]; cbn [negb].
    + rewrite IH. split.
      * intros (b & r' & a & -> & Hb & Hc & Hn).
        exists (r :: b), r', a. repeat split; auto.
      * intros (b & r' & a & Hl & Hb & Hc & Hn).
        destruct b as [|r0 b]; simplify_eq/=; try congruence.
        inversion Hb; subst. exists b, r', a. repeat split; auto.
    + split.
      * intros [= <-]. exists [], r, l. repeat split; auto.
      * intros (b & r' & a & Hl & Hb & Hc & Hn).
        destruct b as [|r0 b]; simplify_eq/=; try reflexivity.
        inversion Hb; subst. contradiction.
Qed.

(** X4.  [get_color] answers [None] exactly when every role of the member
    is black (in particular when there is no role); otherwise it answers the
    colour of the last role of [get_roles()] that is not black. *)
Theorem get_color_last_colored (roles : list Role) :
  (get_color roles = None ↔ Forall (λ r, color r = black) roles)
  ∧ ∀ c, get_color roles = Some c ↔
      ∃ before r after, roles = before ++ r :: after
        ∧ color r = c ∧ c ≠ black ∧ Forall (λ r, color r = black) after.
Proof.
  unfold get_color. split.
  - rewrite first_colored_None. split; intros H.
    + rewrite <- (reverse_involutive roles). apply Forall_reverse; exact H.
    + apply Forall_reverse; exact H.
  - intros c. rewrite first_colored_Some. split.
    + intros (b & r & a & Hl & Hb & Hc & Hn). exists (reverse a), r, (reverse b).
      split; [| repeat split; auto; apply Forall_reverse; exact Hb].
      rewrite <- (reverse_involutive roles), Hl, reverse_app, reverse_cons.
      rewrite <- app_assoc. reflexivity.
    + intros (b & r & a & -> & Hc & Hn & Ha). exists (reverse a), r, (reverse b).
      split; [| repeat split; auto; apply Forall_reverse; exact Ha].
      rewrite reverse_app, reverse_cons, <- app_assoc. reflexivity.
Qed.

Lemma string_length_app (s t : string) :
  String.length (s +:+ t) = (String.length s + String.length t)%nat.
Proof. induction s as [|a s IH]; simpl; [reflexivity | rewrite IH; reflexivity]. Qed.

Lemma string_app_inv_tail (s1 s2 t : string) :
  (s1 +:+ t)%string = (s2 +:+ t)%string → s1 = s2.
Proof.
  revert s2. induction s1 as [|a s1 IH]; intros [|b s2] H; simpl in H.
  - reflexivity.
  - exfalso. apply (f_equal String.length) in H.
    rewrite !string_length_app in H. simpl in H. lia.
  - apply (f_equal String.length) in H.
    rewrite !string_length_app in H. simpl in H. lia.
  - injection H as -> H. f_equal. apply IH, H.
Qed.

(** The style [format_dt] refuses: given, not empty, and not one of the
    seven. *)
Definition invalid_style (style : option string) : Prop :=
  ∃ s, style = Some s ∧ s ≠ EmptyString ∧ s ∉ valid_styles.

Lemma format_dt_invalid (time : datetime) (style : option string) :
  invalid_style style → format_dt time style = Exc ValueError.
Proof.
  intros (s & -> & Hne & Hout). unfold format_dt. cbn [default].
  rewrite (bool_decide_eq_false_2 _ Hne), (bool_decide_eq_false_2 _ Hout).
  reflexivity.
Qed.

Lemma format_dt_valid (time : datetime) (style : option string) :
  ¬ invalid_style style →
  format_dt time style
  = match timestamp time with
    | inl e => Exc e
    | inr seconds =>
        Ret ("<t:" +:+ pretty seconds
             +:+ match style with
                 | Some (String c s) => ":" +:+ String c s +:+ ">"
                 | _ => ">"
                 end)%string
    end.
Proof.
  intros Hvalid. unfold format_dt.
  destruct style as [[|c s]|]; cbn [default].
  - cbn. destruct (timestamp time); reflexivity.
  - rewrite (bool_decide_eq_false_2 (String c s = EmptyString)) by discriminate.
    cbn [negb andb].
    destruct (decide (String c s ∈ valid_styles)) as [Hin|Hout].
    + rewrite (bool_decide_eq_true_2 _ Hin). cbn [negb].
      destruct (timestamp time); reflexivity.
    + contradiction Hvalid. exists (String c s). split; [reflexivity |].
      split; [discriminate | exact Hout].
  - cbn. destruct (timestamp time); reflexivity.
Qed.

Lemma invalid_style_dec (style : option string) :
  invalid_style style ∨ ¬ invalid_style style.
Proof.
  destruct style as [s|]; [| right; intros (s & [=] & _)].
  destruct (decide (s = EmptyString)) as [->|Hne];
    [right; intros (s & [= <-] & H & _); congruence |].
  destruct (decide (s ∈ valid_styles)) as [Hin|Hout].
  - right. intros (s' & [= <-] & _ & H). contradiction.
  - left. exists s. auto.
Qed.

(** X3.  [format_dt] raises [ValueError] for a non-empty style that is not
    one of t, T, d, D, f, F, R, whatever the time; for any other style it
    raises exactly what [time.timestamp()] raises and returns a text when
    that call returns; the empty style is treated as no style; and for a
    given style two times with the same text have the same whole second. *)
Theorem format_dt_styles (time : datetime) (style : option string) :
  (∀ e, format_dt time style = Exc e
        ↔ (invalid_style style ∧ e = ValueError)
          ∨ (¬ invalid_style style ∧ timestamp time = inl e))
  ∧ (∀ text, format_dt time style = Ret text →
        ¬ invalid_style style ∧ ∃ seconds, timestamp time = inr seconds)
  ∧ (∀ seconds, ¬ invalid_style style → timestamp time = inr seconds →
        ∃ text, format_dt time style = Ret text)
  ∧ (format_dt time None = format_dt time (Some EmptyString))
  ∧ (∀ other text, format_dt time style = Ret text →
        format_dt other style = Ret text → timestamp other = timestamp time).
Proof.
  destruct (invalid_style_dec style) as [Hbad|Hgood].
  - split; [| split; [| split; [| split]]].
    + intros e. rewrite (format_dt_invalid _ _ Hbad). split.
      * intros [= <-]. left. auto.
      * intros [[_ ->]|[Hn _]]; [reflexivity | contradiction].
    + intros text. rewrite (format_dt_invalid _ _ Hbad). discriminate.
    + intros seconds Hn. contradiction.
    + reflexivity.
    + intros other text. rewrite (format_dt_invalid _ _ Hbad). discriminate.
  - split; [| split; [| split; [| split]]].
    + intros e. rewrite (format_dt_valid _ _ Hgood). split.
      * destruct (timestamp time) as [e'|seconds]; [| discriminate].
        intros [= <-]. right. auto.
      * intros [[Hn _]|[_ ->]]; [contradiction | reflexivity].
    + intros text. rewrite (format_dt_valid _ _ Hgood).
      destruct (timestamp time) as [e'|seconds]; [discriminate |].
      intros _. split; [exact Hgood | eauto].
    + intros seconds _ Ht. rewrite (format_dt_valid _ _ Hgood), Ht. eauto.
    + reflexivity.
    + intros other text. rewrite !(format_dt_valid _ _ Hgood).
      destruct (timestamp time) as [e1|t1]; [discriminate |].
      destruct (timestamp other) as [e2|t2]; [discriminate |].
      intros [= <-] [= H]. apply (inj (String.app _)) in H.
      f_equal.
      destruct style as [[|c s]|];
        apply string_app_inv_tail in H; apply (inj pretty) in H; exact H.
Qed.

(** A time out of range with an invalid and with a valid style, and two
    times in range. *)
Example format_dt_demo :
  format_dt {| timestamp := inl ValueError |} (Some "x"%string) = Exc ValueError
  ∧ format_dt {| timestamp := inl ValueError |} (Some "R"%string) = Exc ValueError
  ∧ format_dt {| timestamp := inr 1650000000 |} (Some "R"%string)
    = Ret "<t:1650000000:R>"%string
  ∧ format_dt {| timestamp := inr 1650000000 |} None = Ret "<t:1650000000>"%string.
Proof. vm_compute. repeat split. Qed.

(** What [is_above] and [can_harm] raise. *)
Inductive Raised :=
  | AssertionError
  | BotMissingRequiredPermission (perms : Z)
  | RoleHierarchyError.

Inductive Outcome (A : Type) :=
  | Returns (a : A)
  | Raises (e : Raised).
Arguments Returns {A} a.
Arguments Raises {A} e.

Record Guild := { owner_id : Z }.

(** A [hikari.Member]: [get_top_role()] and [get_guild()] read the cache and
    may answer [None]; [permissions] is [lightbulb.utils.permissions_for]. *)
Record Member := {
  member_id : Z;
  get_top_role : option Role;
  get_guild : option Guild;
  permissions_for : Z
}.

Definition is_above (me member : Member) : Outcome bool :=
  match get_top_role me with
  | None => Raises AssertionError
  | Some me_top_role =>
      match get_top_role member with
      | None => Raises AssertionError
      | Some member_top_role =>
          if position member_top_role <? position me_top_role
          then Returns true else Returns false
      end
  end.

Definition can_harm {hikari : Hikari} (me member : Member) (permission : Z)
    (raise_error : bool) : Outcome bool :=
  let perms := permissions_for me in
  if negb (includes_permissions perms permission) then
    if raise_error then Raises (BotMissingRequiredPermission permission)
    else Returns false
  else
    match get_guild member with
    | None => Returns true
    | Some guild =>
        if member_id member =? owner_id guild then
          (* [errors.RoleHierarchyError] is named here, not raised *)
          Returns false
        else
          match is_above me member with
          | Raises e => Raises e
          | Returns above =>
              if negb above then
                if raise_error then Raises RoleHierarchyError
                else Returns false
              else Returns true
          end
    end.

Definition is_owner (member : Member) : Prop :=
  ∃ guild, get_guild member = Some guild ∧ member_id member = owner_id guild.

(** X7.  [can_harm] answers [True], with or without [raise_error], exactly
    when the bot holds the permission (or ADMINISTRATOR) and either the
    member's guild is not cached, or the member is not the guild's owner and
    the bot's top role is strictly above the member's. *)
Theorem can_harm_true_iff {hikari : Hikari} (me member : Member) (permission : Z)
    (raise_error : bool) :
  can_harm me member permission raise_error = Returns true ↔
    includes_permissions (permissions_for me) permission = true
    ∧ (get_guild member = None
       ∨ (¬ is_owner member
          ∧ ∃ mine theirs, get_top_role me = Some mine
              ∧ get_top_role member = Some theirs
              ∧ position theirs < position mine)).
Proof.
  unfold can_harm, is_above, is_owner.
  destruct (includes_permissions _ _); cbn [negb].
  2: { destruct raise_error; split; try discriminate; intros [[=] _]. }
  destruct (get_guild member) as [g|].
  2: { split; auto. }
  destruct (Z.eqb_spec (member_id member) (owner_id g)) as [E|E].
  { split; [discriminate |]. intros [_ [[=]|[H _]]]. exfalso. apply H. eauto. }
  assert (Hno : ¬ ∃ guild, Some g = Some guild ∧ member_id member = owner_id guild).
  { intros (g' & [= <-] & H). contradiction. }
  destruct (get_top_role me) as [a|].
  2: { split; [discriminate |]. intros [_ [[=]|[_ (x & y & [=] & _)]]]. }
  destruct (get_top_role member) as [b|].
  2: { split; [discriminate |]. intros [_ [[=]|[_ (x & y & _ & [=] & _)]]]. }
  destruct (Z.ltb_spec (position b) (position a)) as [L|L]; cbn [negb].
  - split; [| reflexivity]. intros _. split; [reflexivity |]. right. eauto 10.
  - destruct raise_error; (split; [discriminate |]);
      intros [_ [[=]|[_ (x & y & [= <-] & [= <-] & H)]]]; lia.
Qed.

(** X8.  With [raise_error=True], [can_harm] returns [False] only for the
    guild's owner (line 243 names [RoleHierarchyError] without raising it),
    and for the owner it returns [False] whatever [raise_error] is once the
    permission check passed; without [raise_error] the only exception is the
    [AssertionError] of a missing top role; and whenever the raising call
    raises a permission or hierarchy error, the quiet call returns [False]. *)
Theorem can_harm_raise_error {hikari : Hikari} (me member : Member) (permission : Z) :
  (can_harm me member permission true = Returns false → is_owner member)
  ∧ (is_owner member →
       includes_permissions (permissions_for me) permission = true →
       ∀ raise_error, can_harm me member permission raise_error = Returns false)
  ∧ (∀ e, can_harm me member permission false = Raises e → e = AssertionError)
  ∧ (∀ e, can_harm me member permission true = Raises e →
       e = AssertionError
       ∨ can_harm me member permission false = Returns false).
Proof.
  unfold can_harm, is_above, is_owner.
  destruct (includes_permissions _ _); cbn [negb].
  2: { repeat split; try discriminate; auto; try (intros _ [=]). }
  destruct (get_guild member) as [g|].
  2: { repeat split; try discriminate. intros (g & [=] & _). }
  destruct (Z.eqb_spec (member_id member) (owner_id g)) as [E|E].
  { repeat split; try discriminate; eauto. }
  destruct (get_top_role me) as [a|].
  2: { repeat split; try discriminate; try (intros e [= <-]; auto).
       intros (g' & [= <-] & H); contradiction. }
  destruct (get_top_role member) as [b|].
  2: { repeat split; try discriminate; try (intros e [= <-]; auto).
       intros (g' & [= <-] & H); contradiction. }
  destruct (position b <? position a); cbn [negb];
    repeat split; try discriminate; try (intros e [= <-]; auto);
    intros (g' & [= <-] & H); contradiction.
Qed.

(** A Python [str] as its sequence of code points. *)
Definition str := list N.

Definition lit (s : string) : str := N_of_ascii <$> String.list_ascii_of_string s.

(** [s[:stop]] *)
Definition slice_to {A} (stop : Z) (s : list A) : list A :=
  let len := Z.of_nat (length s) in
  let stop := if stop <? 0 then Z.max 0 (stop + len) else Z.min stop len in
  take (Z.to_nat stop) s.

(** The moderator as [format_reason] reads it: [str(moderator)] and its id. *)
Record Moderator := { moderator_str : str; moderator_id : Z }.

(** [format_reason(reason, moderator, max_length=...)]; the keyword's
    default is [Some 512]. *)
Definition format_reason
    (reason : option str) (moderator : option Moderator) (max_length : option Z)
  : str :=
  let reason :=
    match reason with
    | Some (c :: rest) => c :: rest
    | _ => lit "No reason provided."
    end in
  let reason :=
    match moderator with
    | Some moderator =>
        moderator_str moderator ++ lit " (" ++ lit (pretty (moderator_id moderator))
          ++ lit "): " ++ reason
    | None => reason
    end in
  match max_length with
  | Some max_length =>
      if negb (max_length =? 0) && (max_length <? Z.of_nat (length reason))
      then slice_to (max_length - 3) reason ++ lit "..."
      else reason
  | None => reason
  end.

(** X9.  For a [max_length] of at least 3, [format_reason] never returns
    more than [max_length] characters: a text that fits is returned whole,
    a longer one is cut to its first [max_length - 3] characters followed by
    three dots, [max_length] characters in all. *)
Theorem format_reason_truncates
    (reason : option str) (moderator : option Moderator) (max_length : Z) :
  3 ≤ max_length →
  let full := format_reason reason moderator None in
  let short := format_reason reason moderator (Some max_length) in
  Z.of_nat (length short) ≤ max_length
  ∧ (Z.of_nat (length full) ≤ max_length → short = full)
  ∧ (max_length < Z.of_nat (length full) →
       short = take (Z.to_nat (max_length - 3)) full ++ lit "..."
       ∧ Z.of_nat (length short) = max_length).
Proof.
  intros Hk full short. unfold short, format_reason. fold (format_reason reason moderator None).
  fold full. destruct (Z.eqb_spec max_length 0) as [E|_]; [lia |]. cbn [negb andb].
  destruct (Z.ltb_spec max_length (Z.of_nat (length full))) as [L|L].
  - assert (Hs : slice_to (max_length - 3) full = take (Z.to_nat (max_length - 3)) full).
    { unfold slice_to. destruct (Z.ltb_spec (max_length - 3) 0); [lia |].
      rewrite Z.min_l by lia. reflexivity. }
    rewrite Hs.
    assert (Hl : Z.of_nat (length (take (Z.to_nat (max_length - 3)) full ++ lit "..."))
                 = max_length).
    { rewrite length_app, length_take.
      change (length (lit "...")) with 3%nat. lia. }
    split; [lia |]. split; [lia | auto].
  - split; [lia |]. split; [reflexivity | lia].
Qed.

Lemma format_reason_truncates_witness :
  format_reason (Some (lit "spamming")) None (Some 6) = lit "spa...".
Proof.
  destruct (format_reason_truncates (Some (lit "spamming")) None 6 ltac:(lia))
    as (_ & _ & H).
  exact (proj1 (H ltac:(vm_compute; reflexivity))).
Defined.

(** X10.  For a [max_length] of 1 or 2 the slice bound [max_length - 3] is
    negative and counts from the end: a text longer than [max_length] comes
    back [max_length] characters LONGER than it was, not shortened. *)
Theorem format_reason_short_limit
    (reason : option str) (moderator : option Moderator) (max_length : Z) :
  0 < max_length < 3 →
  let full := format_reason reason moderator None in
  let short := format_reason reason moderator (Some max_length) in
  max_length < Z.of_nat (length full) →
  Z.of_nat (length short) = Z.of_nat (length full) + max_length.
Proof.
  intros Hk full short L. unfold short, format_reason.
  fold (format_reason reason moderator None). fold full.
  destruct (Z.eqb_spec max_length 0) as [E|_]; [lia |]. cbn [negb andb].
  destruct (Z.ltb_spec max_length (Z.of_nat (length full))) as [_|L']; [| lia].
  unfold slice_to. destruct (Z.ltb_spec (max_length - 3) 0); [| lia].
  rewrite length_app, length_take. change (length (lit "...")) with 3%nat. lia.
Qed.

Lemma format_reason_short_limit_witness :
  length (format_reason (Some (lit "spam")) None (Some 1)) = 5%nat.
Proof.
  apply (inj Z.of_nat).
  exact (format_reason_short_limit (Some (lit "spam")) None 1 ltac:(lia)
           ltac:(vm_compute; reflexivity)).
Defined.

(** [hikari.UserFlag] members read by [get_badges]. *)
Module UserFlag.
Definition DISCORD_EMPLOYEE : Z := Z.shiftl 1 0.
Definition PARTNERED_SERVER_OWNER : Z := Z.shiftl 1 1.
Definition HYPESQUAD_EVENTS : Z := Z.shiftl 1 2.
Definition BUG_HUNTER_LEVEL_1 : Z := Z.shiftl 1 3.
Definition HYPESQUAD_BRAVERY : Z := Z.shiftl 1 6.
Definition HYPESQUAD_BRILLIANCE : Z := Z.shiftl 1 7.
Definition HYPESQUAD_BALANCE : Z := Z.shiftl 1 8.
Definition EARLY_SUPPORTER : Z := Z.shiftl 1 9.
Definition BUG_HUNTER_LEVEL_2 : Z := Z.shiftl 1 14.
Definition EARLY_VERIFIED_DEVELOPER : Z := Z.shiftl 1 17.
Definition DISCORD_CERTIFIED_MODERATOR : Z := Z.shiftl 1 18.
End UserFlag.

(** The emoji constants of [etc.constants] that [get_badges] names. *)
Class Constants := {
  EMOJI_BUGHUNTER : string;
  EMOJI_BUGHUNTER_GOLD : string;
  EMOJI_CERT_MOD : string;
  EMOJI_EARLY_SUPPORTER : string;
  EMOJI_VERIFIED_DEVELOPER : string;
  EMOJI_HYPESQUAD_EVENTS : string;
  EMOJI_HYPESQUAD_BALANCE : string;
  EMOJI_HYPESQUAD_BRAVERY : string;
  EMOJI_HYPESQUAD_BRILLIANCE : string;
  EMOJI_PARTNER : string;
  EMOJI_STAFF : string
}.

Section Badges.
Context {const : Constants}.

Definition badge_emoji_mapping : list (Z * string) :=
  [ (UserFlag.BUG_HUNTER_LEVEL_1, EMOJI_BUGHUNTER);
    (UserFlag.BUG_HUNTER_LEVEL_2, EMOJI_BUGHUNTER_GOLD);
    (UserFlag.DISCORD_CERTIFIED_MODERATOR, EMOJI_CERT_MOD);
    (UserFlag.EARLY_SUPPORTER, EMOJI_EARLY_SUPPORTER);
    (UserFlag.EARLY_VERIFIED_DEVELOPER, EMOJI_VERIFIED_DEVELOPER);
    (UserFlag.HYPESQUAD_EVENTS, EMOJI_HYPESQUAD_EVENTS);
    (UserFlag.HYPESQUAD_BALANCE, EMOJI_HYPESQUAD_BALANCE);
    (UserFlag.HYPESQUAD_BRAVERY, EMOJI_HYPESQUAD_BRAVERY);
    (UserFlag.HYPESQUAD_BRILLIANCE, EMOJI_HYPESQUAD_BRILLIANCE);
    (UserFlag.PARTNERED_SERVER_OWNER, EMOJI_PARTNER);
    (UserFlag.DISCORD_EMPLOYEE, EMOJI_STAFF) ].

(** [[emoji for flag, emoji in badge_emoji_mapping.items() if flag & user.flags]] *)
Definition get_badges (flags : Z) : list string :=
  snd <$> filter (λ entry, Z.land entry.1 flags ≠ 0) badge_emoji_mapping.

(** The flags that have a badge. *)
Definition badge_flags : Z := foldr Z.lor 0 (fst <$> badge_emoji_mapping).

Lemma badge_filter_ext (f g : Z) (l : list (Z * string)) :
  Forall (λ entry, Z.land entry.1 f = Z.land entry.1 g) l →
  filter (λ entry, Z.land entry.1 f ≠ 0) l = filter (λ entry, Z.land entry.1 g ≠ 0) l.
Proof.
  induction 1 as [|e l He _ IH]; [reflexivity |].
  rewrite !filter_cons, IH, He. reflexivity.
Qed.

(** X6.  [get_badges] depends only on the eleven flags that have a badge:
    other bits of [user.flags] change nothing, the badges come in the order
    of the mapping, and a user with none of the eleven flags has no badge. *)
Theorem get_badges_known_flags (flags : Z) :
  get_badges flags = get_badges (Z.land flags badge_flags)
  ∧ get_badges flags `sublist_of` (snd <$> badge_emoji_mapping)
  ∧ (Z.land flags badge_flags = 0 → get_badges flags = []).
Proof.
  assert (Hm : get_badges flags = get_badges (Z.land flags badge_flags)).
  { unfold get_badges. f_equal. apply badge_filter_ext.
    assert (Hall : Forall (λ entry : Z * string, Z.land entry.1 badge_flags = entry.1)
                     badge_emoji_mapping).
    { repeat constructor. }
    eapply Forall_impl; [exact Hall |]. intros e He. cbv beta in *.
    rewrite (Z.land_comm flags), Z.land_assoc, He. reflexivity. }
  split; [exact Hm |]. split.
  - unfold get_badges. apply fmap_sublist, sublist_filter.
  - intros H. rewrite Hm, H. reflexivity.
Qed.

End Badges.

End Helpers.

(* ===================================================================== *)
(** * extensions/error_handler.py *)
(* ===================================================================== *)

Module ErrorHandler.
Import Py.

Inductive Color := error_color | embed_blue.
Inductive MessageFlag := EPHEMERAL | NO_FLAG.

Record Embed := {
  title : string;
  description : string;
  color : Color;
  footer : option string;
}.

(** What leaves the process. *)
Inductive Event :=
| Respond (embed : Embed) (flags : MessageFlag)
| LoggingError (msg : string)
| CreateMessage (channel_id : PyValue) (content : string).

(** The trace, and how many REST sends were attempted so far. *)
Record St := { log : list Event; sent : nat }.

Definition emit (e : Event) : M St unit :=
  modify (λ s, {| log := log s ++ [e]; sent := sent s |}).

(** A guild of the cache, as far as the handler reads it. *)
Record Guild := { guild_name : string }.

(** [get_guild] is [ctx.get_guild()]: the guild of the cache, [None] when the
    guild the command came from is not cached. *)
Record Context := {
  get_guild : option Guild;
  guild_id : Z;
  command_name : string;
  author : string;
  author_id : Z;
  config : gmap string PyValue;
}.

(** The cause wrapped by a [CommandInvocationError]. *)
Inductive Original :=
| AsyncioTimeoutError
| InternalServerError
| ForbiddenError
| RoleHierarchyError
| OtherOriginal (cls : string).

(** The framework's error hierarchy, as far as the handler inspects it;
    [float] is the type of the cooldown's [retry_after]. *)
Inductive LightbulbError (float : Type) :=
| MissingRequiredPermission (missing_perms : Z)
| BotMissingRequiredPermission (missing_perms : Z)
| OtherCheckFailure
| CommandIsOnCooldown (retry_after : float)
| CommandInvocationError (original : Original)
| OtherLightbulbError (cls : string).
Arguments MissingRequiredPermission {float} missing_perms.
Arguments BotMissingRequiredPermission {float} missing_perms.
Arguments OtherCheckFailure {float}.
Arguments CommandIsOnCooldown {float} retry_after.
Arguments CommandInvocationError {float} original.
Arguments OtherLightbulbError {float} cls.

(** Library code the handler calls into: the cooldown's float and its
    rendering, the permission names, lightbulb's [StringPaginator] (from the
    lines added to the pages built), the outcome of each REST send by attempt
    ([None] when the message goes out, the exception raised otherwise), the
    traceback formatter, and [str()] and class names of errors. *)
Class Runtime := {
  float : Type;
  round : float → Z;
  timedelta_str : Z → string;
  get_perm_str : Z → string;
  build_pages : list string → list string;
  rest_outcome : nat → option Exception;
  format_exception : LightbulbError float → list string;
  str_error : LightbulbError float → string;
  name_error : LightbulbError float → string;
  str_original : Original → string;
  name_original : Original → string;
}.

Section Handler.
Context {runtime : Runtime}.

Local Abbreviation Error := (LightbulbError float).

Definition respond (embed : Embed) (flags : MessageFlag) : M St unit :=
  emit (Respond embed flags).

Definition logging_error (msg : string) : M St unit :=
  emit (LoggingError msg).

(** [ctx.app.rest.create_message(channel_id, page)]: the attempt is recorded,
    and it raises when the platform says so. *)
Definition create_message (channel_id : PyValue) (page : string) : M St unit :=
  λ s, let s' := {| log := log s ++ [CreateMessage channel_id page];
                    sent := S (sent s) |} in
       match rest_outcome (sent s) with
       | None => (Ret tt, s')
       | Some e => (Exc e, s')
       end.

(** A result computed without touching the state. *)
Definition lift {A} (r : Res A) : M St A := λ s, (r, s).

(** The f-string of line 33, for a context whose guild is [guild]. *)
Definition context_header (c : Context) (guild : Guild) : string :=
  "Error in '" +:+ guild_name guild +:+ "' (" +:+ pretty (guild_id c)
  +:+ ") during command '" +:+ command_name c
  +:+ "' executed by user '" +:+ author c +:+ "' (" +:+ pretty (author_id c)
  +:+ ")" +:+ nl.

(** What [ctx.get_guild().name] raises when the guild is not in the cache. *)
Definition guild_missing : Exception :=
  AttributeError "'NoneType' object has no attribute 'name'".

(** The first line given to the paginator.  With a context, the f-string reads
    [ctx.get_guild().name], which raises when [get_guild()] is [None]. *)
Definition header_line (ctx : option Context) (event : option string)
    : Res string :=
  match ctx, event with
  | Some c, _ =>
      match get_guild c with
      | Some guild => Ret (context_header c guild)
      | None => Exc guild_missing
      end
  | None, Some ev =>
      Ret ("Ignoring exception in listener for " +:+ ev +:+ ":" +:+ nl)
  | None, None => Ret "Uncaught exception:"
  end.

(** The lines handed to the paginator, in order. *)
Definition paginator_lines (header : string) (error_str : string) : list string :=
  header :: split_lines error_str.

(** One turn of the loop over the pages: [except Exception] catches what
    derives from [Exception] and nothing else. *)
Definition send_page (channel_id : PyValue) (page : string) : M St unit :=
  try_except (create_message channel_id page) is_exception
    (λ error,
       logging_error ("Failed sending traceback to logging channel: "
                      +:+ exc_str error)).

Definition log_error_to_homeguild (error_str : string) (ctx : option Context)
    (event : option string) : M St unit :=
  let* header := lift (header_line ctx event) in
  let lines := paginator_lines header error_str in
  match ctx with
  | None => raise (AttributeError "'NoneType' object has no attribute 'app'")
  | Some c =>
      let channel_id := default PyNone (config c !! "error_logging_channel") in
      if negb (truthy channel_id) then ret tt
      else for_each (build_pages lines) (send_page channel_id)
  end.

Definition missing_permissions_embed (perms : Z) : Embed :=
  {| title := "❌ Missing Permissions";
     description := "You require `" +:+ get_perm_str perms
                    +:+ "` permissions to execute this command.";
     color := error_color; footer := None |}.

Definition bot_missing_permissions_embed (perms : Z) : Embed :=
  {| title := "❌ Bot Missing Permissions";
     description := "The bot requires `" +:+ get_perm_str perms
                    +:+ "` permissions to execute this command.";
     color := error_color; footer := None |}.

Definition cooldown_embed (retry_after : float) : Embed :=
  {| title := "🕘 Cooldown Pending";
     description := "Please retry in: `" +:+ timedelta_str (round retry_after) +:+ "`";
     color := error_color; footer := None |}.

Definition timed_out_embed : Embed :=
  {| title := "❌ Action timed out";
     description := "This command timed out.";
     color := error_color; footer := None |}.

Definition server_error_embed : Embed :=
  {| title := "❌ Discord Server Error";
     description := "This action has failed due to an issue with Discord's servers. Please try again in a few moments.";
     color := error_color; footer := None |}.

Definition forbidden_embed (error : Error) : Embed :=
  {| title := "❌ Forbidden";
     description := "This action has failed due to a lack of permissions." +:+ nl
                    +:+ "**Error:** " +:+ str_error error;
     color := error_color; footer := None |}.

Definition role_hierarchy_embed : Embed :=
  {| title := "❌ Role Hiearchy Error";
     description := "This action failed due to trying to modify a user with a role higher than the bot's highest role.";
     color := error_color; footer := None |}.

(** [error.original if hasattr(error, "original") else error], rendered as
    [f"{error.__class__.__name__}: {error}"]. *)
Definition unwrapped_repr (error : Error) : string :=
  match error with
  | CommandInvocationError original =>
      name_original original +:+ ": " +:+ str_original original
  | _ => name_error error +:+ ": " +:+ str_error error
  end.

Definition unhandled_embed (ctx : Context) (error : Error) : Embed :=
  {| title := "❌ Unhandled exception";
     description :=
       "An error happened that should not have happened. Please [contact us](https://discord.gg/KNKr8FPmJa) with a screenshot of this message!"
       +:+ nl +:+ "**Error:** ```" +:+ unwrapped_repr error +:+ "```";
     color := error_color;
     footer := Some ("Guild: " +:+ pretty (guild_id ctx)) |}.

Definition exception_msg (error : Error) : string :=
  join nl (format_exception error).

(** Lines 110-123: what runs when no branch above returned. *)
Definition report_unhandled (ctx : Context) (error : Error) : M St unit :=
  logging_error ("Ignoring exception in command " +:+ command_name ctx +:+ ":") ;;
  logging_error (exception_msg error) ;;
  let embed := unhandled_embed ctx error in
  log_error_to_homeguild (exception_msg error) (Some ctx) None ;;
  respond embed EPHEMERAL.

(** [application_error_handler(ctx, error)].  Each [respond] below is a
    [return await ctx.respond(...)]; a branch that only builds its embed runs on
    into [report_unhandled]. *)
Definition application_error_handler (ctx : Context) (error : Error)
    : M St unit :=
  match error with
  | MissingRequiredPermission missing_perms =>
      respond (missing_permissions_embed missing_perms) EPHEMERAL
  | BotMissingRequiredPermission missing_perms =>
      respond (bot_missing_permissions_embed missing_perms) EPHEMERAL
  | OtherCheckFailure => report_unhandled ctx error
  | CommandIsOnCooldown retry_after =>
      respond (cooldown_embed retry_after) EPHEMERAL
  | CommandInvocationError AsyncioTimeoutError =>
      respond timed_out_embed EPHEMERAL
  | CommandInvocationError InternalServerError =>
      respond server_error_embed EPHEMERAL
  | CommandInvocationError ForbiddenError =>
      let embed := forbidden_embed error in
      report_unhandled ctx error
  | CommandInvocationError RoleHierarchyError =>
      respond role_hierarchy_embed EPHEMERAL
  | CommandInvocationError (OtherOriginal _) => report_unhandled ctx error
  | OtherLightbulbError _ => report_unhandled ctx error
  end.

(** ** The error taxonomy of the specification *)

Inductive Category :=
| MissingUserPermission
| MissingBotPermission
| CooldownActive
| InvocationTimeout
| Upstream5xx
| PermissionForbidden
| RoleHierarchyViolation
| Unhandled.

Definition category (error : Error) : Category :=
  match error with
  | MissingRequiredPermission _ => MissingUserPermission
  | BotMissingRequiredPermission _ => MissingBotPermission
  | OtherCheckFailure => Unhandled
  | CommandIsOnCooldown _ => CooldownActive
  | CommandInvocationError AsyncioTimeoutError => InvocationTimeout
  | CommandInvocationError InternalServerError => Upstream5xx
  | CommandInvocationError ForbiddenError => PermissionForbidden
  | CommandInvocationError RoleHierarchyError => RoleHierarchyViolation
  | CommandInvocationError (OtherOriginal _) => Unhandled
  | OtherLightbulbError _ => Unhandled
  end.

(** The message the code builds for each category. *)
Definition variant (ctx : Context) (error : Error) : Embed :=
  match error with
  | MissingRequiredPermission p => missing_permissions_embed p
  | BotMissingRequiredPermission p => bot_missing_permissions_embed p
  | CommandIsOnCooldown r => cooldown_embed r
  | CommandInvocationError AsyncioTimeoutError => timed_out_embed
  | CommandInvocationError InternalServerError => server_error_embed
  | CommandInvocationError ForbiddenError => forbidden_embed error
  | CommandInvocationError RoleHierarchyError => role_hierarchy_embed
  | _ => unhandled_embed ctx error
  end.

Definition is_send (e : Event) : bool :=
  match e with CreateMessage _ _ => true | _ => false end.
Definition is_respond (e : Event) : bool :=
  match e with Respond _ _ => true | _ => false end.

(** The operator channel is configured: the entry is there and holds neither
    [None], an empty string nor zero. *)
Definition channel_of (ctx : Context) : PyValue :=
  default PyNone (config ctx !! "error_logging_channel").

Definition configured (ctx : Context) : Prop :=
  ∃ v, config ctx !! "error_logging_channel" = Some v
       ∧ v ≠ PyNone ∧ v ≠ PyStr "" ∧ v ≠ PyInt 0.

(** What sending [pages] leaves in the trace when the first send is attempt
    number [n]: a failed attempt that [except Exception] catches is followed
    by its log line and the loop goes on; one it does not catch ends the
    loop. *)
Fixpoint delivery (channel_id : PyValue) (pages : list string) (n : nat) : list Event :=
  match pages with
  | [] => []
  | page :: pages' =>
      CreateMessage channel_id page ::
      match rest_outcome n with
      | None => delivery channel_id pages' (S n)
      | Some e =>
          if is_exception e
          then LoggingError ("Failed sending traceback to logging channel: "
                             +:+ exc_str e)
               :: delivery channel_id pages' (S n)
          else []
      end
  end.

(** The exception that ends the loop over [pages] early, if one does: the
    first that [except Exception] does not catch. *)
Fixpoint interrupted (pages : list string) (n : nat) : option Exception :=
  match pages with
  | [] => None
  | _ :: pages' =>
      match rest_outcome n with
      | None => interrupted pages' (S n)
      | Some e => if is_exception e then interrupted pages' (S n) else Some e
      end
  end.

(** How many sends the loop over [pages] attempts. *)
Fixpoint attempts (pages : list string) (n : nat) : nat :=
  match pages with
  | [] => 0%nat
  | _ :: pages' =>
      S (match rest_outcome n with
         | None => attempts pages' (S n)
         | Some e => if is_exception e then attempts pages' (S n) else 0%nat
         end)
  end.

(** Every send of [pages], the first being attempt [n], goes through or
    raises something that derives from [Exception]. *)
Definition sends_caught (pages : list string) (n : nat) : Prop :=
  ∀ i e, (i < length pages)%nat → rest_outcome (n + i) = Some e →
         is_exception e = true.

Definition outcome_of (failure : option Exception) : Res unit :=
  match failure with
  | None => Ret tt
  | Some e => Exc e
  end.

Definition traceback_pages (ctx : Context) (guild : Guild) (error : Error)
    : list string :=
  build_pages (paginator_lines (context_header ctx guild) (exception_msg error)).

(** The two lines the unhandled path writes to the log first. *)
Definition announced (ctx : Context) (error : Error) : list Event :=
  [LoggingError ("Ignoring exception in command " +:+ command_name ctx +:+ ":");
   LoggingError (exception_msg error)].

(** The events a run added to the trace. *)
Definition events_since (s s' : St) : list Event :=
  drop (length (log s)) (log s').

(** ** Properties *)

Lemma truthy_configured (ctx : Context) :
  truthy (channel_of ctx) = true ↔ configured ctx.
Proof.
  unfold channel_of, configured.
  destruct (config ctx !! "error_logging_channel") as [v|] eqn:E; simpl.
  - split.
    + intros H. exists v. split; [reflexivity |].
      destruct v as [|z|str]; simpl in H; try discriminate.
      * repeat split; try discriminate.
        intros [= ->]. discriminate.
      * repeat split; try discriminate.
        intros [= ->]. discriminate.
    + intros (w & [= <-] & Hn & Hs & Hz).
      destruct v as [|z|str]; simpl; [congruence | |].
      * destruct (Z.eqb_spec z 0) as [->|]; [congruence | reflexivity].
      * destruct (String.eqb_spec str "") as [->|]; [congruence | reflexivity].
  - split; [discriminate |]. intros (w & Hw & _). discriminate.
Qed.

Lemma send_pages_trace (channel_id : PyValue) (pages : list string) :
  ∀ l n,
    for_each pages (send_page channel_id) {| log := l; sent := n |}
    = (outcome_of (interrupted pages n),
       {| log := l ++ delivery channel_id pages n;
          sent := (n + attempts pages n)%nat |}).
Proof.
  induction pages as [|page pages IH]; intros l n; simpl.
  - unfold ret. rewrite app_nil_r, Nat.add_0_r. reflexivity.
  - unfold bind, send_page at 1, try_except, create_message; simpl.
    destruct (rest_outcome n) as [e|]; simpl.
    + destruct (is_exception e); simpl.
      * unfold logging_error, emit, modify; simpl. rewrite IH.
        rewrite <- !app_assoc. simpl. do 3 f_equal. lia.
      * do 3 f_equal. lia.
    + rewrite IH. rewrite <- !app_assoc. simpl. do 3 f_equal. lia.
Qed.

Lemma sends_caught_tail (page : string) (pages : list string) (n : nat) :
  sends_caught (page :: pages) n → sends_caught pages (S n).
Proof.
  intros H i e Hi He. apply (H (S i) e); [simpl; lia |].
  replace (n + S i)%nat with (S n + i)%nat by lia. exact He.
Qed.

Lemma sends_caught_head (page : string) (pages : list string) (n : nat) :
  sends_caught (page :: pages) n →
  ∀ e, rest_outcome n = Some e → is_exception e = true.
Proof.
  intros H e He. apply (H 0%nat e); [simpl; lia |].
  rewrite Nat.add_0_r. exact He.
Qed.

Lemma sends_caught_interrupted (pages : list string) :
  ∀ n, sends_caught pages n ↔ interrupted pages n = None.
Proof.
  induction pages as [|page pages IH]; intros n.
  - split; [reflexivity |]. intros _ i e Hi. simpl in Hi. lia.
  - cbn [interrupted]. split.
    + intros H. pose proof (sends_caught_head _ _ _ H) as Hh.
      apply sends_caught_tail, IH in H.
      destruct (rest_outcome n) as [e|]; [| exact H].
      rewrite (Hh e eq_refl). exact H.
    + intros H i e Hi He. destruct i as [|i].
      * rewrite Nat.add_0_r in He. rewrite He in H.
        destruct (is_exception e); [reflexivity | discriminate H].
      * assert (Ht : interrupted pages (S n) = None).
        { destruct (rest_outcome n) as [e'|]; [| exact H].
          destruct (is_exception e'); [exact H | discriminate H]. }
        apply IH in Ht. apply (Ht i e); [simpl in Hi; lia |].
        replace (S n + i)%nat with (n + S i)%nat by lia. exact He.
Qed.

Lemma interrupted_Some (pages : list string) :
  ∀ n e, interrupted pages n = Some e →
    is_exception e = false
    ∧ ∃ i, (i < length pages)%nat ∧ rest_outcome (n + i) = Some e.
Proof.
  induction pages as [|page pages IH]; intros n e H; [discriminate H |].
  cbn [interrupted] in H.
  assert (Htail : interrupted pages (S n) = Some e →
                  is_exception e = false
                  ∧ ∃ i, (i < length (page :: pages))%nat
                         ∧ rest_outcome (n + i) = Some e).
  { intros Ht. destruct (IH _ _ Ht) as (He & i & Hi & Hr).
    split; [exact He |]. exists (S i). split; [simpl; lia |].
    replace (n + S i)%nat with (S n + i)%nat by lia. exact Hr. }
  destruct (rest_outcome n) as [e'|] eqn:Hn; [| auto].
  destruct (is_exception e') eqn:He'; [auto |].
  injection H as <-. split; [exact He' |].
  exists 0%nat. split; [simpl; lia |]. rewrite Nat.add_0_r. exact Hn.
Qed.

Lemma sends_caught_attempts (pages : list string) :
  ∀ n, sends_caught pages n → attempts pages n = length pages.
Proof.
  induction pages as [|page pages IH]; intros n H; [reflexivity |].
  cbn [attempts length]. f_equal.
  pose proof (sends_caught_head _ _ _ H) as Hh.
  apply sends_caught_tail, IH in H.
  destruct (rest_outcome n) as [e|]; [| exact H].
  rewrite (Hh e eq_refl). exact H.
Qed.

Lemma delivery_sends (channel_id : PyValue) (pages : list string) :
  ∀ n, sends_caught pages n →
    filter (λ e, is_send e = true) (delivery channel_id pages n)
    = CreateMessage channel_id <$> pages.
Proof.
  induction pages as [|page pages IH]; intros n H; [reflexivity |].
  cbn [delivery]. rewrite filter_cons_True by reflexivity.
  rewrite fmap_cons. f_equal.
  pose proof (sends_caught_head _ _ _ H) as Hh.
  apply sends_caught_tail, IH in H.
  destruct (rest_outcome n) as [e|]; [| exact H].
  rewrite (Hh e eq_refl).
  rewrite filter_cons_False by (cbn; discriminate). exact H.
Qed.


Lemma delivery_logs_failure (channel_id : PyValue) (pages : list string) :
  ∀ n i page e,
    pages !! i = Some page →
    rest_outcome (n + i) = Some e →
    sends_caught (take (S i) pages) n →
    ∃ before after,
      delivery channel_id pages n
      = before ++ [CreateMessage channel_id page;
                   LoggingError ("Failed sending traceback to logging channel: "
                                 +:+ exc_str e)] ++ after.
Proof.
  induction pages as [|p pages IH]; intros n i page e Hi He Hc; [discriminate Hi |].
  destruct i as [|i]; cbn [delivery].
  - injection Hi as ->. rewrite Nat.add_0_r in He. rewrite He.
    rewrite (sends_caught_head _ _ _ Hc _ He).
    exists [], (delivery channel_id pages (S n)). reflexivity.
  - replace (n + S i)%nat with (S n + i)%nat in He by lia.
    cbn [take] in Hc. pose proof (sends_caught_head _ _ _ Hc) as Hh.
    apply sends_caught_tail in Hc.
    destruct (IH (S n) i page e Hi He Hc) as (before & after & ->).
    destruct (rest_outcome n) as [e'|].
    + rewrite (Hh e' eq_refl).
      eexists (CreateMessage channel_id p :: _ :: before), after. reflexivity.
    + exists (CreateMessage channel_id p :: before), after. reflexivity.
Qed.

Lemma delivery_not_respond (channel_id : PyValue) (pages : list string) :
  ∀ n ev, ev ∈ delivery channel_id pages n → is_respond ev = false.
Proof.
  induction pages as [|page pages IH]; intros n ev Hin; cbn [delivery] in Hin.
  - apply elem_of_nil in Hin. contradiction.
  - apply elem_of_cons in Hin as [->|Hin]; [reflexivity |].
    destruct (rest_outcome n) as [e|]; [| eauto].
    destruct (is_exception e).
    + apply elem_of_cons in Hin as [->|Hin]; [reflexivity | eauto].
    + apply elem_of_nil in Hin. contradiction.
Qed.

Lemma delivery_responds (channel_id : PyValue) (pages : list string) (n : nat) :
  filter (λ e, is_respond e = true) (delivery channel_id pages n) = [].
Proof.
  apply elem_of_nil_inv. intros ev Hin.
  apply list_elem_of_filter in Hin as [Hr Hin].
  apply delivery_not_respond in Hin. congruence.
Qed.

Lemma log_error_to_homeguild_trace (error_str : string) (ctx : Context)
    (guild : Guild) (s : St) :
  get_guild ctx = Some guild →
  let pages := build_pages (paginator_lines (context_header ctx guild) error_str) in
  log_error_to_homeguild error_str (Some ctx) None s
  = if truthy (channel_of ctx)
    then (outcome_of (interrupted pages (sent s)),
          {| log := log s ++ delivery (channel_of ctx) pages (sent s);
             sent := (sent s + attempts pages (sent s))%nat |})
    else (Ret tt, s).
Proof.
  intros Hg pages. unfold log_error_to_homeguild, bind, lift, header_line.
  rewrite Hg. fold (channel_of ctx).
  destruct (truthy (channel_of ctx)); simpl; [| reflexivity].
  destruct s as [l n]. apply send_pages_trace.
Qed.

(** Without a cached guild the header cannot be built: the routine raises
    before it reads the configuration. *)
Lemma log_error_to_homeguild_uncached (error_str : string) (ctx : Context) (s : St) :
  get_guild ctx = None →
  log_error_to_homeguild error_str (Some ctx) None s = (Exc guild_missing, s).
Proof.
  intros Hg. unfold log_error_to_homeguild, bind, lift, header_line.
  rewrite Hg. reflexivity.
Qed.

(** What the sends of the unhandled path leave in the trace, and what ends
    them early, for a context whose guild is cached. *)
Definition forwarding (ctx : Context) (guild : Guild) (error : Error) (s : St)
    : list Event :=
  if truthy (channel_of ctx)
  then delivery (channel_of ctx) (traceback_pages ctx guild error) (sent s)
  else [].

Definition forwarding_failure (ctx : Context) (guild : Guild) (error : Error)
    (s : St) : option Exception :=
  if truthy (channel_of ctx)
  then interrupted (traceback_pages ctx guild error) (sent s)
  else None.

Lemma report_unhandled_events (ctx : Context) (guild : Guild) (error : Error)
    (s : St) :
  get_guild ctx = Some guild →
  let r := report_unhandled ctx error s in
  r.1 = outcome_of (forwarding_failure ctx guild error s)
  ∧ log r.2
    = log s ++ announced ctx error ++ forwarding ctx guild error s
      ++ match forwarding_failure ctx guild error s with
         | None => [Respond (unhandled_embed ctx error) EPHEMERAL]
         | Some _ => []
         end.
Proof.
  intros Hg. cbv zeta. unfold report_unhandled.
  erewrite bind_eq by reflexivity.
  erewrite bind_eq by reflexivity.
  unfold bind. rewrite (log_error_to_homeguild_trace _ _ guild _ Hg).
  unfold forwarding, forwarding_failure, traceback_pages, announced.
  cbn [sent log].
  destruct (truthy (channel_of ctx)).
  - destruct (interrupted _ _); cbn [outcome_of fst snd log];
      unfold respond, emit, modify; cbn [fst snd log];
      rewrite <- ?app_assoc, ?app_nil_r; split; reflexivity.
  - unfold respond, emit, modify; cbn [outcome_of fst snd log].
    rewrite <- !app_assoc. split; reflexivity.
Qed.

Lemma report_unhandled_uncached (ctx : Context) (error : Error) (s : St) :
  get_guild ctx = None →
  report_unhandled ctx error s
  = (Exc guild_missing,
     {| log := log s ++ announced ctx error; sent := sent s |}).
Proof.
  intros Hg. unfold report_unhandled.
  erewrite bind_eq by reflexivity.
  erewrite bind_eq by reflexivity.
  unfold bind. rewrite (log_error_to_homeguild_uncached _ _ _ Hg).
  unfold announced. cbn [log sent]. rewrite <- app_assoc. reflexivity.
Qed.

Lemma events_since_app (s s' : St) (events : list Event) :
  log s' = log s ++ events → events_since s s' = events.
Proof. intros H. unfold events_since. rewrite H. apply drop_app_length. Qed.



(** With the guild cached and every send caught, the handler returns. *)
Lemma handler_returns (ctx : Context) (guild : Guild) (error : Error) (s : St) :
  get_guild ctx = Some guild →
  (configured ctx → sends_caught (traceback_pages ctx guild error) (sent s)) →
  (application_error_handler ctx error s).1 = Ret tt.
Proof.
  intros Hg Hc.
  assert (Hrep : (report_unhandled ctx error s).1 = Ret tt).
  { destruct (report_unhandled_events ctx guild error s Hg) as [-> _].
    unfold forwarding_failure.
    destruct (truthy (channel_of ctx)) eqn:Ht; [| reflexivity].
    apply truthy_configured, Hc, sends_caught_interrupted in Ht.
    rewrite Ht. reflexivity. }
  destruct error as [p|p| |r|[| | | |c]|c]; simpl; solve [reflexivity | exact Hrep].
Qed.

Lemma forwarding_not_respond (ctx : Context) (guild : Guild) (error : Error)
    (s : St) (ev : Event) :
  ev ∈ forwarding ctx guild error s → is_respond ev = false.
Proof.
  unfold forwarding. destruct (truthy (channel_of ctx)).
  - apply delivery_not_respond.
  - intros H. apply elem_of_nil in H. contradiction.
Qed.

Lemma forwarding_responds (ctx : Context) (guild : Guild) (error : Error) (s : St) :
  filter (λ e, is_respond e = true) (forwarding ctx guild error s) = [].
Proof.
  apply elem_of_nil_inv. intros ev Hin.
  apply list_elem_of_filter in Hin as [Hr Hin].
  apply forwarding_not_respond in Hin. congruence.
Qed.

Lemma forwarding_sends (ctx : Context) (guild : Guild) (error : Error) (s : St) :
  (configured ctx → sends_caught (traceback_pages ctx guild error) (sent s)) →
  filter (λ e, is_send e = true) (forwarding ctx guild error s)
  = (if truthy (channel_of ctx)
     then CreateMessage (channel_of ctx) <$> traceback_pages ctx guild error
     else []).
Proof.
  intros Hc. unfold forwarding.
  destruct (truthy (channel_of ctx)) eqn:Ht; [| reflexivity].
  apply delivery_sends, Hc, truthy_configured, Ht.
Qed.

(** When the unhandled path returns, it has answered once, with the generic
    apology, as the last thing it did. *)
Lemma report_unhandled_returns (ctx : Context) (error : Error) (s : St) :
  let r := report_unhandled ctx error s in
  r.1 = Ret tt →
  filter (λ e, is_respond e = true) (events_since s r.2)
  = [Respond (unhandled_embed ctx error) EPHEMERAL]
  ∧ last (log r.2) = Some (Respond (unhandled_embed ctx error) EPHEMERAL).
Proof.
  cbv zeta. destruct (get_guild ctx) as [guild|] eqn:Hg.
  - destruct (report_unhandled_events ctx guild error s Hg) as [-> Hlog].
    rewrite (events_since_app _ _ _ Hlog), Hlog.
    destruct (forwarding_failure ctx guild error s); [discriminate |].
    intros _. rewrite !app_assoc, last_snoc. split; [| reflexivity].
    rewrite <- !app_assoc, !filter_app, forwarding_responds. reflexivity.
  - rewrite (report_unhandled_uncached _ _ _ Hg). discriminate.
Qed.

(** When it does not return it has answered nothing, and either the guild was
    not cached or a send raised past [except Exception]. *)
Lemma report_unhandled_raises (ctx : Context) (error : Error) (s : St) :
  let r := report_unhandled ctx error s in
  r.1 ≠ Ret tt →
  filter (λ e, is_respond e = true) (events_since s r.2) = []
  ∧ (get_guild ctx = None ∧ r.1 = Exc guild_missing
     ∨ ∃ guild e,
         get_guild ctx = Some guild ∧ configured ctx
         ∧ interrupted (traceback_pages ctx guild error) (sent s) = Some e
         ∧ is_exception e = false ∧ r.1 = Exc e).
Proof.
  cbv zeta. destruct (get_guild ctx) as [guild|] eqn:Hg.
  - destruct (report_unhandled_events ctx guild error s Hg) as [-> Hlog].
    rewrite (events_since_app _ _ _ Hlog).
    destruct (forwarding_failure ctx guild error s) as [e|] eqn:Hf;
      [| intros H; contradiction H; reflexivity].
    intros _. split.
    + rewrite !filter_app, forwarding_responds. reflexivity.
    + right. exists guild, e. unfold forwarding_failure in Hf.
      destruct (truthy (channel_of ctx)) eqn:Ht; [| discriminate Hf].
      apply truthy_configured in Ht.
      destruct (interrupted_Some _ _ _ Hf) as [He _]. auto.
  - rewrite (report_unhandled_uncached _ _ _ Hg). intros _.
    unfold events_since. cbn [snd log]. rewrite drop_app_length.
    split; [reflexivity |]. left. split; reflexivity.
Qed.

(** In every run of the unhandled path the only response there can be is the
    generic apology. *)
Lemma report_unhandled_only_response (ctx : Context) (error : Error) (s : St)
    (ev : Event) :
  ev ∈ events_since s (report_unhandled ctx error s).2 →
  is_respond ev = true →
  ev = Respond (unhandled_embed ctx error) EPHEMERAL.
Proof.
  intros Hin Hr.
  assert (Hf : ev ∈ filter (λ e, is_respond e = true)
                 (events_since s (report_unhandled ctx error s).2))
    by (apply list_elem_of_filter; auto).
  assert (Hcases : (report_unhandled ctx error s).1 = Ret tt
                   ∨ (report_unhandled ctx error s).1 ≠ Ret tt).
  { destruct (report_unhandled ctx error s).1 as [[]|e| |];
      [left; reflexivity | right; discriminate ..]. }
  destruct Hcases as [Hret|Hexc].
  - destruct (report_unhandled_returns ctx error s Hret) as [Hone _].
    rewrite Hone in Hf. apply list_elem_of_singleton in Hf. exact Hf.
  - destruct (report_unhandled_raises ctx error s Hexc) as [Hnone _].
    rewrite Hnone in Hf. apply elem_of_nil in Hf. contradiction.
Qed.

(** C1 (the code departs from the claim).  A wrapped invocation error whose
    cause is [hikari.ForbiddenError] belongs to the permission-forbidden
    category, yet the handler builds that category's embed without returning:
    it runs the unhandled path.  So the forbidden message is never sent and
    the only response there can be is the generic "Unhandled exception"
    apology; with the guild cached and every send caught the handler returns
    having sent that apology once and forwarded the traceback to the operator
    channel whenever one is set; with the guild not cached it raises
    [AttributeError] and the user gets no response at all. *)
Theorem forbidden_reported_as_unhandled (ctx : Context) (s : St) :
  let error := CommandInvocationError ForbiddenError in
  let r := application_error_handler ctx error s in
  category error = PermissionForbidden
  ∧ r = report_unhandled ctx error s
  ∧ ¬ (Respond (variant ctx error) EPHEMERAL ∈ events_since s r.2)
  ∧ (∀ ev, ev ∈ events_since s r.2 → is_respond ev = true →
       ev = Respond (unhandled_embed ctx error) EPHEMERAL)
  ∧ (∀ guild,
       get_guild ctx = Some guild →
       (configured ctx → sends_caught (traceback_pages ctx guild error) (sent s)) →
       r.1 = Ret tt
       ∧ filter (λ e, is_respond e = true) (events_since s r.2)
         = [Respond (unhandled_embed ctx error) EPHEMERAL]
       ∧ filter (λ e, is_send e = true) (events_since s r.2)
         = (if truthy (channel_of ctx)
            then CreateMessage (channel_of ctx) <$> traceback_pages ctx guild error
            else []))
  ∧ (get_guild ctx = None →
       r.1 = Exc guild_missing
       ∧ filter (λ e, is_respond e = true) (events_since s r.2) = []
       ∧ filter (λ e, is_send e = true) (events_since s r.2) = []).
Proof.
  intros error r. subst r. cbn [application_error_handler error].
  split; [reflexivity |]. split; [reflexivity |].
  split; [| split; [| split]].
  - intros Hin.
    apply report_unhandled_only_response in Hin; [discriminate Hin | reflexivity].
  - apply report_unhandled_only_response.
  - intros guild Hg Hc.
    pose proof (handler_returns ctx guild error s Hg Hc) as Hret.
    cbn [application_error_handler error] in Hret.
    split; [exact Hret |].
    split; [apply (report_unhandled_returns ctx error s Hret) |].
    destruct (report_unhandled_events ctx guild error s Hg) as [Hout Hlog].
    rewrite (events_since_app _ _ _ Hlog).
    rewrite Hret in Hout.
    destruct (forwarding_failure ctx guild error s); [discriminate Hout |].
    rewrite !filter_app, (forwarding_sends _ _ _ _ Hc). cbn. apply app_nil_r.
  - intros Hg. rewrite (report_unhandled_uncached _ _ _ Hg).
    unfold events_since. cbn [snd log]. rewrite drop_app_length.
    repeat split.
Qed.


(** C8 (for what [except Exception] catches).  With the guild cached and the
    channel configured: a send that raises an [Exception], the sends before it
    having been caught as well, is followed in the trace by the "Failed
    sending traceback" log line carrying that exception; when every send goes
    through or raises an [Exception], the logging routine and the error
    handler return normally and every page was attempted; and the first
    exception that does not derive from [Exception] is raised by the logging
    routine to its caller. *)
Theorem send_failures_caught_and_logged (ctx : Context) (guild : Guild)
    (error_str : string) (s : St) :
  get_guild ctx = Some guild →
  configured ctx →
  let r := log_error_to_homeguild error_str (Some ctx) None s in
  let pages := build_pages (paginator_lines (context_header ctx guild) error_str) in
  (∀ i page e,
      pages !! i = Some page →
      rest_outcome (sent s + i) = Some e →
      sends_caught (take (S i) pages) (sent s) →
      ∃ before after,
        events_since s r.2
        = before
          ++ [CreateMessage (channel_of ctx) page;
              LoggingError ("Failed sending traceback to logging channel: "
                            +:+ exc_str e)]
          ++ after)
  ∧ (sends_caught pages (sent s) →
     r.1 = Ret tt
     ∧ filter (λ e, is_send e = true) (events_since s r.2)
       = CreateMessage (channel_of ctx) <$> pages
     ∧ ∀ error, exception_msg error = error_str →
         (application_error_handler ctx error s).1 = Ret tt)
  ∧ (∀ e, interrupted pages (sent s) = Some e →
       is_exception e = false ∧ r.1 = Exc e).
Proof.
  intros Hg Hc r pages. subst r.
  rewrite (log_error_to_homeguild_trace _ _ guild _ Hg). cbv zeta.
  fold pages. pose proof Hc as Ht. apply truthy_configured in Ht. rewrite Ht.
  cbn [fst snd].
  unfold events_since. cbn [snd log]. rewrite drop_app_length.
  split; [| split].
  - intros i page e Hi He Hcaught. eapply delivery_logs_failure; eauto.
  - intros Hcaught. split; [| split].
    + apply sends_caught_interrupted in Hcaught. rewrite Hcaught. reflexivity.
    + apply delivery_sends, Hcaught.
    + intros error <-. apply (handler_returns ctx guild error s Hg).
      intros _. exact Hcaught.
  - intros e He. rewrite He. split; [| reflexivity].
    apply (interrupted_Some _ _ _ He).
Qed.

(** ** The handler's answers, and the prefix-command listener *)






End Handler.
End ErrorHandler.

(** ** A concrete runtime, for evaluating the handler *)

Module ErrorHandlerDemo.
Import Py ErrorHandler.

(** One page per line, fenced the way the paginator's prefix and suffix say. *)
Definition demo_pages (lines : list string) : list string :=
  (λ line, "```py" +:+ nl +:+ line +:+ "```") <$> lines.

(** The first send is refused by the platform, later ones go through. *)
Definition first_send_fails (attempt : nat) : option Exception :=
  match attempt with
  | O => Some (SendError "503 Service Unavailable")
  | S _ => None
  end.

Definition demo_runtime : Runtime :=
  {| float := Z; round := id; timedelta_str := pretty; get_perm_str := pretty;
     build_pages := demo_pages; rest_outcome := first_send_fails;
     format_exception := λ _, ["Traceback (most recent call last):";
                               "RuntimeError: boom"];
     str_error := λ _, "Missing Permissions";
     name_error := λ _, "CommandInvocationError";
     str_original := λ _, "Forbidden 403";
     name_original := λ _, "ForbiddenError" |}.

(** The same runtime, with the handler's task cancelled while it awaits a
    send. *)
Definition cancelled_runtime : Runtime :=
  {| float := Z; round := id; timedelta_str := pretty; get_perm_str := pretty;
     build_pages := demo_pages; rest_outcome := λ _, Some CancelledError;
     format_exception := λ _, ["Traceback (most recent call last):";
                               "RuntimeError: boom"];
     str_error := λ _, "Missing Permissions";
     name_error := λ _, "CommandInvocationError";
     str_original := λ _, "Forbidden 403";
     name_original := λ _, "ForbiddenError" |}.

Definition sned_hq : Guild := {| guild_name := "Sned HQ" |}.

Definition demo_ctx (config : gmap string PyValue) : Context :=
  {| get_guild := Some sned_hq; guild_id := 1; command_name := "ban";
     author := "hyper#0001"; author_id := 7; config := config |}.

(** The same invocation when the guild is not in the cache. *)
Definition uncached_ctx (config : gmap string PyValue) : Context :=
  {| get_guild := None; guild_id := 1; command_name := "ban";
     author := "hyper#0001"; author_id := 7; config := config |}.

Definition with_channel : gmap string PyValue :=
  {[ "error_logging_channel"%string := PyInt 42 ]}.

Definition start : St := {| log := []; sent := 0 |}.

Definition handle (config : gmap string PyValue) (error : LightbulbError Z)
    : Res unit * St :=
  application_error_handler (runtime := demo_runtime) (demo_ctx config) error start.

Definition not_found : LightbulbError Z := OtherLightbulbError "CommandNotFound".

Lemma with_channel_configured : configured (demo_ctx with_channel).
Proof.
  exists (PyInt 42). split; [reflexivity |].
  repeat split; discriminate.
Qed.


Lemma demo_sends_caught (pages : list string) (n : nat) :
  sends_caught (runtime := demo_runtime) pages n.
Proof.
  intros i e _ He. cbn in He. destruct (n + i)%nat; [| discriminate He].
  injection He as <-. reflexivity.
Qed.

(** The forbidden cause on the concrete runtime: three pages go to channel 42,
    and the one response is the generic apology. *)
Example forbidden_demo :
  let r := handle with_channel (CommandInvocationError ForbiddenError) in
  r.1 = Ret tt
  ∧ length (filter (λ e, is_send e = true) (log r.2)) = 3%nat
  ∧ last (log r.2)
    = Some (Respond (unhandled_embed (runtime := demo_runtime)
                       (demo_ctx with_channel)
                       (CommandInvocationError ForbiddenError)) EPHEMERAL).
Proof. vm_compute. repeat split. Qed.

(** The same error when the guild is not cached: the handler raises, and the
    user is told nothing. *)
Example forbidden_uncached_demo :
  let r := application_error_handler (runtime := demo_runtime)
             (uncached_ctx with_channel)
             (CommandInvocationError ForbiddenError) start in
  r.1 = Exc guild_missing
  ∧ filter (λ e, is_respond e = true) (log r.2) = []
  ∧ filter (λ e, is_send e = true) (log r.2) = [].
Proof. vm_compute. repeat split. Qed.



(** The first page is refused by the platform: the refusal is logged, and the
    handler returns. *)
Lemma send_failures_caught_and_logged_witness :
  (handle with_channel not_found).1 = Ret tt
  ∧ ∃ before after,
      events_since start
        (log_error_to_homeguild (runtime := demo_runtime)
           (exception_msg (runtime := demo_runtime) not_found)
           (Some (demo_ctx with_channel)) None start).2
      = before
        ++ [CreateMessage (PyInt 42)
              ("```py" +:+ nl
               +:+ context_header (demo_ctx with_channel) sned_hq +:+ "```");
            LoggingError
              "Failed sending traceback to logging channel: 503 Service Unavailable"]
        ++ after.
Proof.
  pose proof (send_failures_caught_and_logged (runtime := demo_runtime)
                (demo_ctx with_channel) sned_hq
                (exception_msg (runtime := demo_runtime) not_found) start
                eq_refl with_channel_configured)
    as (Hlogged & Hall & _).
  split.
  - apply (Hall (demo_sends_caught _ _)). reflexivity.
  - apply (Hlogged 0%nat _ _ eq_refl eq_refl). apply demo_sends_caught.
Defined.

(** C8, as stated: the task is cancelled during the first send; nothing is
    logged, and [CancelledError], which does not derive from [Exception],
    reaches the caller of the handler. *)
Lemma cancelled_send_propagates :
  rest_outcome (Runtime := cancelled_runtime) 0 = Some CancelledError
  ∧ log_error_to_homeguild (runtime := cancelled_runtime)
      (exception_msg (runtime := cancelled_runtime) not_found)
      (Some (demo_ctx with_channel)) None start
    = (Exc CancelledError,
       {| log := [CreateMessage (PyInt 42)
                    ("```py" +:+ nl
                     +:+ context_header (demo_ctx with_channel) sned_hq
                     +:+ "```")];
          sent := 1 |})
  ∧ (application_error_handler (runtime := cancelled_runtime)
       (demo_ctx with_channel) not_found start).1
    = Exc CancelledError.
Proof. vm_compute. repeat split. Qed.

End ErrorHandlerDemo.

(* ===================================================================== *)
(** * extensions/settings.py *)
(* ===================================================================== *)

Module Settings.
Import Py.

(** [get_key(dictionary, value)]:
    [list(dictionary.keys())[list(dictionary.values()).index(value)]];
    [index] raises [ValueError] when the value is absent. *)
Definition get_key {K V} `{EqDecision V} (dictionary : list (K * V)) (value : V)
    : Res K :=
  match index value (dictionary.*2) with
  | None => Exc ValueError
  | Some i =>
      match dictionary.*1 !! i with
      | Some k => Ret k
      | None => Exc IndexError
      end
  end.

(** ** Controls, views and what the user does with them *)

Inductive ButtonStyle := PRIMARY | SECONDARY | SUCCESS | DANGER.
Inductive Color := embed_blue | error_color.

Inductive OptValue := OStr (s : string) | OInt (z : Z).

Record SelectOption := {
  opt_label : string;
  opt_value : OptValue;
  opt_description : option string;
}.

Inductive Item :=
| OptionButton (style : ButtonStyle) (label : string) (emoji : option string)
    (disabled : bool)
| BooleanButton (style : ButtonStyle) (label : string) (emoji : string)
    (disabled : bool) (state : bool)
| OptionsSelect (options : list SelectOption) (placeholder : string).

(** [BooleanButton.__init__]: style and emoji follow the state. *)
Definition boolean_button (state : bool) (label : string) (disabled : bool) : Item :=
  BooleanButton (if state then SUCCESS else DANGER) label
    (if state then "✔️" else "✖️") disabled state.

(** [OptionButton(label=...)] with miru's default style. *)
Definition option_button (label : string) (disabled : bool) : Item :=
  OptionButton PRIMARY label None disabled.

Definition BackButton : Item := OptionButton PRIMARY "Back" (Some "⬅️") false.
Definition QuitButton : Item := OptionButton DANGER "Quit" (Some "⬅️") false.

(** [ButtonMenuView(ctx, buttons, is_nested)] *)
Definition ButtonMenuView (buttons : list Item) (is_nested : bool) : list Item :=
  (if is_nested then BackButton else QuitButton) :: buttons.

(** [SelectMenuView(ctx, options, placeholder, is_nested)] *)
Definition SelectMenuView (options : list SelectOption) (placeholder : string)
    (is_nested : bool) : list Item :=
  [OptionsSelect options placeholder;
   if is_nested then BackButton else QuitButton].

(** [view.value] *)
Inductive Value :=
| VNone
| VStr (s : string)
| VInt (z : Z)
| VTuple (label : string) (state : bool).

Global Instance Value_eq_dec : EqDecision Value.
Proof. solve_decision. Defined.

Definition value_of (v : OptValue) : Value :=
  match v with OStr s => VStr s | OInt z => VInt z end.

(** What happens while a coroutine awaits the user. *)
Inductive Interaction :=
| Press (i : nat)
| Choose (i j : nat)
| Reply (text : string)
| Idle.

(** The callbacks of the three controls and [on_timeout]: the value a view
    holds when [view.wait()] returns.  An interaction that addresses no enabled
    control of the view leaves it waiting until it times out. *)
Definition view_value (items : list Item) (i : Interaction) : Value :=
  match i with
  | Press n =>
      match items !! n with
      | Some (OptionButton _ label _ false) => VStr label
      | Some (BooleanButton _ label _ false state) => VTuple label (negb state)
      | _ => VStr "Timeout"
      end
  | Choose n j =>
      match items !! n with
      | Some (OptionsSelect options _) =>
          match options !! j with
          | Some o => value_of (opt_value o)
          | None => VStr "Timeout"
          end
      | _ => VStr "Timeout"
      end
  | Reply _ | Idle => VStr "Timeout"
  end.

Record Field := { name : string; value : string; inline : bool }.

Record Embed := {
  title : string;
  description : string;
  color : Color;
  fields : list Field;
}.

(** ** Storage *)

Inductive Cell :=
| CNull
| CBool (b : bool)
| CInt (z : Z)
| CInts (l : list Z).

(** The two shapes of statement the menus execute, on a table keyed by
    [guild_id]:
    [INSERT INTO t (c, guild_id) VALUES ($1, $2) ON CONFLICT (guild_id) DO UPDATE SET c = $1]
    and [UPDATE t SET c = $1 WHERE guild_id = $2]. *)
Inductive Sql :=
| Upsert (table column : string) (v : Cell) (guild : Z)
| Update (table column : string) (v : Cell) (guild : Z).

Definition execute_sql (q : Sql) (db : gmap (string * Z) (gmap string Cell))
    : gmap (string * Z) (gmap string Cell) :=
  match q with
  | Upsert t c v g => <[(t, g) := <[c := v]> (default ∅ (db !! (t, g)))]> db
  | Update t c v g =>
      match db !! (t, g) with
      | Some row => <[(t, g) := <[c := v]> row]> db
      | None => db
      end
  end.

Definition cell (row : gmap string Cell) (column : string) : Cell :=
  default CNull (row !! column).

Definition cell_truthy (c : Cell) : bool :=
  match c with
  | CNull => false
  | CBool b => b
  | CInt z => negb (z =? 0)
  | CInts l => negb (bool_decide (l = []))
  end.

(** ** The guild, the static tables and the session *)

Record Channel := {
  channel_id : Z;
  channel_name : string;
  channel_textable : bool;
}.

Record Role := { role_id : Z; role_name : string }.

Global Instance Channel_eq_dec : EqDecision Channel.
Proof. solve_decision. Defined.
Global Instance Role_eq_dec : EqDecision Role.
Proof. solve_decision. Defined.

Definition channel_mention (c : Channel) : string := "<#" +:+ pretty (channel_id c) +:+ ">".
Definition role_mention (r : Role) : string := "<@&" +:+ pretty (role_id r) +:+ ">".

(** What the session reads and never writes: the guild as the gateway cache
    shows it, the tables of [etc.settings_static], the defaults of the
    Moderation and Logging plugins, the converters behind [helpers.ask], and
    whether miru's [View.start] puts up with a missing message. *)
Class World := {
  guild_id : Z;
  channels : list Channel;
  roles : list Role;
  bot_permissions : Z;
  mod_settings_strings : list (string * string);
  log_event_strings : list (string * string);
  default_mod_settings : list (string * bool);
  log_categories : list string;
  default_color : bool;
  convert_channel : string → option Channel;
  convert_role : string → option Role;
  start_tolerates_none : bool;
}.

Inductive Event :=
| Responded (message : nat) (embed : Embed) (components : list Item)
| Edited (message : nat) (embed : Embed) (components : list Item)
| Deleted (message : nat)
| Asked (message : option nat) (embed : Embed) (options : list SelectOption)
    (placeholder : string)
| Executed (q : Sql)
| Refreshed (table : string) (guild : Z)
| SetLogChannel (log_event : string) (guild : Z) (channel : option Z)
| Lookup (key : string).

(** Storage, its cache, [ctx.parent], the trace, the messages sent and
    deleted so far, and the interactions still to come. *)
Record Session := {
  db : gmap (string * Z) (gmap string Cell);
  db_cache : gmap (string * Z) (option (gmap string Cell));
  parent : option string;
  trace : list Event;
  next_message : nat;
  deleted : list nat;
  script : list Interaction;
}.

Definition set_db f (s : Session) : Session :=
  {| db := f (db s); db_cache := db_cache s; parent := parent s; trace := trace s;
     next_message := next_message s; deleted := deleted s; script := script s |}.
Definition set_db_cache f (s : Session) : Session :=
  {| db := db s; db_cache := f (db_cache s); parent := parent s; trace := trace s;
     next_message := next_message s; deleted := deleted s; script := script s |}.
Definition set_parent (p : option string) (s : Session) : Session :=
  {| db := db s; db_cache := db_cache s; parent := p; trace := trace s;
     next_message := next_message s; deleted := deleted s; script := script s |}.
Definition add_event (e : Event) (s : Session) : Session :=
  {| db := db s; db_cache := db_cache s; parent := parent s;
     trace := trace s ++ [e];
     next_message := next_message s; deleted := deleted s; script := script s |}.
Definition set_next_message (n : nat) (s : Session) : Session :=
  {| db := db s; db_cache := db_cache s; parent := parent s; trace := trace s;
     next_message := n; deleted := deleted s; script := script s |}.
Definition set_deleted (d : list nat) (s : Session) : Session :=
  {| db := db s; db_cache := db_cache s; parent := parent s; trace := trace s;
     next_message := next_message s; deleted := d; script := script s |}.
Definition set_script (i : list Interaction) (s : Session) : Session :=
  {| db := db s; db_cache := db_cache s; parent := parent s; trace := trace s;
     next_message := next_message s; deleted := deleted s; script := i |}.

Definition Handler : Type := option nat → M Session unit.

Definition Actions : Type := list (string * Handler).

Section Menus.
Context {world : World}.

(** ** Primitive steps *)

Definition emit (e : Event) : M Session unit := modify (add_event e).

Definition lift {A} (r : Res A) : M Session A := λ s, (r, s).

(** [d[k]] *)
Definition subscript {V} (d : list (string * V)) (k : string) : Res V :=
  match dict_get d k with
  | Some v => Ret v
  | None => Exc (KeyError k)
  end.

(** A comprehension whose element expression may raise. *)
Fixpoint traverse {A B} (f : A → Res B) (l : list A) : Res (list B) :=
  match l with
  | [] => Ret []
  | x :: l' =>
      match f x with
      | Ret y =>
          match traverse f l' with
          | Ret ys => Ret (y :: ys)
          | Exc e => Exc e
          | Suspended => Suspended
          | OutOfFuel => OutOfFuel
          end
      | Exc e => Exc e
      | Suspended => Suspended
      | OutOfFuel => OutOfFuel
      end
  end.

(** The next thing the user does; with the script over, the coroutine stays
    suspended. *)
Definition next_interaction : M Session Interaction :=
  λ s, match script s with
       | [] => (Suspended, s)
       | i :: rest => (Ret i, set_script rest s)
       end.

Definition gone (message : option nat) (s : Session) : bool :=
  match message with
  | Some m => bool_decide (m ∈ deleted s)
  | None => false
  end.

(** [helpers.maybe_edit]: [message.edit] on a deleted message raises
    [NotFoundError], which is swallowed; on [None] the attribute access raises
    [AttributeError], which is not.  Nothing is returned. *)
Definition maybe_edit (message : option nat) (embed : Embed)
    (components : list Item) : M Session unit :=
  match message with
  | None => raise (AttributeError "'NoneType' object has no attribute 'edit'")
  | Some m =>
      λ s, if bool_decide (m ∈ deleted s) then (Ret tt, s)
           else (Ret tt, add_event (Edited m embed components) s)
  end.

(** [helpers.maybe_delete] *)
Definition maybe_delete (message : option nat) : M Session unit :=
  match message with
  | None => raise (AttributeError "'NoneType' object has no attribute 'delete'")
  | Some m =>
      λ s, if bool_decide (m ∈ deleted s) then (Ret tt, s)
           else (Ret tt, set_deleted (m :: deleted s) (add_event (Deleted m) s))
  end.

(** [proxy = await ctx.respond(...); message = await proxy.message()] *)
Definition respond (embed : Embed) (components : list Item) : M Session nat :=
  λ s, let m := next_message s in
       (Ret m, set_next_message (S m) (add_event (Responded m embed components) s)).

(** [view.start(message)] *)
Definition view_start (message : option nat) : M Session unit :=
  match message with
  | Some _ => ret tt
  | None => if start_tolerates_none then ret tt else raise TypeError
  end.

(** [await view.wait()] followed by reading [view.value]: a view whose
    message is gone can only time out. *)
Definition view_wait (message : option nat) (items : list Item) : M Session Value :=
  let* i := next_interaction in
  λ s, (Ret (if gone message s then VStr "Timeout" else view_value items i), s).

(** [ctx.app.pool.execute(...)] *)
Definition pool_execute (q : Sql) : M Session unit :=
  emit (Executed q) ;; modify (set_db (execute_sql q)).

(** Modelled from the spec: [ctx.app.db_cache], which is not among the sources.
    [get] answers from the cache and reads storage on a miss; [refresh] is the
    "explicit cache-invalidation call scoped to the affected table+guild":
    the entry is reloaded from storage. *)
Definition cache_get (table : string) : M Session (option (gmap string Cell)) :=
  λ s, match db_cache s !! (table, guild_id) with
       | Some records => (Ret records, s)
       | None =>
           let records := db s !! (table, guild_id) in
           (Ret records, set_db_cache (<[(table, guild_id) := records]>) s)
       end.

(** Modelled from the spec: [ctx.app.db_cache.refresh], not among the sources;
    the entry of the table and guild is reloaded from storage. *)
Definition cache_refresh (table : string) : M Session unit :=
  emit (Refreshed table guild_id) ;;
  modify (λ s, set_db_cache (<[(table, guild_id) := db s !! (table, guild_id)]>) s).

(** Modelled from the spec: the Moderation plugin's [get_settings], which is
    not among the sources; "queries current config state for the guild": the
    row's flags, the plugin's defaults where there is none. *)
Definition mod_settings_view (records : option (gmap string Cell))
    : list (string * bool) :=
  (λ kd : string * bool,
     (kd.1, match records with
            | Some row =>
                match row !! kd.1 with
                | Some c => cell_truthy c
                | None => kd.2
                end
            | None => kd.2
            end)) <$> default_mod_settings.

(** Modelled from the spec: [get_settings] reads through the cache. *)
Definition get_settings : M Session (list (string * bool)) :=
  let* records := cache_get "mod_config" in
  ret (mod_settings_view records).

(** Modelled from the spec: the Logging plugin's [get_log_channel_ids_view],
    [is_color_enabled] and [set_log_channel], which are not among the sources. *)
Definition log_channels_view (records : option (gmap string Cell))
    : list (string * option Z) :=
  (λ category : string,
     (category, match records with
                | Some row =>
                    match row !! ("log_channels." +:+ category) with
                    | Some (CInt z) => Some z
                    | _ => None
                    end
                | None => None
                end)) <$> log_categories.

(** Modelled from the spec: [get_log_channel_ids_view] reads through the cache. *)
Definition get_log_channel_ids_view : M Session (list (string * option Z)) :=
  let* records := cache_get "log_config" in
  ret (log_channels_view records).

(** Modelled from the spec: the Logging plugin's [is_color_enabled], not among
    the sources: the row's [color], the plugin's default where there is none. *)
Definition color_view (records : option (gmap string Cell)) : bool :=
  match records with
  | Some row =>
      match row !! "color" with
      | Some c => cell_truthy c
      | None => default_color
      end
  | None => default_color
  end.

(** Modelled from the spec: [is_color_enabled] reads through the cache. *)
Definition is_color_enabled : M Session bool :=
  let* records := cache_get "log_config" in
  ret (color_view records).

(** Modelled from the spec: the Logging plugin's [set_log_channel], not among
    the sources: the channel of the event is stored and the cache reloaded. *)
Definition set_log_channel (log_event : string) (channel : option Z) : M Session unit :=
  emit (SetLogChannel log_event guild_id channel) ;;
  modify (set_db (execute_sql
            (Upsert "log_config" ("log_channels." +:+ log_event)
               (match channel with Some z => CInt z | None => CNull end) guild_id))) ;;
  modify (λ s, set_db_cache (<[("log_config"%string, guild_id)
                               := db s !! ("log_config"%string, guild_id)]>) s).

(** [ctx.app.cache.get_guild_channel], [get_role] *)
Definition get_guild_channel (id : Z) : option Channel :=
  List.find (λ c, channel_id c =? id) channels.
Definition get_role (id : Z) : option Role :=
  List.find (λ r, role_id r =? id) roles.

(** Modelled from the spec: [helpers.ask], which is not among the sources.  It
    shows the prompt and awaits one answer: an option picked, or free text.  An
    answer listed in [ignore] is returned as it is; any other is resolved to
    the requested kind of object, and "if a requested child resource cannot be
    resolved from free-text input" it raises [TypeError]; without an answer it
    raises [asyncio.TimeoutError]. *)
Inductive ReturnType := TextableGuildChannel | RoleType.

Inductive Answer :=
| GotChannel (c : Channel)
| GotRole (r : Role)
| GotRaw (v : string).

(** Modelled from the spec: the conversion inside [helpers.ask]; what was
    found must be of the requested kind, else [TypeError]. *)
Definition resolve (return_type : ReturnType) (found_channel : option Channel)
    (found_role : option Role) : Res Answer :=
  match return_type with
  | TextableGuildChannel =>
      match found_channel with
      | Some c => if channel_textable c then Ret (GotChannel c) else Exc TypeError
      | None => Exc TypeError
      end
  | RoleType =>
      match found_role with
      | Some r => Ret (GotRole r)
      | None => Exc TypeError
      end
  end.

(** Modelled from the spec: how [helpers.ask] treats a textual answer. *)
Definition resolve_text (return_type : ReturnType) (ignore : list string)
    (text : string) : Res Answer :=
  if bool_decide (text ∈ ignore) then Ret (GotRaw text)
  else resolve return_type (convert_channel text) (convert_role text).

(** Modelled from the spec: [helpers.ask(ctx, options=..., return_type=...,
    embed_or_content=..., placeholder=..., ignore=..., message=...)], not
    among the sources. *)
Definition ask (options : list SelectOption) (return_type : ReturnType)
    (embed : Embed) (placeholder : string) (ignore : list string)
    (message : option nat) : M Session Answer :=
  emit (Asked message embed options placeholder) ;;
  let* i := next_interaction in
  match i with
  | Choose _ j =>
      match options !! j with
      | Some o =>
          match opt_value o with
          | OStr text => lift (resolve_text return_type ignore text)
          | OInt id => lift (resolve return_type (get_guild_channel id) (get_role id))
          end
      | None => raise AsyncTimeoutError
      end
  | Reply text => lift (resolve_text return_type ignore text)
  | Press _ | Idle => raise AsyncTimeoutError
  end.

(** [try: body / except ...: handlers / else: orelse]. *)
Definition try_else {A B} (body : M Session A)
    (handlers : Exception → option (M Session B)) (orelse : A → M Session B)
    : M Session B :=
  λ s, match body s with
       | (Ret a, s') => orelse a s'
       | (Exc e, s') =>
           match handlers e with
           | Some h => h s'
           | None => (Exc e, s')
           end
       | (Suspended, s') => (Suspended, s')
       | (OutOfFuel, s') => (OutOfFuel, s')
       end.

(** ** Dispatch *)

(** [menu_actions[key](ctx, message)]; the lookup is recorded in the trace. *)
Definition call (actions : Actions) (key : string) (message : option nat)
    : M Session unit :=
  emit (Lookup key) ;;
  match dict_get actions key with
  | Some handler => handler message
  | None => raise (KeyError key)
  end.

Definition repr (v : Value) : string :=
  match v with
  | VNone => "None"
  | VStr s => s
  | VInt z => pretty z
  | VTuple label state => "(" +:+ label +:+ ", " +:+ (if state then "True" else "False") +:+ ")"
  end.

Definition call_value (actions : Actions) (v : Value) (message : option nat)
    : M Session unit :=
  match v with
  | VStr key => call actions key message
  | _ => emit (Lookup (repr v)) ;; raise (KeyError (repr v))
  end.

(** [view.value in menu_actions.keys()] *)
Definition in_keys (actions : Actions) (v : Value) : bool :=
  match v with
  | VStr key => bool_decide (key ∈ actions.*1)
  | _ => false
  end.

(** ** Menu functions *)

(** [error_view_handler(ctx, message, embed, return_to)] *)
Definition error_view_handler (actions : Actions) (message : option nat)
    (embed : Embed) (return_to : string) : M Session unit :=
  modify (set_parent (Some return_to)) ;;
  let view := ButtonMenuView [] true in
  maybe_edit message embed view ;;
  view_start message ;;
  let* value := view_wait message view in
  call_value actions value message.

Definition main_embed : Embed :=
  {| title := "Sned Configuration";
     description :=
       "**Welcome to settings!**" +:+ nl +:+ "        " +:+ nl
       +:+ "        Here you can configure various aspects of the bot, such as moderation settings, automoderator, logging options, permissions, and more. "
       +:+ nl +:+ "        Click one of the buttons below to get started!";
     color := embed_blue; fields := [] |}.

Definition main_view : list Item :=
  ButtonMenuView [option_button "Moderation" false;
                  option_button "Auto-Moderation" false;
                  option_button "Logging" false;
                  option_button "Reports" false] false.

(** [settings_main(ctx, message=None)] *)
Definition settings_main (actions : Actions) (message : option nat) : M Session unit :=
  let embed := main_embed in
  let view := main_view in
  modify (set_parent None) ;;
  let* message :=
    match message with
    | Some _ =>
        maybe_edit message embed view ;;
        let message := None in
        view_start message ;;
        ret message
    | None =>
        let* sent := respond embed view in
        let message := Some sent in
        view_start message ;;
        ret message
    end in
  let* value := view_wait message view in
  call_value actions value message.

Definition str_bool (b : bool) : string := if b then "True" else "False".

(** The loop of [settings_mod] over [mod_settings.items()]: one button and one
    field per setting, named by [mod_settings_strings[key]]. *)
Definition mod_labels (mod_settings : list (string * bool)) : Res (list string) :=
  traverse (λ kv : string * bool, subscript mod_settings_strings kv.1) mod_settings.

Definition mod_embed (labels : list string) (mod_settings : list (string * bool))
    : Embed :=
  {| title := "Moderation Settings";
     description := "Below you can see the current moderation settings, to change any of them, press the corresponding button!";
     color := embed_blue;
     fields := zip_with (λ l (kv : string * bool),
                           {| name := l; value := str_bool kv.2; inline := true |})
                 labels mod_settings |}.

Definition mod_view (labels : list string) : list Item :=
  ButtonMenuView ((λ l, OptionButton SECONDARY l None false) <$> labels) true.

(** [settings_mod(ctx, message)] *)
Definition settings_mod (actions : Actions) (self : Handler) (message : option nat)
    : M Session unit :=
  let* mod_settings := get_settings in
  let* labels := lift (mod_labels mod_settings) in
  let embed := mod_embed labels mod_settings in
  let view := mod_view labels in
  modify (set_parent (Some "Main")) ;;
  maybe_edit message embed view ;;
  let message : option nat := None in
  view_start message ;;
  let* value := view_wait message view in
  if in_keys actions value then call_value actions value message
  else
    let* option :=
      lift (match value with
            | VStr label => get_key mod_settings_strings label
            | _ => Exc ValueError
            end) in
    let* current := lift (subscript mod_settings option) in
    pool_execute (Upsert "mod_config" option (CBool (negb current)) guild_id) ;;
    cache_refresh "mod_config" ;;
    self message.

(** [settings_automod(ctx, message)]: [pass]. *)
Definition settings_automod (message : option nat) : M Session unit := ret tt.

Definition channel_not_found_embed : Embed :=
  {| title := "❌ Channel not found.";
     description := "Unable to locate channel. Please type a channel mention or ID.";
     color := error_color; fields := [] |}.

Definition textable_channel_options : list SelectOption :=
  (λ c, {| opt_label := "#" +:+ channel_name c; opt_value := OInt (channel_id c);
           opt_description := None |})
  <$> filter (λ c, channel_textable c = true) channels.

(** The loop of [settings_logging] over [log_channels.items()]. *)
Definition logging_names (log_channels : list (string * option Z))
    : Res (list string) :=
  traverse (λ cv : string * option Z, subscript log_event_strings cv.1) log_channels.

Definition shown_channel (cv : string * option Z) : string :=
  match cv.2 with
  | Some id =>
      if id =? 0 then "*Not set*"
      else match get_guild_channel id with
           | Some c => channel_mention c
           | None => "*Not set*"
           end
  | None => "*Not set*"
  end.

Definition logging_embed (names : list string)
    (log_channels : list (string * option Z)) : Embed :=
  {| title := "Logging Settings";
     description := "Below you can see a list of logging events and channels associated with them. To change where a certain event's logs should be sent, click on the corresponding button.";
     color := embed_blue;
     fields :=
       (if Z.land bot_permissions Helpers.VIEW_AUDIT_LOG =? 0
        then [{| name := "⚠️ Warning!";
                 value := "The bot currently has no permissions to view the audit logs! This will severely limit logging capabilities. Please consider enabling `View Audit Log` for the bot in your server's settings!";
                 inline := false |}]
        else [])
       ++ zip_with (λ n cv, {| name := n; value := shown_channel cv; inline := true |})
            names log_channels |}.

Definition logging_view (names : list string)
    (log_channels : list (string * option Z)) (is_color : bool) : list Item :=
  SelectMenuView
    (zip_with (λ n (cv : string * option Z),
                 {| opt_label := n; opt_value := OStr cv.1; opt_description := None |})
       names log_channels)
    "Select a logging category..." true
  ++ [boolean_button is_color "Color logs" false].

(** [settings_logging(ctx, message)] *)
Definition settings_logging (actions : Actions) (self : Handler)
    (message : option nat) : M Session unit :=
  let* log_channels := get_log_channel_ids_view in
  let* names := lift (logging_names log_channels) in
  let embed := logging_embed names log_channels in
  let* is_color := is_color_enabled in
  let view := logging_view names log_channels is_color in
  modify (set_parent (Some "Main")) ;;
  maybe_edit message embed view ;;
  let message : option nat := None in
  view_start message ;;
  let* value := view_wait message view in
  if in_keys actions value then call_value actions value message
  else
    match value with
    | VTuple label state =>
        if String.eqb label "Color logs" then
          pool_execute (Update "log_config" "color" (CBool state) guild_id) ;;
          cache_refresh "log_config" ;;
          self message
        else lift (Exc (KeyError (repr value)))
    | VStr log_event =>
        let options :=
          {| opt_label := "Disable"; opt_value := OStr "disable";
             opt_description := Some "Stop logging this event." |}
          :: textable_channel_options in
        let* event_name := lift (subscript log_event_strings log_event) in
        let embed :=
          {| title := "Logging Settings";
             description := "Please select a channel where the following event should be logged: `"
                            +:+ event_name +:+ "`";
             color := embed_blue; fields := [] |} in
        try_else
          (ask options TextableGuildChannel embed "Select a channel..." ["disable"]
             message)
          (λ e, match e with
                | TypeError =>
                    Some (error_view_handler actions message
                            channel_not_found_embed "Logging")
                | AsyncTimeoutError => Some (call actions "Quit" message)
                | _ => None
                end)
          (λ channel,
             let* channel_id :=
               lift (match channel with
                     | GotChannel c => Ret (Some (channel_id c))
                     | GotRole r => Ret (Some (role_id r))
                     | GotRaw v =>
                         if String.eqb v "disable" then Ret None
                         else Exc (AttributeError "'str' object has no attribute 'id'")
                     end) in
             set_log_channel log_event channel_id ;;
             self message)
    | _ => lift (Exc (KeyError (repr value)))
    end.

Definition role_not_found_embed (description : string) : Embed :=
  {| title := "❌ Role not found."; description := description;
     color := error_color; fields := [] |}.

(** The row used when the guild has none in [reports]. *)
Definition default_reports_row : gmap string Cell :=
  <["is_enabled" := CBool false]>
    (<["channel_id" := CNull]> (<["pinged_role_ids" := CNull]> ∅)).

Definition zwsp : string :=
  String "226"%char (String "128"%char (String "139"%char EmptyString)).

Definition role_options (rs : list (option Role)) : Res (list SelectOption) :=
  traverse (λ r : option Role,
              match r with
              | Some r => Ret {| opt_label := role_name r; opt_value := OInt (role_id r);
                                 opt_description := None |}
              | None => Exc (AttributeError "'NoneType' object has no attribute 'name'")
              end) rs.

Definition answer_role (a : Answer) : option Role :=
  match a with GotRole r => Some r | _ => None end.

(** [list.remove(x)]: the first occurrence. *)
Fixpoint remove_first {A} `{EqDecision A} (x : A) (l : list A) : list A :=
  match l with
  | [] => []
  | y :: l' => if decide (y = x) then l' else y :: remove_first x l'
  end.

(** Lines 520-529 of [settings_report]: the role list is written back and the
    menu is drawn again. *)
Definition write_pinged_roles (self : Handler) (message : option nat)
    (pinged_roles : list (option Role)) : M Session unit :=
  let* ids :=
    lift (traverse (λ r : option Role,
                      match r with
                      | Some r => Ret (role_id r)
                      | None => Exc (AttributeError "'NoneType' object has no attribute 'id'")
                      end) pinged_roles) in
  pool_execute (Upsert "reports" "pinged_role_ids" (CInts ids) guild_id) ;;
  cache_refresh "reports" ;;
  self message.

(** Lines 451-529: the two role branches, then the write-back. *)
Definition roles_branches (actions : Actions) (self : Handler)
    (message : option nat) (value : Value)
    (pinged_roles : list (option Role)) (unadded_roles : list Role)
    : M Session unit :=
  if bool_decide (value = VStr "Add Role") then
    let embed :=
      {| title := "Reports Settings";
         description := "Select a role to add to the list of roles that will be mentioned when a new report is made.";
         color := embed_blue; fields := [] |} in
    let* options := lift (role_options (Some <$> unadded_roles)) in
    try_else
      (let* role := ask options RoleType embed "Select a role..." [] message in
       ret (pinged_roles ++ [answer_role role]))
      (λ e, match e with
            | TypeError =>
                Some (error_view_handler actions message
                        (role_not_found_embed "Unable to locate role. Please type a role mention or ID.")
                        "Reports")
            | AsyncTimeoutError =>
                Some (call actions "Quit" message ;;
                      write_pinged_roles self message pinged_roles)
            | _ => None
            end)
      (λ pinged_roles, write_pinged_roles self message pinged_roles)
  else if bool_decide (value = VStr "Remove Role") then
    let embed :=
      {| title := "Reports Settings";
         description := "Remove a role from the list of roles that is mentioned when a new report is made.";
         color := embed_blue; fields := [] |} in
    let* options := lift (role_options pinged_roles) in
    try_else
      (let* role := ask options RoleType embed "Select a role..." [] message in
       if bool_decide (answer_role role ∈ pinged_roles)
       then ret (remove_first (answer_role role) pinged_roles)
       else raise TypeError)
      (λ e, match e with
            | TypeError =>
                Some (error_view_handler actions message
                        (role_not_found_embed "Unable to locate role, or it is not a pinged role.")
                        "Reports")
            | AsyncTimeoutError =>
                Some (call actions "Quit" message ;;
                      write_pinged_roles self message pinged_roles)
            | _ => None
            end)
      (λ pinged_roles, write_pinged_roles self message pinged_roles)
  else write_pinged_roles self message pinged_roles.

Definition reports_embed (channel : option Channel)
    (pinged_roles : list (option Role)) : Embed :=
  {| title := "Reports Settings";
     description := "Below you can see all settings for configuring the reporting of other users or messages. This allows other users to flag suspicious content for review.";
     color := embed_blue;
     fields :=
       [{| name := "Channel";
           value := match channel with
                    | Some c => channel_mention c
                    | None => "*Not set*"
                    end;
           inline := true |};
        {| name := zwsp; value := zwsp; inline := true |};
        {| name := "Pinged Roles";
           value :=
             (let mentions := join " " (role_mention <$> omap id pinged_roles) in
              if String.eqb mentions "" then "*None set*" else mentions);
           inline := true |}] |}.

Definition reports_view (record : gmap string Cell) (channel : option Channel)
    (pinged_roles : list (option Role)) (unadded_roles : list Role) : list Item :=
  ButtonMenuView
    [boolean_button
       (match channel with
        | Some _ => cell_truthy (cell record "is_enabled")
        | None => false
        end)
       "Enabled" (negb (bool_decide (is_Some channel)));
     option_button "Set Channel" false;
     option_button "Add Role" (bool_decide (unadded_roles = []));
     option_button "Remove Role" (bool_decide (pinged_roles = []))]
    true.

Definition set_channel_embed : Embed :=
  {| title := "Reports Settings";
     description := "Please select a channel where reports will be sent.";
     color := embed_blue; fields := [] |}.

(** What [settings_report] derives from the guild's row before it draws. *)
Definition report_pinged_roles (record : gmap string Cell) : list (option Role) :=
  match cell record "pinged_role_ids" with
  | CInts ids => get_role <$> ids
  | _ => []
  end.

(** [list(set(all_roles) - set(pinged_roles))]: the roles of the guild that
    are not pinged, each once.  A Python set has no order of its own; the list
    is taken here in the order of the cache. *)
Definition report_unadded_roles (pinged_roles : list (option Role)) : list Role :=
  filter (λ r, Some r ∉ pinged_roles) (remove_dups roles).

Definition report_channel (record : gmap string Cell) : option Channel :=
  match cell record "channel_id" with
  | CInt id => if id =? 0 then None else get_guild_channel id
  | _ => None
  end.

(** [settings_report(ctx, message)] *)
Definition settings_report (actions : Actions) (self : Handler)
    (message : option nat) : M Session unit :=
  let* records := cache_get "reports" in
  let record := default default_reports_row records in
  let pinged_roles := report_pinged_roles record in
  let unadded_roles := report_unadded_roles pinged_roles in
  let channel := report_channel record in
  let embed := reports_embed channel pinged_roles in
  let view := reports_view record channel pinged_roles unadded_roles in
  modify (set_parent (Some "Main")) ;;
  maybe_edit message embed view ;;
  view_start message ;;
  let* value := view_wait message view in
  if in_keys actions value then call_value actions value message
  else
    match (match value with
           | VTuple label state =>
               if String.eqb label "Enabled" then Some state else None
           | _ => None
           end) with
    | Some state =>
        pool_execute (Upsert "reports" "is_enabled" (CBool state) guild_id) ;;
        cache_refresh "reports" ;;
        self message
    | None =>
        if bool_decide (value = VStr "Set Channel") then
          try_else
            (ask textable_channel_options TextableGuildChannel set_channel_embed
               "Select a channel..." [] message)
            (λ e, match e with
                  | TypeError =>
                      Some (error_view_handler actions message
                              channel_not_found_embed "Reports")
                  | AsyncTimeoutError =>
                      Some (call actions "Quit" message ;;
                            roles_branches actions self message value
                              pinged_roles unadded_roles)
                  | _ => None
                  end)
            (λ channel,
               let* id :=
                 lift (match channel with
                       | GotChannel c => Ret (channel_id c)
                       | GotRole r => Ret (role_id r)
                       | GotRaw _ =>
                           Exc (AttributeError "'str' object has no attribute 'id'")
                       end) in
               pool_execute (Upsert "reports" "channel_id" (CInt id) guild_id) ;;
               cache_refresh "reports" ;;
               self message)
        else roles_branches actions self message value pinged_roles unadded_roles
    end.

(** [timeout_or_quit(ctx, message)] *)
Definition timeout_or_quit (message : option nat) : M Session unit :=
  maybe_delete message.

(** [back(ctx, message)] *)
Definition back (actions : Actions) (message : option nat) : M Session unit :=
  let* ctx := get in
  match parent ctx with
  | Some menu => if String.eqb menu "" then ret tt else call actions menu message
  | None => ret tt
  end.

(** ** The action table *)

Record Handlers := {
  h_main : Handler;
  h_mod : Handler;
  h_automod : Handler;
  h_logging : Handler;
  h_report : Handler;
  h_timeout_or_quit : Handler;
  h_back : Handler;
}.

(** [menu_actions], over the functions it names. *)
Definition menu_actions (h : Handlers) : Actions :=
  [("Main"%string, h_main h);
   ("Moderation"%string, h_mod h);
   ("Auto-Moderation"%string, h_automod h);
   ("Logging"%string, h_logging h);
   ("Reports"%string, h_report h);
   ("Timeout"%string, h_timeout_or_quit h);
   ("Quit"%string, h_timeout_or_quit h);
   ("Back"%string, h_back h)].

Definition registered : list string :=
  ["Main"; "Moderation"; "Auto-Moderation"; "Logging"; "Reports"; "Timeout";
   "Quit"; "Back"]%string.

Definition out_of_fuel : Handler := λ _ s, (OutOfFuel, s).

(** The menu functions call each other through the table and themselves by
    name; [fuel] bounds the depth of that chain. *)
Fixpoint handlers (fuel : nat) : Handlers :=
  match fuel with
  | O =>
      {| h_main := out_of_fuel; h_mod := out_of_fuel; h_automod := out_of_fuel;
         h_logging := out_of_fuel; h_report := out_of_fuel;
         h_timeout_or_quit := out_of_fuel; h_back := out_of_fuel |}
  | S n =>
      let below := handlers n in
      let actions := menu_actions below in
      {| h_main := settings_main actions;
         h_mod := settings_mod actions (h_mod below);
         h_automod := settings_automod;
         h_logging := settings_logging actions (h_logging below);
         h_report := settings_report actions (h_report below);
         h_timeout_or_quit := timeout_or_quit;
         h_back := back actions |}
  end.

(** [settings_cmd(ctx)]: a fresh [SettingsContext] (its [parent] is [None]),
    then [settings_main(ctx)]. *)
Definition settings_cmd (fuel : nat) : M Session unit :=
  modify (set_parent None) ;;
  h_main (handlers fuel) None.

Definition is_write (e : Event) : bool :=
  match e with
  | Executed _ | SetLogChannel _ _ _ => true
  | _ => false
  end.

(** ** Stepping through a menu function *)

Definition lookup_records (table : string) (s : Session) : option (gmap string Cell) :=
  match db_cache s !! (table, guild_id) with
  | Some records => records
  | None => db s !! (table, guild_id)
  end.

Definition cache_fill (table : string) (s : Session) : Session :=
  match db_cache s !! (table, guild_id) with
  | Some _ => s
  | None => set_db_cache (<[(table, guild_id) := db s !! (table, guild_id)]>) s
  end.

Lemma cache_get_eq (table : string) (s : Session) :
  cache_get table s = (Ret (lookup_records table s), cache_fill table s).
Proof.
  unfold cache_get, lookup_records, cache_fill.
  destruct (db_cache s !! (table, guild_id)); reflexivity.
Qed.

Lemma cache_fill_frame (table : string) (s : Session) :
  db (cache_fill table s) = db s
  ∧ parent (cache_fill table s) = parent s
  ∧ trace (cache_fill table s) = trace s
  ∧ deleted (cache_fill table s) = deleted s
  ∧ script (cache_fill table s) = script s
  ∧ next_message (cache_fill table s) = next_message s.
Proof.
  unfold cache_fill. destruct (db_cache s !! (table, guild_id)); repeat split.
Qed.

Lemma maybe_edit_live (m : nat) (embed : Embed) (components : list Item) (s : Session) :
  m ∉ deleted s →
  maybe_edit (Some m) embed components s
  = (Ret tt, add_event (Edited m embed components) s).
Proof.
  intros H. unfold maybe_edit. rewrite bool_decide_eq_false_2 by exact H. reflexivity.
Qed.

Lemma view_wait_eq (message : option nat) (items : list Item) (s : Session)
    (i : Interaction) (rest : list Interaction) :
  script s = i :: rest →
  gone message s = false →
  view_wait message items s = (Ret (view_value items i), set_script rest s).
Proof.
  intros Hs Hg. unfold view_wait, bind, next_interaction. rewrite Hs.
  replace (gone message (set_script rest s)) with (gone message s)
    by (destruct message; reflexivity).
  rewrite Hg. reflexivity.
Qed.

Lemma ask_reply (options : list SelectOption) (return_type : ReturnType)
    (embed : Embed) (placeholder : string) (ignore : list string)
    (message : option nat) (s : Session) (text : string) (rest : list Interaction) :
  script s = Reply text :: rest →
  ask options return_type embed placeholder ignore message s
  = (resolve_text return_type ignore text,
     set_script rest (add_event (Asked message embed options placeholder) s)).
Proof.
  intros Hs. unfold ask. erewrite bind_eq by reflexivity.
  unfold bind, next_interaction. cbn [script add_event]. rewrite Hs. reflexivity.
Qed.

Lemma in_keys_menu_actions (h : Handlers) (v : Value) :
  in_keys (menu_actions h) v
  = match v with VStr key => bool_decide (key ∈ registered) | _ => false end.
Proof. destruct v; reflexivity. Qed.

Lemma set_channel_not_registered : bool_decide ("Set Channel"%string ∈ registered) = false.
Proof. vm_compute. reflexivity. Qed.

Lemma try_else_exc {A B} (body : M Session A)
    (handlers : Exception → option (M Session B)) (orelse : A → M Session B)
    (s s' : Session) (e : Exception) (h : M Session B) :
  body s = (Exc e, s') → handlers e = Some h →
  try_else body handlers orelse s = h s'.
Proof. intros Hb Hh. unfold try_else. rewrite Hb, Hh. reflexivity. Qed.

Lemma try_else_ret {A B} (body : M Session A)
    (handlers : Exception → option (M Session B)) (orelse : A → M Session B)
    (s s' : Session) (a : A) :
  body s = (Ret a, s') → try_else body handlers orelse s = orelse a s'.
Proof. intros Hb. unfold try_else. rewrite Hb. reflexivity. Qed.

Lemma call_registered (actions : Actions) (key : string) (h : Handler)
    (message : option nat) (s : Session) :
  dict_get actions key = Some h →
  call actions key message s = h message (add_event (Lookup key) s).
Proof. intros Hk. unfold call. erewrite bind_eq by reflexivity. rewrite Hk. reflexivity. Qed.

Lemma back_parent (actions : Actions) (message : option nat) (s : Session)
    (menu : string) :
  parent s = Some menu → menu ≠ ""%string →
  back actions message s = call actions menu message s.
Proof.
  intros Hp Hne. unfold back. erewrite bind_eq by reflexivity. rewrite Hp.
  destruct (String.eqb_spec menu "") as [->|_]; [congruence | reflexivity].
Qed.

Lemma menu_actions_get (h : Handlers) :
  dict_get (menu_actions h) "Main" = Some (h_main h)
  ∧ dict_get (menu_actions h) "Moderation" = Some (h_mod h)
  ∧ dict_get (menu_actions h) "Auto-Moderation" = Some (h_automod h)
  ∧ dict_get (menu_actions h) "Logging" = Some (h_logging h)
  ∧ dict_get (menu_actions h) "Reports" = Some (h_report h)
  ∧ dict_get (menu_actions h) "Timeout" = Some (h_timeout_or_quit h)
  ∧ dict_get (menu_actions h) "Quit" = Some (h_timeout_or_quit h)
  ∧ dict_get (menu_actions h) "Back" = Some (h_back h).
Proof. repeat split. Qed.

Lemma get_settings_eq (s : Session) :
  get_settings s
  = (Ret (mod_settings_view (lookup_records "mod_config" s)),
     cache_fill "mod_config" s).
Proof. unfold get_settings. erewrite bind_eq by apply cache_get_eq. reflexivity. Qed.

Lemma get_log_channel_ids_view_eq (s : Session) :
  get_log_channel_ids_view s
  = (Ret (log_channels_view (lookup_records "log_config" s)),
     cache_fill "log_config" s).
Proof.
  unfold get_log_channel_ids_view. erewrite bind_eq by apply cache_get_eq.
  reflexivity.
Qed.

Lemma is_color_enabled_eq (s : Session) :
  is_color_enabled s
  = (Ret (color_view (lookup_records "log_config" s)), cache_fill "log_config" s).
Proof.
  unfold is_color_enabled. erewrite bind_eq by apply cache_get_eq. reflexivity.
Qed.

(** C5.  In the Reports menu, after "Set Channel" is pressed, free text that
    resolves to no channel makes the handler draw the "Channel not found" panel
    with the Back button as its only control and "Reports" recorded as the
    parent; between the menu and the panel nothing is executed against
    storage, which is left as it was.  From there the session waits, and a
    press on Back leads to the Reports menu again. *)
Theorem channel_not_found_panel (fuel : nat) (m : nat) (s : Session)
    (text : string) (rest : list Interaction) :
  m ∉ deleted s →
  script s = Press 2 :: Reply text :: rest →
  convert_channel text = None →
  let actions := menu_actions (handlers (S fuel)) in
  let record := default default_reports_row (lookup_records "reports" s) in
  let pinged_roles := report_pinged_roles record in
  let result := h_report (handlers (S (S fuel))) (Some m) s in
  ∃ s',
    result = (let* value := view_wait (Some m) [BackButton] in
              call_value actions value (Some m)) s'
    ∧ trace s'
      = trace s
        ++ [Edited m (reports_embed (report_channel record) pinged_roles)
              (reports_view record (report_channel record) pinged_roles
                 (report_unadded_roles pinged_roles));
            Asked (Some m) set_channel_embed textable_channel_options
              "Select a channel...";
            Edited m channel_not_found_embed [BackButton]]
    ∧ parent s' = Some "Reports"%string
    ∧ db s' = db s
    ∧ script s' = rest
    ∧ (rest = [] → result = (Suspended, s'))
    ∧ (∀ rest', rest = Press 0 :: rest' →
         result = h_report (handlers fuel) (Some m)
                    (add_event (Lookup "Reports")
                       (add_event (Lookup "Back") (set_script rest' s')))).
Proof.
  intros Hlive Hscript Hconv actions record pinged_roles result.
  destruct (cache_fill_frame "reports" s) as (Hdb & Hpar & Htr & Hdel & Hsc & Hnm).
  assert (Hres : resolve_text TextableGuildChannel [] text = Exc TypeError).
  { unfold resolve_text, resolve. rewrite Hconv.
    rewrite bool_decide_eq_false_2 by apply not_elem_of_nil. reflexivity. }
  eassert (Hmain : result = (let* value := view_wait (Some m) [BackButton] in
                             call_value actions value (Some m)) _).
  { subst result. cbn [handlers h_report]. fold actions. unfold settings_report.
    erewrite bind_eq by apply cache_get_eq.
    erewrite bind_eq by reflexivity.
    erewrite bind_eq by (apply maybe_edit_live; cbn; rewrite Hdel; exact Hlive).
    erewrite bind_eq by reflexivity.
    erewrite bind_eq.
    2:{ apply view_wait_eq with (i := Press 2) (rest := Reply text :: rest).
        - cbn. rewrite Hsc. exact Hscript.
        - cbn. rewrite Hdel. apply bool_decide_eq_false_2. exact Hlive. }
    change (view_value (reports_view _ _ _ _) (Press 2)) with (VStr "Set Channel").
    unfold actions at 1. rewrite in_keys_menu_actions, set_channel_not_registered.
    cbn [String.eqb]. rewrite bool_decide_eq_true_2 by reflexivity.
    erewrite try_else_exc;
      [| erewrite ask_reply by reflexivity; rewrite Hres; reflexivity | reflexivity].
    unfold error_view_handler.
    erewrite bind_eq by reflexivity.
    erewrite bind_eq by (apply maybe_edit_live; cbn; rewrite Hdel; exact Hlive).
    erewrite bind_eq by reflexivity.
    reflexivity. }
  eexists. split; [exact Hmain |].
  split; [cbn; rewrite Htr, <- !app_assoc; reflexivity |].
  split; [reflexivity |]. split; [exact Hdb |]. split; [reflexivity |]. split.
  - intros ->. rewrite Hmain. reflexivity.
  - intros rest' ->. rewrite Hmain.
    erewrite bind_eq.
    2:{ apply view_wait_eq with (i := Press 0) (rest := rest').
        - reflexivity.
        - cbn. rewrite Hdel. apply bool_decide_eq_false_2. exact Hlive. }
    change (view_value [BackButton] (Press 0)) with (VStr "Back").
    cbn [call_value]. subst actions.
    erewrite call_registered by apply menu_actions_get.
    cbn [handlers h_back].
    erewrite back_parent; [| reflexivity | discriminate].
    erewrite call_registered by apply menu_actions_get.
    reflexivity.
Qed.

Lemma back_registered : bool_decide ("Back"%string ∈ registered) = true.
Proof. vm_compute. reflexivity. Qed.

(** Pressing the Back button of a nested view. *)
Lemma nested_back (fuel : nat) (message : option nat) (items : list Item)
    (s : Session) (n : nat) (rest : list Interaction) (menu : string)
    (otherwise : Value → M Session unit) :
  script s = Press n :: rest →
  gone message s = false →
  items !! n = Some BackButton →
  parent s = Some menu → menu ≠ ""%string →
  (let* value := view_wait message items in
   if in_keys (menu_actions (handlers (S fuel))) value
   then call_value (menu_actions (handlers (S fuel))) value message
   else otherwise value) s
  = call (menu_actions (handlers fuel)) menu message
      (add_event (Lookup "Back") (set_script rest s)).
Proof.
  intros Hs Hg Hi Hp Hne.
  erewrite bind_eq by (eapply view_wait_eq; eauto).
  assert (Hv : view_value items (Press n) = VStr "Back")
    by (unfold view_value; rewrite Hi; reflexivity).
  rewrite Hv, in_keys_menu_actions, back_registered. cbn [call_value].
  erewrite call_registered by apply menu_actions_get.
  cbn [handlers h_back]. apply back_parent; [exact Hp | exact Hne].
Qed.

(** C6.  A Back action calls the function registered under the name held in
    [ctx.parent] (and nothing when there is none); every nested view records
    its parent before it waits (the error panel its [return_to], the
    Moderation, Logging and Reports menus "Main"), so pressing its Back button
    hands control to exactly that menu. *)
Theorem back_returns_to_recorded_parent (fuel : nat) :
  let actions := menu_actions (handlers (S fuel)) in
  let below := menu_actions (handlers fuel) in
  (∀ message s menu,
     parent s = Some menu → menu ≠ ""%string →
     call actions "Back" message s
     = call below menu message (add_event (Lookup "Back") s))
  ∧ (∀ message s,
       parent s = None →
       call actions "Back" message s = (Ret tt, add_event (Lookup "Back") s))
  ∧ (∀ m s embed return_to rest,
       m ∉ deleted s → script s = Press 0 :: rest → return_to ≠ ""%string →
       error_view_handler actions (Some m) embed return_to s
       = call below return_to (Some m)
           (add_event (Lookup "Back")
              (set_script rest
                 (add_event (Edited m embed [BackButton])
                    (set_parent (Some return_to) s)))))
  ∧ (∀ self m s rest,
       m ∉ deleted s → script s = Press 0 :: rest →
       ∃ s', settings_report actions self (Some m) s
             = call below "Main" (Some m) (add_event (Lookup "Back") s')
             ∧ parent s' = Some "Main"%string ∧ script s' = rest)
  ∧ (∀ self m s rest labels,
       m ∉ deleted s → script s = Press 0 :: rest →
       start_tolerates_none = true →
       mod_labels (mod_settings_view (lookup_records "mod_config" s)) = Ret labels →
       ∃ s', settings_mod actions self (Some m) s
             = call below "Main" None (add_event (Lookup "Back") s')
             ∧ parent s' = Some "Main"%string ∧ script s' = rest)
  ∧ (∀ self m s rest names,
       m ∉ deleted s → script s = Press 1 :: rest →
       start_tolerates_none = true →
       logging_names (log_channels_view (lookup_records "log_config" s)) = Ret names →
       ∃ s', settings_logging actions self (Some m) s
             = call below "Main" None (add_event (Lookup "Back") s')
             ∧ parent s' = Some "Main"%string ∧ script s' = rest).
Proof.
  intros actions below. subst actions below.
  split; [| split; [| split; [| split; [| split]]]].
  - intros message s menu Hp Hne.
    erewrite call_registered by apply menu_actions_get.
    cbn [handlers h_back]. apply back_parent; assumption.
  - intros message s Hp.
    erewrite call_registered by apply menu_actions_get.
    cbn [handlers h_back]. unfold back. erewrite bind_eq by reflexivity.
    cbn [parent add_event]. rewrite Hp. reflexivity.
  - intros m s embed return_to rest Hlive Hs Hne.
    unfold error_view_handler.
    erewrite bind_eq by reflexivity.
    erewrite bind_eq by (apply maybe_edit_live; exact Hlive).
    erewrite bind_eq by reflexivity.
    erewrite bind_eq by (eapply view_wait_eq;
      [exact Hs | apply bool_decide_eq_false_2; exact Hlive]).
    change (view_value (ButtonMenuView [] true) (Press 0)) with (VStr "Back").
    cbn [call_value].
    erewrite call_registered by apply menu_actions_get.
    cbn [handlers h_back]. apply back_parent; [reflexivity | exact Hne].
  - intros self m s rest Hlive Hs.
    destruct (cache_fill_frame "reports" s) as (Hdb & Hpar & Htr & Hdel & Hsc & Hnm).
    eassert (Hmain : settings_report _ self (Some m) s
                     = call _ "Main" (Some m) (add_event (Lookup "Back") _)).
    { unfold settings_report.
      erewrite bind_eq by apply cache_get_eq.
      erewrite bind_eq by reflexivity.
      erewrite bind_eq by (apply maybe_edit_live; cbn; rewrite Hdel; exact Hlive).
      erewrite bind_eq by reflexivity.
      eapply nested_back with (menu := "Main"%string);
        [cbn; rewrite Hsc; exact Hs
        | cbn; rewrite Hdel; apply bool_decide_eq_false_2; exact Hlive
        | reflexivity | reflexivity | discriminate]. }
    eexists. split; [exact Hmain |]. split; reflexivity.
  - intros self m s rest labels Hlive Hs Htol Hlabels.
    destruct (cache_fill_frame "mod_config" s) as (Hdb & Hpar & Htr & Hdel & Hsc & Hnm).
    eassert (Hmain : settings_mod _ self (Some m) s
                     = call _ "Main" None (add_event (Lookup "Back") _)).
    { unfold settings_mod.
      erewrite bind_eq by apply get_settings_eq.
      erewrite bind_eq by (unfold lift; rewrite Hlabels; reflexivity).
      erewrite bind_eq by reflexivity.
      erewrite bind_eq by (apply maybe_edit_live; cbn; rewrite Hdel; exact Hlive).
      erewrite bind_eq by (unfold view_start; rewrite Htol; reflexivity).
      eapply nested_back with (menu := "Main"%string);
        [cbn; rewrite Hsc; exact Hs
        | reflexivity | reflexivity | reflexivity | discriminate]. }
    eexists. split; [exact Hmain |]. split; reflexivity.
  - intros self m s rest names Hlive Hs Htol Hnames.
    (* the select comes first in this view: Back is its second control *)
    destruct (cache_fill_frame "log_config" s) as (Hdb & Hpar & Htr & Hdel & Hsc & Hnm).
    destruct (cache_fill_frame "log_config" (cache_fill "log_config" s))
      as (Hdb' & Hpar' & Htr' & Hdel' & Hsc' & Hnm').
    eassert (Hmain : settings_logging _ self (Some m) s
                     = call _ "Main" None (add_event (Lookup "Back") _)).
    { unfold settings_logging.
      erewrite bind_eq by apply get_log_channel_ids_view_eq.
      erewrite bind_eq by (unfold lift; rewrite Hnames; reflexivity).
      erewrite bind_eq by apply is_color_enabled_eq.
      erewrite bind_eq by reflexivity.
      erewrite bind_eq
        by (apply maybe_edit_live; cbn; rewrite Hdel', Hdel; exact Hlive).
      erewrite bind_eq by (unfold view_start; rewrite Htol; reflexivity).
      eapply nested_back with (menu := "Main"%string);
        [cbn; rewrite Hsc', Hsc; exact Hs
        | reflexivity | reflexivity | reflexivity | discriminate]. }
    eexists. split; [exact Hmain |]. split; reflexivity.
Qed.

(** ** Two sessions that go wrong *)

Lemma ask_idle (options : list SelectOption) (return_type : ReturnType)
    (embed : Embed) (placeholder : string) (ignore : list string)
    (message : option nat) (s : Session) (rest : list Interaction) :
  script s = Idle :: rest →
  ask options return_type embed placeholder ignore message s
  = (Exc AsyncTimeoutError,
     set_script rest (add_event (Asked message embed options placeholder) s)).
Proof.
  intros Hs. unfold ask. erewrite bind_eq by reflexivity.
  unfold bind, next_interaction. cbn [script add_event]. rewrite Hs. reflexivity.
Qed.

Lemma maybe_delete_live (m : nat) (s : Session) :
  m ∉ deleted s →
  maybe_delete (Some m) s
  = (Ret tt, set_deleted (m :: deleted s) (add_event (Deleted m) s)).
Proof.
  intros H. unfold maybe_delete. rewrite bool_decide_eq_false_2 by exact H.
  reflexivity.
Qed.

Lemma pool_execute_eq (q : Sql) (s : Session) :
  pool_execute q s = (Ret tt, set_db (execute_sql q) (add_event (Executed q) s)).
Proof. reflexivity. Qed.

Lemma cache_refresh_eq (table : string) (s : Session) :
  cache_refresh table s
  = (Ret tt,
     set_db_cache (<[(table, guild_id) := db s !! (table, guild_id)]>)
       (add_event (Refreshed table guild_id) s)).
Proof. reflexivity. Qed.

Lemma role_ids_found (found : list Role) :
  traverse (λ r : option Role,
              match r with
              | Some r => Ret (role_id r)
              | None => Exc (AttributeError "'NoneType' object has no attribute 'id'")
              end) (Some <$> found)
  = Ret (role_id <$> found).
Proof.
  induction found as [|r found IH]; [reflexivity |].
  cbn [fmap list_fmap traverse]. cbn [fmap list_fmap] in IH. rewrite IH. reflexivity.
Qed.

(** C2 (the code departs from the claim).  In the Reports menu, "Set Channel"
    followed by no answer: the prompt times out, the handler calls the Quit
    action and the message is deleted, and, there being no [return] after
    that call, the handler runs on into the write-back of the role list: an
    upsert is executed and the cache refreshed after the teardown, and the
    menu function is entered once more. *)
Theorem quit_after_ask_timeout_still_writes (fuel m : nat) (s : Session)
    (rest : list Interaction) (found : list Role) :
  m ∉ deleted s →
  script s = Press 2 :: Idle :: rest →
  let record := default default_reports_row (lookup_records "reports" s) in
  report_pinged_roles record = Some <$> found →
  ∃ s',
    h_report (handlers (S (S fuel))) (Some m) s
    = h_report (handlers (S fuel)) (Some m) s'
    ∧ trace s'
      = trace s
        ++ [Edited m (reports_embed (report_channel record) (Some <$> found))
              (reports_view record (report_channel record) (Some <$> found)
                 (report_unadded_roles (Some <$> found)));
            Asked (Some m) set_channel_embed textable_channel_options
              "Select a channel...";
            Lookup "Quit";
            Deleted m;
            Executed (Upsert "reports" "pinged_role_ids"
                        (CInts (role_id <$> found)) guild_id);
            Refreshed "reports" guild_id]
    ∧ m ∈ deleted s'
    ∧ db s' = execute_sql (Upsert "reports" "pinged_role_ids"
                             (CInts (role_id <$> found)) guild_id) (db s).
Proof.
  intros Hlive Hscript record Hfound.
  destruct (cache_fill_frame "reports" s) as (Hdb & Hpar & Htr & Hdel & Hsc & Hnm).
  eassert (Hmain : h_report (handlers (S (S fuel))) (Some m) s
                   = h_report (handlers (S fuel)) (Some m) _).
  { cbn [handlers h_report]. unfold settings_report at 1.
    erewrite bind_eq by apply cache_get_eq.
    erewrite bind_eq by reflexivity.
    erewrite bind_eq by (apply maybe_edit_live; cbn; rewrite Hdel; exact Hlive).
    erewrite bind_eq by reflexivity.
    erewrite bind_eq.
    2:{ apply view_wait_eq with (i := Press 2) (rest := Idle :: rest).
        - cbn. rewrite Hsc. exact Hscript.
        - cbn. rewrite Hdel. apply bool_decide_eq_false_2. exact Hlive. }
    change (view_value (reports_view _ _ _ _) (Press 2)) with (VStr "Set Channel").
    rewrite in_keys_menu_actions, set_channel_not_registered.
    cbn [String.eqb]. rewrite bool_decide_eq_true_2 by reflexivity.
    erewrite try_else_exc; [| apply ask_idle; reflexivity | reflexivity].
    erewrite bind_eq.
    2:{ erewrite call_registered by apply menu_actions_get.
        cbn [handlers h_timeout_or_quit]. unfold timeout_or_quit.
        apply maybe_delete_live. cbn. rewrite Hdel. exact Hlive. }
    unfold roles_branches.
    rewrite !bool_decide_eq_false_2 by discriminate.
    unfold write_pinged_roles. subst record.
    erewrite bind_eq by (unfold lift; rewrite Hfound, role_ids_found; reflexivity).
    erewrite bind_eq by apply pool_execute_eq.
    erewrite bind_eq by apply cache_refresh_eq.
    reflexivity. }
  eexists. split; [exact Hmain |]. split; [| split].
  - subst record.
    cbn [trace db deleted add_event set_script set_parent set_deleted set_db
         set_db_cache].
    rewrite Htr, <- !app_assoc. reflexivity.
  - cbn [trace db deleted add_event set_script set_parent set_deleted set_db
         set_db_cache].
    apply elem_of_cons. left. reflexivity.
  - cbn [trace db deleted add_event set_script set_parent set_deleted set_db
         set_db_cache].
    rewrite Hdb. reflexivity.
Qed.

Lemma lookup_records_cache_fill (table : string) (s : Session) :
  lookup_records table (cache_fill table s) = lookup_records table s.
Proof.
  unfold lookup_records, cache_fill.
  destruct (db_cache s !! (table, guild_id)) as [r|] eqn:E; cbn.
  - rewrite E. reflexivity.
  - rewrite lookup_insert_eq. reflexivity.
Qed.

Lemma logging_names_categories (r r' : option (gmap string Cell)) :
  logging_names (log_channels_view r) = logging_names (log_channels_view r').
Proof.
  unfold logging_names, log_channels_view.
  induction log_categories as [|category l IH]; [reflexivity |].
  cbn [fmap list_fmap traverse fst]. cbn [fmap list_fmap] in IH.
  destruct (subscript log_event_strings category); try reflexivity.
  rewrite IH. reflexivity.
Qed.

(** C3 (the code departs from the claim).  In the Logging menu, a press on
    "Color logs" executes one [UPDATE ... WHERE guild_id] carrying the negated
    value and refreshes the cache, but the redraw is called with the [None]
    that [maybe_edit] returned: it raises [AttributeError] before anything is
    drawn, so the last thing the session does is the refresh.  The statement
    being no upsert, a guild without a row in [log_config] is left without
    one: nothing is persisted. *)
Theorem color_logs_toggle_not_redrawn (fuel m : nat) (s : Session)
    (rest : list Interaction) (names : list string) :
  m ∉ deleted s →
  script s = Press 2 :: rest →
  start_tolerates_none = true →
  let records := lookup_records "log_config" s in
  let is_color := color_view records in
  let q := Update "log_config" "color" (CBool (negb is_color)) guild_id in
  logging_names (log_channels_view records) = Ret names →
  ∃ s',
    h_logging (handlers (S (S fuel))) (Some m) s
    = (Exc (AttributeError "'NoneType' object has no attribute 'edit'"), s')
    ∧ trace s'
      = trace s
        ++ [Edited m (logging_embed names (log_channels_view records))
              (logging_view names (log_channels_view records) is_color);
            Executed q;
            Refreshed "log_config" guild_id]
    ∧ db s' = execute_sql q (db s)
    ∧ (db s !! ("log_config"%string, guild_id) = None → db s' = db s).
Proof.
  intros Hlive Hscript Htol records is_color q Hnames.
  destruct (cache_fill_frame "log_config" s) as (Hdb & Hpar & Htr & Hdel & Hsc & Hnm).
  destruct (cache_fill_frame "log_config" (cache_fill "log_config" s))
    as (Hdb' & Hpar' & Htr' & Hdel' & Hsc' & Hnm').
  pose proof (lookup_records_cache_fill "log_config" s) as Hsame.
  eassert (Hmain : h_logging (handlers (S (S fuel))) (Some m) s = (Exc _, _)).
  { cbn [handlers h_logging]. unfold settings_logging at 1.
    erewrite bind_eq by apply get_log_channel_ids_view_eq.
    erewrite bind_eq by (unfold lift; fold records; rewrite Hnames; reflexivity).
    erewrite bind_eq by apply is_color_enabled_eq.
    rewrite Hsame. fold records. fold is_color.
    erewrite bind_eq by reflexivity.
    erewrite bind_eq
      by (apply maybe_edit_live; cbn; rewrite Hdel', Hdel; exact Hlive).
    erewrite bind_eq by (unfold view_start; rewrite Htol; reflexivity).
    erewrite bind_eq.
    2:{ apply view_wait_eq with (i := Press 2) (rest := rest).
        - cbn. rewrite Hsc', Hsc. exact Hscript.
        - reflexivity. }
    change (view_value (logging_view _ _ is_color) (Press 2))
      with (VTuple "Color logs" (negb is_color)).
    rewrite in_keys_menu_actions. cbn [String.eqb Ascii.eqb Bool.eqb].
    fold q.
    erewrite bind_eq by apply pool_execute_eq.
    erewrite bind_eq by apply cache_refresh_eq.
    unfold settings_logging.
    erewrite bind_eq by apply get_log_channel_ids_view_eq.
    erewrite bind_eq
      by (unfold lift; rewrite (logging_names_categories _ records), Hnames;
          reflexivity).
    erewrite bind_eq by apply is_color_enabled_eq.
    erewrite bind_eq by reflexivity.
    reflexivity. }
  eexists. split; [exact Hmain |].
  (* what the refresh puts in the cache plays no part in what follows *)
  match goal with
  | |- context [set_db_cache ?f _] => generalize f; intros update
  end.
  match goal with |- trace ?st = _ ∧ _ => set (final := st) end.
  assert (Hfinal_db : db final = execute_sql q (db s)).
  { subst final. cbn [db set_parent].
    rewrite !(proj1 (cache_fill_frame _ _)).
    cbn [db set_db_cache set_db add_event set_script set_parent].
    rewrite Hdb', Hdb. reflexivity. }
  split; [| split; [exact Hfinal_db |]].
  - subst final. cbn [trace set_parent].
    rewrite !(proj1 (proj2 (proj2 (cache_fill_frame _ _)))).
    cbn [trace set_db_cache set_db add_event set_script set_parent].
    rewrite Htr', Htr, <- !app_assoc. reflexivity.
  - intros Hrow. rewrite Hfinal_db. subst q. cbn [execute_sql]. rewrite Hrow.
    reflexivity.
Qed.

(** ** An invariant of every session: what is looked up is registered *)

Section Safety.
Variable t0 : list Event.

Definition parent_ok (p : option string) : Prop :=
  ∀ menu, p = Some menu → menu = ""%string ∨ menu ∈ registered.

Definition lookups_ok (t : list Event) : Prop :=
  ∀ key, Lookup key ∈ t → key ∈ registered.

Definition Inv (s : Session) : Prop :=
  parent_ok (parent s) ∧ ∃ t, trace s = t0 ++ t ∧ lookups_ok t.

Definition safe {A} (m : M Session A) (Q : A → Prop) : Prop :=
  ∀ s, Inv s → Inv (m s).2 ∧ ∀ a, (m s).1 = Ret a → Q a.

Lemma Inv_frame (s s' : Session) :
  parent s' = parent s → trace s' = trace s → Inv s → Inv s'.
Proof. unfold Inv. intros -> ->. auto. Qed.

Lemma Inv_add_event (s : Session) (e : Event) :
  (∀ key, e = Lookup key → key ∈ registered) → Inv s → Inv (add_event e s).
Proof.
  intros He [Hp (t & Ht & Hok)]. split; [exact Hp |].
  exists (t ++ [e]). cbn. rewrite Ht, app_assoc. split; [reflexivity |].
  intros key Hin. apply elem_of_app in Hin as [Hin|Hin]; [auto |].
  apply list_elem_of_singleton in Hin. auto.
Qed.

Lemma Inv_set_parent (s : Session) (p : option string) :
  parent_ok p → Inv s → Inv (set_parent p s).
Proof. intros Hp [_ Ht]. split; [exact Hp | exact Ht]. Qed.

Ltac keep_inv :=
  repeat first
    [ assumption
    | apply Inv_add_event; [intros ? [=] |]
    | eapply Inv_frame; [reflexivity | reflexivity |] ].

Lemma safe_ret {A} (a : A) (Q : A → Prop) : Q a → safe (ret a) Q.
Proof. intros Hq s Hs. split; [exact Hs |]. intros a' [= <-]. exact Hq. Qed.

Lemma safe_raise {A} (e : Exception) (Q : A → Prop) : safe (raise e) Q.
Proof. intros s Hs. split; [exact Hs |]. intros a [=]. Qed.

Lemma safe_lift {A} (r : Res A) : safe (lift r) (λ a, r = Ret a).
Proof. intros s Hs. split; [exact Hs |]. intros a Ha. exact Ha. Qed.

Lemma safe_weaken {A} (m : M Session A) (Q R : A → Prop) :
  safe m Q → (∀ a, Q a → R a) → safe m R.
Proof. intros Hm Hqr s Hs. destruct (Hm s Hs) as [Hi Hq]. split; auto. Qed.

Lemma safe_bind {A B} (m : M Session A) (k : A → M Session B)
    (Q : A → Prop) (R : B → Prop) :
  safe m Q → (∀ a, Q a → safe (k a) R) → safe (bind m k) R.
Proof.
  intros Hm Hk s Hs. destruct (Hm s Hs) as [Hi Hq]. unfold bind.
  destruct (m s) as [[a|e| |] s']; cbn in *;
    try (split; [exact Hi | intros ? [=]]).
  apply (Hk a (Hq a eq_refl) s' Hi).
Qed.

Lemma safe_modify (f : Session → Session) :
  (∀ s, Inv s → Inv (f s)) → safe (modify f) (λ _, True).
Proof. intros Hf s Hs. split; [apply Hf, Hs | auto]. Qed.

Lemma safe_emit (e : Event) :
  (∀ key, e = Lookup key → key ∈ registered) → safe (emit e) (λ _, True).
Proof. intros He. apply safe_modify. intros s. apply Inv_add_event, He. Qed.

Lemma safe_get : safe get (λ ctx, parent_ok (parent ctx)).
Proof. intros s Hs. split; [exact Hs |]. intros a [= <-]. apply Hs. Qed.

Lemma safe_maybe_edit message embed components :
  safe (maybe_edit message embed components) (λ _, True).
Proof.
  intros s Hs. destruct message as [m|]; cbn; [| split; [exact Hs | intros ? [=]]].
  destruct (bool_decide (m ∈ deleted s)); cbn; (split; [keep_inv | auto]).
Qed.

Lemma safe_maybe_delete message : safe (maybe_delete message) (λ _, True).
Proof.
  intros s Hs. destruct message as [m|]; cbn; [| split; [exact Hs | intros ? [=]]].
  destruct (bool_decide (m ∈ deleted s)); cbn; (split; [keep_inv | auto]).
Qed.

Lemma safe_respond embed components : safe (respond embed components) (λ _, True).
Proof. intros s Hs. cbn. split; [keep_inv | auto]. Qed.

Lemma safe_view_start message : safe (view_start message) (λ _, True).
Proof.
  destruct message; cbn; [apply safe_ret; exact I |].
  destruct start_tolerates_none; [apply safe_ret; exact I | apply safe_raise].
Qed.

Lemma safe_next_interaction : safe next_interaction (λ _, True).
Proof.
  intros s Hs. unfold next_interaction. destruct (script s); cbn; (split; [keep_inv | auto]).
Qed.

Lemma safe_view_wait message items :
  safe (view_wait message items)
    (λ v, v = VStr "Timeout" ∨ ∃ i, v = view_value items i).
Proof.
  unfold view_wait. eapply safe_bind; [apply safe_next_interaction |].
  intros i _ s Hs. cbn. split; [exact Hs |]. intros a [= <-].
  destruct (gone message s); eauto.
Qed.

Lemma safe_pool_execute q : safe (pool_execute q) (λ _, True).
Proof.
  unfold pool_execute. eapply safe_bind; [apply safe_emit; intros ? [=] |].
  intros _ _. apply safe_modify. intros s Hs. keep_inv.
Qed.

Lemma safe_cache_get table : safe (cache_get table) (λ _, True).
Proof.
  intros s Hs. unfold cache_get.
  destruct (db_cache s !! (table, guild_id)); cbn; (split; [keep_inv | auto]).
Qed.

Lemma safe_cache_refresh table : safe (cache_refresh table) (λ _, True).
Proof.
  unfold cache_refresh. eapply safe_bind; [apply safe_emit; intros ? [=] |].
  intros _ _. apply safe_modify. intros s Hs. keep_inv.
Qed.

Lemma safe_bind_any {A B} (m : M Session A) (k : A → M Session B) (R : B → Prop) :
  safe m (λ _, True) → (∀ a, safe (k a) R) → safe (bind m k) R.
Proof. intros Hm Hk. eapply safe_bind; [exact Hm | intros a _; apply Hk]. Qed.

Lemma safe_any {A} (m : M Session A) (Q : A → Prop) :
  safe m Q → safe m (λ _, True).
Proof. intros H. eapply safe_weaken; [exact H | auto]. Qed.

Lemma safe_lift_any {A} (r : Res A) : safe (lift r) (λ _, True).
Proof. eapply safe_any, safe_lift. Qed.

Lemma safe_get_settings : safe get_settings (λ _, True).
Proof.
  unfold get_settings. apply safe_bind_any; [apply safe_cache_get |].
  intros. apply safe_ret. exact I.
Qed.

Lemma safe_get_log_channel_ids_view : safe get_log_channel_ids_view (λ _, True).
Proof.
  unfold get_log_channel_ids_view. apply safe_bind_any; [apply safe_cache_get |].
  intros. apply safe_ret. exact I.
Qed.

Lemma safe_is_color_enabled : safe is_color_enabled (λ _, True).
Proof.
  unfold is_color_enabled. apply safe_bind_any; [apply safe_cache_get |].
  intros. apply safe_ret. exact I.
Qed.

Lemma safe_set_log_channel log_event channel :
  safe (set_log_channel log_event channel) (λ _, True).
Proof.
  unfold set_log_channel.
  apply safe_bind_any; [apply safe_emit; intros ? [=] |]. intros _.
  apply safe_bind_any; [apply safe_modify; intros s Hs; keep_inv |]. intros _.
  apply safe_modify. intros s Hs. keep_inv.
Qed.

Lemma safe_ask options return_type embed placeholder ignore message :
  safe (ask options return_type embed placeholder ignore message) (λ _, True).
Proof.
  unfold ask. apply safe_bind_any; [apply safe_emit; intros ? [=] |]. intros _.
  apply safe_bind_any; [apply safe_next_interaction |]. intros i.
  destruct i as [n|n j|text|]; try apply safe_raise; try apply safe_lift_any.
  destruct (options !! j) as [o|]; [| apply safe_raise].
  destruct (opt_value o); apply safe_lift_any.
Qed.

Lemma safe_try_else {A B} (body : M Session A)
    (handlers : Exception → option (M Session B)) (orelse : A → M Session B)
    (R : B → Prop) :
  safe body (λ _, True) →
  (∀ e h, handlers e = Some h → safe h R) →
  (∀ a, safe (orelse a) R) →
  safe (try_else body handlers orelse) R.
Proof.
  intros Hb Hh Ho s Hs. destruct (Hb s Hs) as [Hi _]. unfold try_else.
  destruct (body s) as [[a|e| |] s']; cbn in *;
    try (split; [exact Hi | intros ? [=]]).
  - apply (Ho a s' Hi).
  - destruct (handlers e) as [h|] eqn:E.
    + apply (Hh e h E s' Hi).
    + split; [exact Hi | intros ? [=]].
Qed.

(** Every function of the table keeps the invariant. *)
Definition actions_safe (actions : Actions) : Prop :=
  actions.*1 = registered
  ∧ ∀ key h, dict_get actions key = Some h → ∀ message, safe (h message) (λ _, True).

Lemma safe_call actions key message :
  actions_safe actions → key ∈ registered →
  safe (call actions key message) (λ _, True).
Proof.
  intros [_ Ha] Hk. unfold call.
  apply safe_bind_any; [apply safe_emit; intros ? [= <-]; exact Hk |]. intros _.
  destruct (dict_get actions key) as [h|] eqn:E; [eapply Ha, E | apply safe_raise].
Qed.

Lemma safe_call_value actions v message :
  actions_safe actions →
  (∃ key, v = VStr key ∧ key ∈ registered) →
  safe (call_value actions v message) (λ _, True).
Proof. intros Ha (key & -> & Hk). apply safe_call; assumption. Qed.

Lemma in_keys_registered actions v :
  actions_safe actions → in_keys actions v = true →
  ∃ key, v = VStr key ∧ key ∈ registered.
Proof.
  intros [Hk _] Hin. destruct v as [|key| |]; try discriminate.
  exists key. split; [reflexivity |]. rewrite <- Hk.
  apply bool_decide_eq_true in Hin. exact Hin.
Qed.

Lemma timeout_registered : "Timeout"%string ∈ registered.
Proof. apply (bool_decide_unpack _). vm_compute. exact I. Qed.

Lemma main_view_values i :
  ∃ key, view_value main_view i = VStr key ∧ key ∈ registered.
Proof.
  destruct i as [n|n j|text|]; cbn;
    try (exists "Timeout"%string; split; [reflexivity | apply timeout_registered]).
  - do 5 (destruct n as [|n];
          [eexists; split; [reflexivity |];
           apply (bool_decide_unpack _); vm_compute; exact I |]).
    exists "Timeout"%string; split; [reflexivity | apply timeout_registered].
  - do 5 (destruct n as [|n];
          [exists "Timeout"%string; split; [reflexivity | apply timeout_registered] |]).
    exists "Timeout"%string; split; [reflexivity | apply timeout_registered].
Qed.

Lemma back_view_values i :
  ∃ key, view_value (ButtonMenuView [] true) i = VStr key ∧ key ∈ registered.
Proof.
  destruct i as [n|n j|text|]; cbn;
    try (exists "Timeout"%string; split; [reflexivity | apply timeout_registered]).
  - destruct n as [|n].
    + eexists; split; [reflexivity |]. apply (bool_decide_unpack _); vm_compute; exact I.
    + exists "Timeout"%string; split; [reflexivity | apply timeout_registered].
  - destruct n as [|n];
      exists "Timeout"%string; (split; [reflexivity | apply timeout_registered]).
Qed.

Lemma safe_wait_then_call actions message items :
  actions_safe actions →
  (∀ i, ∃ key, view_value items i = VStr key ∧ key ∈ registered) →
  safe (let* value := view_wait message items in call_value actions value message)
    (λ _, True).
Proof.
  intros Ha Hv. eapply safe_bind; [apply safe_view_wait |].
  intros v [->|[i ->]]; apply safe_call_value; auto.
  exists "Timeout"%string. split; [reflexivity | apply timeout_registered].
Qed.

Lemma safe_error_view_handler actions message embed return_to :
  actions_safe actions → return_to ∈ registered →
  safe (error_view_handler actions message embed return_to) (λ _, True).
Proof.
  intros Ha Hr. unfold error_view_handler.
  apply safe_bind_any.
  { apply safe_modify. intros s. apply Inv_set_parent. intros menu [= <-]. auto. }
  intros _. apply safe_bind_any; [apply safe_maybe_edit |]. intros _.
  apply safe_bind_any; [apply safe_view_start |]. intros _.
  apply safe_wait_then_call; [exact Ha | apply back_view_values].
Qed.

Lemma main_registered_parent : parent_ok (Some "Main"%string).
Proof.
  intros menu [= <-]. right. apply (bool_decide_unpack _). vm_compute. exact I.
Qed.

Lemma safe_settings_main actions message :
  actions_safe actions → safe (settings_main actions message) (λ _, True).
Proof.
  intros Ha. unfold settings_main.
  apply safe_bind_any.
  { apply safe_modify. intros s. apply Inv_set_parent. intros menu [=]. }
  intros _. eapply safe_bind with (Q := λ _, True).
  - destruct message.
    + apply safe_bind_any; [apply safe_maybe_edit |]. intros _.
      apply safe_bind_any; [apply safe_view_start |]. intros _.
      apply safe_ret. exact I.
    + apply safe_bind_any; [apply safe_respond |]. intros sent.
      apply safe_bind_any; [apply safe_view_start |]. intros _.
      apply safe_ret. exact I.
  - intros message' _. apply safe_wait_then_call; [exact Ha | apply main_view_values].
Qed.

Definition handler_safe (h : Handler) : Prop :=
  ∀ message, safe (h message) (λ _, True).

Lemma safe_self_after_write (q : Sql) (table : string) (self : Handler)
    (message : option nat) :
  handler_safe self →
  safe (pool_execute q ;; cache_refresh table ;; self message) (λ _, True).
Proof.
  intros Hself.
  apply safe_bind_any; [apply safe_pool_execute |]. intros _.
  apply safe_bind_any; [apply safe_cache_refresh |]. intros _. apply Hself.
Qed.

Lemma safe_set_parent_main :
  safe (modify (set_parent (Some "Main"%string))) (λ _, True).
Proof.
  apply safe_modify. intros s. apply Inv_set_parent, main_registered_parent.
Qed.

Lemma safe_guarded actions message (otherwise : M Session unit) v :
  actions_safe actions →
  safe otherwise (λ _, True) →
  safe (if in_keys actions v then call_value actions v message else otherwise)
    (λ _, True).
Proof.
  intros Ha Ho. destruct (in_keys actions v) eqn:E; [| exact Ho].
  apply safe_call_value; [exact Ha |]. eapply in_keys_registered; eauto.
Qed.

Lemma safe_settings_mod actions self message :
  actions_safe actions → handler_safe self →
  safe (settings_mod actions self message) (λ _, True).
Proof.
  intros Ha Hself. unfold settings_mod.
  apply safe_bind_any; [apply safe_get_settings |]. intros mod_settings.
  apply safe_bind_any; [apply safe_lift_any |]. intros labels.
  apply safe_bind_any; [apply safe_set_parent_main |]. intros _.
  apply safe_bind_any; [apply safe_maybe_edit |]. intros _.
  apply safe_bind_any; [apply safe_view_start |]. intros _.
  apply safe_bind_any; [eapply safe_any, safe_view_wait |]. intros v.
  apply safe_guarded; [exact Ha |].
  apply safe_bind_any; [apply safe_lift_any |]. intros option.
  apply safe_bind_any; [apply safe_lift_any |]. intros current.
  apply safe_self_after_write, Hself.
Qed.

Lemma quit_registered : "Quit"%string ∈ registered.
Proof. apply (bool_decide_unpack _). vm_compute. exact I. Qed.
Lemma logging_registered : "Logging"%string ∈ registered.
Proof. apply (bool_decide_unpack _). vm_compute. exact I. Qed.
Lemma reports_registered : "Reports"%string ∈ registered.
Proof. apply (bool_decide_unpack _). vm_compute. exact I. Qed.

Lemma safe_settings_logging actions self message :
  actions_safe actions → handler_safe self →
  safe (settings_logging actions self message) (λ _, True).
Proof.
  intros Ha Hself. unfold settings_logging.
  apply safe_bind_any; [apply safe_get_log_channel_ids_view |]. intros log_channels.
  apply safe_bind_any; [apply safe_lift_any |]. intros names.
  apply safe_bind_any; [apply safe_is_color_enabled |]. intros is_color.
  apply safe_bind_any; [apply safe_set_parent_main |]. intros _.
  apply safe_bind_any; [apply safe_maybe_edit |]. intros _.
  apply safe_bind_any; [apply safe_view_start |]. intros _.
  apply safe_bind_any; [eapply safe_any, safe_view_wait |]. intros v.
  apply safe_guarded; [exact Ha |].
  destruct v as [|log_event|z|label state]; try apply safe_lift_any.
  - apply safe_bind_any; [apply safe_lift_any |]. intros event_name.
    apply safe_try_else; [apply safe_ask | |].
    + intros e h He. destruct e; try discriminate; injection He as <-.
      * apply safe_error_view_handler; [exact Ha | apply logging_registered].
      * apply safe_call; [exact Ha | apply quit_registered].
    + intros channel. apply safe_bind_any; [apply safe_lift_any |]. intros id.
      apply safe_bind_any; [apply safe_set_log_channel |]. intros _. apply Hself.
  - destruct (String.eqb label "Color logs"); [| apply safe_lift_any].
    apply safe_self_after_write, Hself.
Qed.

Lemma safe_write_pinged_roles self message pinged_roles :
  handler_safe self →
  safe (write_pinged_roles self message pinged_roles) (λ _, True).
Proof.
  intros Hself. unfold write_pinged_roles.
  apply safe_bind_any; [apply safe_lift_any |]. intros ids.
  apply safe_self_after_write, Hself.
Qed.

Lemma safe_roles_handlers actions self message pinged_roles description e h :
  actions_safe actions → handler_safe self →
  match e with
  | TypeError =>
      Some (error_view_handler actions message (role_not_found_embed description)
              "Reports")
  | AsyncTimeoutError =>
      Some (call actions "Quit" message ;;
            write_pinged_roles self message pinged_roles)
  | _ => None
  end = Some h →
  safe h (λ _, True).
Proof.
  intros Ha Hself He. destruct e; try discriminate; injection He as <-.
  - apply safe_error_view_handler; [exact Ha | apply reports_registered].
  - apply safe_bind_any; [apply safe_call; [exact Ha | apply quit_registered] |].
    intros _. apply safe_write_pinged_roles, Hself.
Qed.

Lemma safe_roles_branches actions self message v pinged_roles unadded_roles :
  actions_safe actions → handler_safe self →
  safe (roles_branches actions self message v pinged_roles unadded_roles)
    (λ _, True).
Proof.
  intros Ha Hself. unfold roles_branches.
  destruct (bool_decide (v = VStr "Add Role")).
  { apply safe_bind_any; [apply safe_lift_any |]. intros options.
    apply safe_try_else.
    - apply safe_bind_any; [apply safe_ask |]. intros role. apply safe_ret. exact I.
    - intros e h He. eapply safe_roles_handlers; eauto.
    - intros roles'. apply safe_write_pinged_roles, Hself. }
  destruct (bool_decide (v = VStr "Remove Role")).
  { apply safe_bind_any; [apply safe_lift_any |]. intros options.
    apply safe_try_else.
    - apply safe_bind_any; [apply safe_ask |]. intros role.
      destruct (bool_decide _); [apply safe_ret; exact I | apply safe_raise].
    - intros e h He. eapply safe_roles_handlers; eauto.
    - intros roles'. apply safe_write_pinged_roles, Hself. }
  apply safe_write_pinged_roles, Hself.
Qed.

Lemma safe_settings_report actions self message :
  actions_safe actions → handler_safe self →
  safe (settings_report actions self message) (λ _, True).
Proof.
  intros Ha Hself. unfold settings_report.
  apply safe_bind_any; [apply safe_cache_get |]. intros records.
  apply safe_bind_any; [apply safe_set_parent_main |]. intros _.
  apply safe_bind_any; [apply safe_maybe_edit |]. intros _.
  apply safe_bind_any; [apply safe_view_start |]. intros _.
  apply safe_bind_any; [eapply safe_any, safe_view_wait |]. intros v.
  apply safe_guarded; [exact Ha |].
  destruct (match v with
            | VTuple label state =>
                if String.eqb label "Enabled" then Some state else None
            | _ => None
            end) as [state|].
  { apply safe_self_after_write, Hself. }
  destruct (bool_decide (v = VStr "Set Channel"));
    [| apply safe_roles_branches; assumption].
  apply safe_try_else; [apply safe_ask | |].
  - intros e h He. destruct e; try discriminate; injection He as <-.
    + apply safe_error_view_handler; [exact Ha | apply reports_registered].
    + apply safe_bind_any; [apply safe_call; [exact Ha | apply quit_registered] |].
      intros _. apply safe_roles_branches; assumption.
  - intros channel. apply safe_bind_any; [apply safe_lift_any |]. intros id.
    apply safe_self_after_write, Hself.
Qed.

Lemma safe_back actions message :
  actions_safe actions → safe (back actions message) (λ _, True).
Proof.
  intros Ha. unfold back. eapply safe_bind; [apply safe_get |].
  intros ctx Hp. cbv beta in Hp.
  destruct (parent ctx) as [menu|] eqn:E; [| apply safe_ret; exact I].
  destruct (String.eqb_spec menu "") as [->|Hne]; [apply safe_ret; exact I |].
  apply safe_call; [exact Ha |].
  destruct (Hp menu eq_refl); [contradiction | assumption].
Qed.

Lemma handlers_safe (fuel : nat) : actions_safe (menu_actions (handlers fuel)).
Proof.
  induction fuel as [|fuel IH].
  - split; [reflexivity |]. intros key h Hk message s Hs.
    assert (h = out_of_fuel) as ->.
    { cbn in Hk. repeat case_decide; congruence. }
    split; [exact Hs | intros ? [=]].
  - assert (Hbelow : ∀ key h, dict_get (menu_actions (handlers fuel)) key = Some h
                              → handler_safe h)
      by (intros key h Hk; exact (proj2 IH key h Hk)).
    split; [reflexivity |]. intros key h Hk.
    cbn [handlers menu_actions h_main h_mod h_automod h_logging h_report
         h_timeout_or_quit h_back dict_get] in Hk.
    repeat case_decide; try discriminate; injection Hk as <-; intros message.
    + apply safe_settings_main, IH.
    + apply safe_settings_mod; [exact IH |]. apply (Hbelow "Moderation"%string). reflexivity.
    + apply safe_ret. exact I.
    + apply safe_settings_logging; [exact IH |]. apply (Hbelow "Logging"%string). reflexivity.
    + apply safe_settings_report; [exact IH |]. apply (Hbelow "Reports"%string). reflexivity.
    + apply safe_maybe_delete.
    + apply safe_maybe_delete.
    + apply safe_back, IH.
Qed.

End Safety.

(** C7 (as amended).  Whatever the guild, the fuel and the script, every key a
    session looks up in [menu_actions] is one of its eight registered names; a
    key that is not registered would make the lookup raise [KeyError], after
    which no menu function runs. *)
Theorem only_registered_keys_are_dispatched (fuel : nat) (s : Session) :
  (∀ key, Lookup key ∈ drop (length (trace s)) (trace (settings_cmd fuel s).2) →
          key ∈ registered)
  ∧ (∀ key message s', key ∉ registered →
       call (menu_actions (handlers fuel)) key message s'
       = (Exc (KeyError key), add_event (Lookup key) s')).
Proof.
  split.
  - unfold settings_cmd. erewrite bind_eq by reflexivity.
    assert (Hmain : handler_safe (trace s) (h_main (handlers fuel))).
    { intros message.
      eapply (proj2 (handlers_safe (trace s) fuel) "Main"%string). reflexivity. }
    destruct (Hmain None (set_parent None s)) as [[_ (t & Ht & Hok)] _].
    { split; [intros menu [=] |]. exists []. split; [symmetry; apply app_nil_r |].
      intros k Hk. apply elem_of_nil in Hk. contradiction. }
    intros key. rewrite Ht, drop_app_length. apply Hok.
  - intros key message s' Hk. unfold call.
    erewrite bind_eq by reflexivity.
    destruct (dict_get (menu_actions (handlers fuel)) key) as [h|] eqn:E;
      [| reflexivity].
    exfalso. apply Hk. clear Hk.
    assert (Hin : key ∈ (menu_actions (handlers fuel)).*1).
    { generalize dependent (menu_actions (handlers fuel)). intros l.
      induction l as [|[k v] l IH]; cbn; [discriminate |].
      case_decide; [subst; intros; apply elem_of_cons; auto |].
      intros Hl. apply elem_of_cons. right. auto. }
    exact Hin.
Qed.

End Menus.

Section GetKey.
Context {K V : Type} `{EqDecision K, EqDecision V}.

Lemma index_Some (x : V) (l : list V) (i : nat) :
  index x l = Some i →
  l !! i = Some x ∧ ∀ j y, (j < i)%nat → l !! j = Some y → y ≠ x.
Proof.
  revert i. induction l as [|y l IH]; intros i; simpl; [discriminate |].
  destruct (decide (y = x)) as [->|Hne].
  - intros [= <-]. split; [reflexivity |]. intros j z Hj. lia.
  - destruct (index x l) as [i'|] eqn:E; simpl; [| discriminate].
    intros [= <-]. destruct (IH i' eq_refl) as [Hl Hfirst].
    split; [exact Hl |]. intros [|j] z Hj Hz; simpl in Hz.
    + congruence.
    + apply (Hfirst j); [lia | exact Hz].
Qed.

Lemma index_elem_of (x : V) (l : list V) :
  x ∈ l → ∃ i, index x l = Some i.
Proof.
  induction l as [|y l IH]; intros Hin.
  - apply elem_of_nil in Hin. contradiction.
  - simpl. destruct (decide (y = x)); [eauto |].
    apply elem_of_cons in Hin as [->|Hin]; [congruence |].
    destruct (IH Hin) as [i ->]. simpl. eauto.
Qed.

Lemma dict_get_lookup (d : list (K * V)) (k : K) (x : V) :
  dict_get d k = Some x → ∃ j, d !! j = Some (k, x).
Proof.
  induction d as [|[k' v] d IH]; simpl; [discriminate |].
  destruct (decide (k' = k)) as [->|Hne].
  - intros [= ->]. exists 0%nat. reflexivity.
  - intros Hd. destruct (IH Hd) as [j Hj]. exists (S j). exact Hj.
Qed.

(** C10.  When [v] occurs among the values of [d], [get_key d v] is the key of
    the first entry, in insertion order, whose value is [v]; hence, when the
    values of [d] are pairwise distinct, [get_key d (d[k])] is [k] for every
    key [k] of [d]. *)
Theorem get_key_first_and_round_trip (d : list (K * V)) :
  (∀ v, v ∈ d.*2 →
     ∃ i k, get_key d v = Ret k
            ∧ d !! i = Some (k, v)
            ∧ ∀ j kv, (j < i)%nat → d !! j = Some kv → kv.2 ≠ v)
  ∧ (NoDup d.*2 → ∀ k x, dict_get d k = Some x → get_key d x = Ret k).
Proof.
  assert (Hfirst : ∀ v, v ∈ d.*2 →
     ∃ i k, get_key d v = Ret k
            ∧ d !! i = Some (k, v)
            ∧ ∀ j kv, (j < i)%nat → d !! j = Some kv → kv.2 ≠ v).
  { intros v Hin. destruct (index_elem_of v _ Hin) as [i Hi].
    destruct (index_Some _ _ _ Hi) as [Hv Hbefore].
    rewrite list_lookup_fmap in Hv.
    destruct (d !! i) as [[k v']|] eqn:Hd; simpl in Hv; [| discriminate].
    injection Hv as ->. exists i, k. split; [| split; [exact Hd |]].
    - unfold get_key. rewrite Hi, list_lookup_fmap, Hd. reflexivity.
    - intros j kv Hj Hkv. apply (Hbefore j); [exact Hj |].
      rewrite list_lookup_fmap, Hkv. reflexivity. }
  split; [exact Hfirst |].
  intros Hnd k x Hget. destruct (dict_get_lookup _ _ _ Hget) as [j Hj].
  assert (Hin : x ∈ d.*2).
  { apply list_elem_of_lookup. exists j. rewrite list_lookup_fmap, Hj. reflexivity. }
  destruct (Hfirst x Hin) as (i & k' & Hk & Hi & _).
  assert (i = j).
  { apply (NoDup_lookup _ _ _ x Hnd); rewrite list_lookup_fmap.
    - rewrite Hi. reflexivity.
    - rewrite Hj. reflexivity. }
  subst j. rewrite Hi in Hj. injection Hj as ->. exact Hk.
Qed.
End GetKey.

(** ** Two more invariants of every session: whose rows are written, and
    that the cache is refreshed after every statement *)

Definition sql_table (q : Sql) : string :=
  match q with Upsert t _ _ _ | Update t _ _ _ => t end.
Definition sql_guild (q : Sql) : Z :=
  match q with Upsert _ _ _ g | Update _ _ _ g => g end.

(** The tables the menus write. *)
Definition settings_tables : list string := ["mod_config"; "log_config"; "reports"].

(** [refreshed t]: in [t] every statement is followed at once by the refresh
    of its table and guild; [pending] is the statement still waiting for
    it. *)
Fixpoint refreshed_from (pending : option Sql) (t : list Event) : bool :=
  match t with
  | [] => match pending with None => true | Some _ => false end
  | e :: rest =>
      match pending with
      | Some q =>
          match e with
          | Refreshed table guild =>
              String.eqb table (sql_table q) && (guild =? sql_guild q)
              && refreshed_from None rest
          | _ => false
          end
      | None =>
          match e with
          | Executed q => refreshed_from (Some q) rest
          | _ => refreshed_from None rest
          end
      end
  end.

Definition refreshed (t : list Event) : bool := refreshed_from None t.

Section GetKeyErrors.
Context {K V : Type} `{EqDecision K, EqDecision V}.

Lemma index_None (x : V) (l : list V) : index x l = None ↔ x ∉ l.
Proof.
  split.
  - intros Hnone Hin. destruct (index_elem_of x l Hin) as [i Hi]. congruence.
  - intros Hnotin. destruct (index x l) as [i|] eqn:E; [| reflexivity].
    exfalso. apply Hnotin. apply index_Some in E as [E _].
    eapply list_elem_of_lookup_2, E.
Qed.

(** With distinct values, the key of an entry is found back from its value. *)
Lemma get_key_of_dict_get (d : list (K * V)) (k : K) (x : V) :
  NoDup d.*2 → dict_get d k = Some x → get_key d x = Ret k.
Proof.
  intros Hnd Hget. destruct (dict_get_lookup _ _ _ Hget) as [j Hj].
  assert (Hin : x ∈ d.*2).
  { apply list_elem_of_lookup. exists j. rewrite list_lookup_fmap, Hj. reflexivity. }
  destruct (index_elem_of x _ Hin) as [i Hi].
  destruct (index_Some _ _ _ Hi) as [Hv _].
  assert (i = j) as ->.
  { apply (NoDup_lookup _ _ _ x Hnd); [exact Hv |].
    rewrite list_lookup_fmap, Hj. reflexivity. }
  unfold get_key. rewrite Hi, list_lookup_fmap, Hj. reflexivity.
Qed.

(** X13.  [get_key] raises [ValueError] exactly when the value is not in the
    dictionary, and raises nothing else; a key it returns does hold that
    value in some entry. *)
Theorem get_key_error_iff_absent (d : list (K * V)) (v : V) :
  (get_key d v = Exc ValueError ↔ v ∉ d.*2)
  ∧ (∀ e, get_key d v = Exc e → e = ValueError)
  ∧ (∀ k, get_key d v = Ret k → (k, v) ∈ d).
Proof.
  unfold get_key. destruct (index v d.*2) as [i|] eqn:Hi.
  - destruct (index_Some _ _ _ Hi) as [Hv _].
    rewrite list_lookup_fmap in Hv. rewrite list_lookup_fmap.
    destruct (d !! i) as [[k v']|] eqn:Hd; [| discriminate Hv].
    cbn in Hv. injection Hv as ->. cbn.
    split; [split; [discriminate |] |].
    + intros Hnotin. exfalso. apply Hnotin.
      apply list_elem_of_fmap. exists (k, v). split; [reflexivity |].
      eapply list_elem_of_lookup_2, Hd.
    + split; [discriminate |].
      intros k' [= <-]. eapply list_elem_of_lookup_2, Hd.
  - apply index_None in Hi.
    split; [split; auto |]. split; [intros e [= <-]; reflexivity |].
    discriminate.
Qed.

End GetKeyErrors.

Section Sessions.
Context {world : World}.

(** ** Leaving the main menu *)

Lemma respond_eq (embed : Embed) (components : list Item) (s : Session) :
  respond embed components s
  = (Ret (next_message s),
     set_next_message (S (next_message s))
       (add_event (Responded (next_message s) embed components) s)).
Proof. reflexivity. Qed.

(** X14.  [/settings] followed by a press on Quit, or by no press until the
    view times out: the menu is sent, the action is looked up, the menu
    message is deleted, and the command returns; nothing is written. *)
Theorem main_menu_quit_deletes_message (fuel : nat) (s : Session)
    (i : Interaction) (rest : list Interaction) (key : string) :
  script s = i :: rest →
  next_message s ∉ deleted s →
  view_value main_view i = VStr key →
  key = "Quit"%string ∨ key = "Timeout"%string →
  ∃ s',
    settings_cmd (S (S fuel)) s = (Ret tt, s')
    ∧ trace s'
      = trace s ++ [Responded (next_message s) main_embed main_view;
                    Lookup key; Deleted (next_message s)]
    ∧ deleted s' = next_message s :: deleted s
    ∧ db s' = db s
    ∧ script s' = rest.
Proof.
  intros Hscript Hfresh Hvalue Hkey.
  eassert (Hmain : settings_cmd (S (S fuel)) s = (Ret tt, _)).
  { unfold settings_cmd. erewrite bind_eq by reflexivity.
    cbn [handlers h_main]. unfold settings_main.
    erewrite bind_eq by reflexivity.
    erewrite bind_eq.
    2:{ erewrite bind_eq by apply respond_eq.
        erewrite bind_eq by reflexivity. reflexivity. }
    erewrite bind_eq.
    2:{ apply view_wait_eq with (i := i) (rest := rest).
        - exact Hscript.
        - apply bool_decide_eq_false_2. exact Hfresh. }
    rewrite Hvalue. cbn [call_value].
    erewrite call_registered.
    2:{ destruct Hkey as [-> | ->]; apply menu_actions_get. }
    cbn [handlers h_timeout_or_quit]. unfold timeout_or_quit.
    apply maybe_delete_live. exact Hfresh. }
  eexists. split; [exact Hmain |].
  cbn [trace db deleted script add_event set_script set_parent set_deleted
       set_next_message].
  rewrite <- !app_assoc. repeat split.
Qed.

(** X15.  [/settings] followed by a press on "Auto-Moderation":
    [settings_automod] is a stub, so the command returns at once; the menu
    message stays on display, its view is no longer waited on, and nothing is
    written. *)
Theorem auto_moderation_ends_session (fuel : nat) (s : Session)
    (rest : list Interaction) :
  script s = Press 2 :: rest →
  next_message s ∉ deleted s →
  ∃ s',
    settings_cmd (S (S fuel)) s = (Ret tt, s')
    ∧ trace s'
      = trace s ++ [Responded (next_message s) main_embed main_view;
                    Lookup "Auto-Moderation"]
    ∧ deleted s' = deleted s
    ∧ db s' = db s
    ∧ script s' = rest.
Proof.
  intros Hscript Hfresh.
  eassert (Hmain : settings_cmd (S (S fuel)) s = (Ret tt, _)).
  { unfold settings_cmd. erewrite bind_eq by reflexivity.
    cbn [handlers h_main]. unfold settings_main.
    erewrite bind_eq by reflexivity.
    erewrite bind_eq.
    2:{ erewrite bind_eq by apply respond_eq.
        erewrite bind_eq by reflexivity. reflexivity. }
    erewrite bind_eq.
    2:{ apply view_wait_eq with (i := Press 2) (rest := rest).
        - exact Hscript.
        - apply bool_decide_eq_false_2. exact Hfresh. }
    change (view_value main_view (Press 2)) with (VStr "Auto-Moderation").
    cbn [call_value].
    erewrite call_registered by apply menu_actions_get.
    reflexivity. }
  eexists. split; [exact Hmain |].
  cbn [trace db deleted script add_event set_script set_parent set_deleted
       set_next_message].
  rewrite <- !app_assoc. repeat split.
Qed.

(** ** The Reports menu at work *)

Lemma view_wait_suspended (message : option nat) (items : list Item) (s : Session) :
  script s = [] → view_wait message items s = (Suspended, s).
Proof. intros Hs. unfold view_wait, bind, next_interaction. rewrite Hs. reflexivity. Qed.

Lemma bind_suspended {A B} (m : M Session A) (k : A → M Session B) (s s' : Session) :
  m s = (Suspended, s') → bind m k s = (Suspended, s').
Proof. intros H. unfold bind. rewrite H. reflexivity. Qed.

(** The Reports menu drawn on a message that is on display, with no
    interaction to come: it is left waiting. *)
Lemma report_draw_waits (fuel m : nat) (s : Session) :
  m ∉ deleted s →
  script s = [] →
  let record := default default_reports_row (lookup_records "reports" s) in
  let pinged_roles := report_pinged_roles record in
  ∃ s',
    h_report (handlers (S fuel)) (Some m) s = (Suspended, s')
    ∧ trace s'
      = trace s
        ++ [Edited m (reports_embed (report_channel record) pinged_roles)
              (reports_view record (report_channel record) pinged_roles
                 (report_unadded_roles pinged_roles))]
    ∧ db s' = db s.
Proof.
  intros Hlive Hscript record pinged_roles.
  destruct (cache_fill_frame "reports" s) as (Hdb & Hpar & Htr & Hdel & Hsc & Hnm).
  eassert (Hmain : h_report (handlers (S fuel)) (Some m) s = (Suspended, _)).
  { change (h_report (handlers (S fuel)))
      with (settings_report (menu_actions (handlers fuel))
              (h_report (handlers fuel))).
    unfold settings_report at 1.
    erewrite bind_eq by apply cache_get_eq.
    erewrite bind_eq by reflexivity.
    erewrite bind_eq by (apply maybe_edit_live; cbn; rewrite Hdel; exact Hlive).
    erewrite bind_eq by reflexivity.
    apply bind_suspended. apply view_wait_suspended.
    cbn. rewrite Hsc. exact Hscript. }
  eexists. split; [exact Hmain |].
  cbn [trace db add_event set_parent]. rewrite Htr, Hdb. split; reflexivity.
Qed.

(** A press on the "Enabled" button, up to the redraw. *)
Lemma report_toggle_step (fuel m : nat) (s : Session)
    (rest : list Interaction) (row : gmap string Cell) (c : Channel) :
  m ∉ deleted s →
  script s = Press 1 :: rest →
  lookup_records "reports" s = Some row →
  report_channel row = Some c →
  let old := cell_truthy (cell row "is_enabled") in
  let q := Upsert "reports" "is_enabled" (CBool (negb old)) guild_id in
  let pinged_roles := report_pinged_roles row in
  ∃ s',
    h_report (handlers (S (S fuel))) (Some m) s
    = h_report (handlers (S fuel)) (Some m) s'
    ∧ trace s'
      = trace s
        ++ [Edited m (reports_embed (Some c) pinged_roles)
              (reports_view row (Some c) pinged_roles
                 (report_unadded_roles pinged_roles));
            Executed q;
            Refreshed "reports" guild_id]
    ∧ db s' = execute_sql q (db s)
    ∧ lookup_records "reports" s'
      = Some (<["is_enabled"%string := CBool (negb old)]>
                (default ∅ (db s !! ("reports"%string, guild_id))))
    ∧ script s' = rest
    ∧ deleted s' = deleted s.
Proof.
  intros Hlive Hscript Hlk Hchan old q pinged_roles.
  destruct (cache_fill_frame "reports" s) as (Hdb & Hpar & Htr & Hdel & Hsc & Hnm).
  eassert (Hmain : h_report (handlers (S (S fuel))) (Some m) s
                   = h_report (handlers (S fuel)) (Some m) _).
  { change (h_report (handlers (S (S fuel))))
      with (settings_report (menu_actions (handlers (S fuel)))
              (h_report (handlers (S fuel)))).
    unfold settings_report at 1.
    erewrite bind_eq by apply cache_get_eq.
    cbv zeta. rewrite Hlk. cbn [default from_option id]. rewrite Hchan.
    fold pinged_roles.
    erewrite bind_eq by reflexivity.
    erewrite bind_eq by (apply maybe_edit_live; cbn; rewrite Hdel; exact Hlive).
    erewrite bind_eq by reflexivity.
    erewrite bind_eq.
    2:{ apply view_wait_eq with (i := Press 1) (rest := rest).
        - cbn. rewrite Hsc. exact Hscript.
        - cbn. rewrite Hdel. apply bool_decide_eq_false_2. exact Hlive. }
    change (view_value (reports_view row (Some c) pinged_roles
                          (report_unadded_roles pinged_roles)) (Press 1))
      with (VTuple "Enabled" (negb old)).
    rewrite in_keys_menu_actions. cbn [String.eqb Ascii.eqb Bool.eqb].
    fold q.
    erewrite bind_eq by apply pool_execute_eq.
    erewrite bind_eq by apply cache_refresh_eq.
    reflexivity. }
  eexists. split; [exact Hmain |].
  unfold lookup_records.
  cbn [trace db db_cache deleted script add_event set_script set_parent
       set_deleted set_db set_db_cache].
  rewrite Htr, Hdb, Hdel, <- !app_assoc, lookup_insert_eq.
  repeat split.
  subst q. cbn [execute_sql]. rewrite lookup_insert_eq. reflexivity.
Qed.

(** X16.  The "Enabled" toggle of the Reports menu: with a report channel
    set, a press executes one upsert of [is_enabled] carrying the negated
    state, refreshes the cache, and draws the menu again from what is now
    stored: the redrawn button shows the new state, the other controls are
    as before, and the menu waits for the next press. *)
Theorem reports_toggle_read_after_write (fuel m : nat) (s : Session)
    (row : gmap string Cell) (c : Channel) :
  m ∉ deleted s →
  script s = [Press 1] →
  lookup_records "reports" s = Some row →
  db s !! ("reports"%string, guild_id) = Some row →
  report_channel row = Some c →
  let old := cell_truthy (cell row "is_enabled") in
  let row' := <["is_enabled"%string := CBool (negb old)]> row in
  let pinged_roles := report_pinged_roles row in
  let unadded_roles := report_unadded_roles pinged_roles in
  ∃ s',
    h_report (handlers (S (S (S fuel)))) (Some m) s = (Suspended, s')
    ∧ trace s'
      = trace s
        ++ [Edited m (reports_embed (Some c) pinged_roles)
              (reports_view row (Some c) pinged_roles unadded_roles);
            Executed (Upsert "reports" "is_enabled" (CBool (negb old)) guild_id);
            Refreshed "reports" guild_id;
            Edited m (reports_embed (Some c) pinged_roles)
              (reports_view row' (Some c) pinged_roles unadded_roles)]
    ∧ reports_view row' (Some c) pinged_roles unadded_roles !! 1%nat
      = Some (boolean_button (negb old) "Enabled" false)
    ∧ db s' = <[("reports"%string, guild_id) := row']> (db s).
Proof.
  intros Hlive Hscript Hlk Hrow Hchan old row' pinged_roles unadded_roles.
  assert (Hchan' : report_channel row' = Some c).
  { unfold report_channel, cell, row' in *. rewrite lookup_insert_ne by discriminate.
    exact Hchan. }
  assert (Hpinged' : report_pinged_roles row' = pinged_roles).
  { unfold pinged_roles, report_pinged_roles, cell, row'.
    rewrite lookup_insert_ne by discriminate. reflexivity. }
  destruct (report_toggle_step (S fuel) m s [] row c Hlive Hscript Hlk Hchan)
    as (s1 & Hrun1 & Htr1 & Hdb1 & Hlk1 & Hsc1 & Hdel1).
  rewrite Hrow in Hlk1. cbn [default from_option id] in Hlk1.
  fold old in Hlk1, Htr1, Hdb1. fold row' in Hlk1.
  assert (Hlive1 : m ∉ deleted s1) by (rewrite Hdel1; exact Hlive).
  destruct (report_draw_waits (S fuel) m s1 Hlive1 Hsc1) as (s2 & Hrun2 & Htr2 & Hdb2).
  rewrite Hlk1 in Htr2. cbn [default from_option id] in Htr2.
  rewrite Hchan', Hpinged' in Htr2.
  exists s2. split; [rewrite Hrun1; exact Hrun2 |]. split; [| split].
  - rewrite Htr2, Htr1, <- !app_assoc. reflexivity.
  - unfold reports_view, cell, row'. cbn [ButtonMenuView lookup list_lookup].
    rewrite lookup_insert_eq. reflexivity.
  - rewrite Hdb2, Hdb1. cbn [execute_sql]. rewrite Hrow. reflexivity.
Qed.

Lemma role_options_found (found : list Role) :
  role_options (Some <$> found)
  = Ret ((λ r, {| opt_label := role_name r; opt_value := OInt (role_id r);
                  opt_description := None |}) <$> found).
Proof.
  unfold role_options. induction found as [|r found IH]; [reflexivity |].
  cbn [fmap list_fmap traverse]. cbn [fmap list_fmap] in IH. rewrite IH. reflexivity.
Qed.

Lemma add_role_not_registered : bool_decide ("Add Role"%string ∈ registered) = false.
Proof. vm_compute. reflexivity. Qed.

Lemma remove_role_not_registered :
  bool_decide ("Remove Role"%string ∈ registered) = false.
Proof. vm_compute. reflexivity. Qed.

(** The Reports menu up to the press: how [settings_report] starts on a
    message that is on display. *)
Ltac report_draw Hlive Hscript Hdel Hsc :=
  unfold settings_report at 1;
  erewrite bind_eq by apply cache_get_eq;
  erewrite bind_eq by reflexivity;
  erewrite bind_eq by (apply maybe_edit_live; cbn; rewrite Hdel; exact Hlive);
  erewrite bind_eq by reflexivity;
  erewrite bind_eq;
    [| eapply view_wait_eq;
       [cbn; rewrite Hsc; exact Hscript
       | cbn; rewrite Hdel; apply bool_decide_eq_false_2; exact Hlive]].

(** X17.  "Set Channel" answered with text that names a textable channel:
    the prompt is shown, one upsert stores the channel's id in [channel_id]
    of the guild's row, the cache is refreshed, and the Reports menu is
    entered again on the same message; the other columns of the row are
    kept. *)
Theorem reports_set_channel_stores_id (fuel m : nat) (s : Session)
    (text : string) (rest : list Interaction) (c : Channel) :
  m ∉ deleted s →
  script s = Press 2 :: Reply text :: rest →
  convert_channel text = Some c →
  channel_textable c = true →
  let record := default default_reports_row (lookup_records "reports" s) in
  let pinged_roles := report_pinged_roles record in
  let q := Upsert "reports" "channel_id" (CInt (channel_id c)) guild_id in
  ∃ s',
    h_report (handlers (S (S fuel))) (Some m) s
    = h_report (handlers (S fuel)) (Some m) s'
    ∧ trace s'
      = trace s
        ++ [Edited m (reports_embed (report_channel record) pinged_roles)
              (reports_view record (report_channel record) pinged_roles
                 (report_unadded_roles pinged_roles));
            Asked (Some m) set_channel_embed textable_channel_options
              "Select a channel...";
            Executed q;
            Refreshed "reports" guild_id]
    ∧ db s' = execute_sql q (db s)
    ∧ lookup_records "reports" s'
      = Some (<["channel_id"%string := CInt (channel_id c)]>
                (default ∅ (db s !! ("reports"%string, guild_id))))
    ∧ script s' = rest
    ∧ m ∉ deleted s'.
Proof.
  intros Hlive Hscript Hconv Htext record pinged_roles q.
  destruct (cache_fill_frame "reports" s) as (Hdb & Hpar & Htr & Hdel & Hsc & Hnm).
  assert (Hres : resolve_text TextableGuildChannel [] text = Ret (GotChannel c)).
  { unfold resolve_text, resolve. rewrite Hconv, Htext.
    rewrite bool_decide_eq_false_2 by apply not_elem_of_nil. reflexivity. }
  eassert (Hmain : h_report (handlers (S (S fuel))) (Some m) s
                   = h_report (handlers (S fuel)) (Some m) _).
  { change (h_report (handlers (S (S fuel))))
      with (settings_report (menu_actions (handlers (S fuel)))
              (h_report (handlers (S fuel)))).
    report_draw Hlive Hscript Hdel Hsc.
    change (view_value (reports_view _ _ _ _) (Press 2)) with (VStr "Set Channel").
    rewrite in_keys_menu_actions, set_channel_not_registered.
    cbn [String.eqb]. rewrite bool_decide_eq_true_2 by reflexivity.
    erewrite try_else_ret;
      [| erewrite ask_reply by reflexivity; rewrite Hres; reflexivity].
    erewrite bind_eq by reflexivity.
    erewrite bind_eq by apply pool_execute_eq.
    erewrite bind_eq by apply cache_refresh_eq.
    reflexivity. }
  eexists. split; [exact Hmain |].
  unfold lookup_records.
  cbn [trace db db_cache deleted script add_event set_script set_parent
       set_deleted set_db set_db_cache].
  rewrite Htr, Hdb, Hdel, <- !app_assoc, lookup_insert_eq.
  repeat split; try exact Hlive.
  subst q. cbn [execute_sql]. rewrite lookup_insert_eq. reflexivity.
Qed.

(** X18.  "Remove Role" answered with a role that is not in the pinged list:
    the handler raises [TypeError] itself, so the "Role not found" panel is
    drawn with Back as its only control and "Reports" as the parent, and
    nothing is written. *)
Theorem reports_remove_unlisted_role_refused (fuel m : nat) (s : Session)
    (text : string) (rest : list Interaction) (found : list Role) (r : Role) :
  m ∉ deleted s →
  script s = Press 4 :: Reply text :: rest →
  convert_role text = Some r →
  let record := default default_reports_row (lookup_records "reports" s) in
  report_pinged_roles record = Some <$> found →
  found ≠ [] →
  r ∉ found →
  let actions := menu_actions (handlers (S fuel)) in
  ∃ s',
    h_report (handlers (S (S fuel))) (Some m) s
    = (let* value := view_wait (Some m) [BackButton] in
       call_value actions value (Some m)) s'
    ∧ drop (S (length (trace s))) (trace s')
      = [Asked (Some m)
           {| title := "Reports Settings";
              description := "Remove a role from the list of roles that is mentioned when a new report is made.";
              color := embed_blue; fields := [] |}
           ((λ r, {| opt_label := role_name r; opt_value := OInt (role_id r);
                     opt_description := None |}) <$> found)
           "Select a role...";
         Edited m
           (role_not_found_embed "Unable to locate role, or it is not a pinged role.")
           [BackButton]]
    ∧ parent s' = Some "Reports"%string
    ∧ db s' = db s
    ∧ script s' = rest.
Proof.
  intros Hlive Hscript Hconv record Hfound Hne Hnotin actions.
  destruct (cache_fill_frame "reports" s) as (Hdb & Hpar & Htr & Hdel & Hsc & Hnm).
  assert (Hres : resolve_text RoleType [] text = Ret (GotRole r)).
  { unfold resolve_text, resolve. rewrite Hconv.
    rewrite bool_decide_eq_false_2 by apply not_elem_of_nil. reflexivity. }
  eassert (Hmain : h_report (handlers (S (S fuel))) (Some m) s
                   = (let* value := view_wait (Some m) [BackButton] in
                      call_value actions value (Some m)) _).
  { change (h_report (handlers (S (S fuel))))
      with (settings_report (menu_actions (handlers (S fuel)))
              (h_report (handlers (S fuel)))).
    fold actions.
    report_draw Hlive Hscript Hdel Hsc.
    cbv zeta. fold record. rewrite Hfound.
    assert (Hv : view_value
                   (reports_view record (report_channel record) (Some <$> found)
                      (report_unadded_roles (Some <$> found))) (Press 4)
                 = VStr "Remove Role").
    { unfold reports_view. cbn [ButtonMenuView view_value lookup list_lookup option_button].
      rewrite bool_decide_eq_false_2; [reflexivity |].
      destruct found; [congruence | discriminate]. }
    rewrite Hv. unfold actions at 1.
    rewrite in_keys_menu_actions, remove_role_not_registered.
    rewrite (bool_decide_eq_false_2 (VStr "Remove Role" = VStr "Set Channel"))
      by discriminate.
    unfold roles_branches.
    rewrite (bool_decide_eq_false_2 (VStr "Remove Role" = VStr "Add Role"))
      by discriminate.
    rewrite (bool_decide_eq_true_2 (VStr "Remove Role" = VStr "Remove Role"))
      by reflexivity.
    erewrite bind_eq by (unfold lift; rewrite role_options_found; reflexivity).
    erewrite try_else_exc;
      [| erewrite bind_eq
           by (erewrite ask_reply by reflexivity; rewrite Hres; reflexivity);
         cbn [answer_role];
         rewrite bool_decide_eq_false_2; [reflexivity |];
         intros Hin; apply Hnotin;
         apply list_elem_of_fmap in Hin as (r' & [= ->] & Hin); exact Hin
       | reflexivity].
    unfold error_view_handler.
    erewrite bind_eq by reflexivity.
    erewrite bind_eq by (apply maybe_edit_live; cbn; rewrite Hdel; exact Hlive).
    erewrite bind_eq by reflexivity.
    reflexivity. }
  eexists. split; [exact Hmain |].
  cbn [trace db db_cache deleted script parent add_event set_script set_parent
       set_deleted set_db set_db_cache].
  rewrite Htr, Hdb, <- !app_assoc.
  change (trace s ++ ?x :: ?rest) with (trace s ++ [x] ++ rest).
  rewrite app_assoc.
  replace (S (length (trace s))) with (length (trace s ++ [Edited m
     (reports_embed (report_channel record) (Some <$> found))
     (reports_view record (report_channel record) (Some <$> found)
        (report_unadded_roles (Some <$> found)))])) by (rewrite length_app; cbn; lia).
  rewrite drop_app_length. repeat split.
Qed.
Lemma remove_first_Some (r : Role) (found : list Role) :
  remove_first (Some r) (Some <$> found) = Some <$> remove_first r found.
Proof.
  induction found as [|x found IH]; [reflexivity |].
  cbn [fmap list_fmap remove_first]. cbn [fmap list_fmap] in IH.
  destruct (decide (x = r)) as [->|Hne].
  - rewrite decide_True by reflexivity. reflexivity.
  - rewrite decide_False by congruence. rewrite IH. reflexivity.
Qed.

Lemma remove_first_app_last (r : Role) (found : list Role) :
  r ∉ found → remove_first r (found ++ [r]) = found.
Proof.
  induction found as [|x found IH]; intros Hnotin; cbn [app remove_first].
  - rewrite decide_True by reflexivity. reflexivity.
  - apply not_elem_of_cons in Hnotin as [Hne Hnotin].
    rewrite decide_False by congruence. rewrite IH by exact Hnotin. reflexivity.
Qed.

Lemma get_role_id (id : Z) (r : Role) :
  get_role id = Some r → role_id r = id ∧ r ∈ roles.
Proof.
  unfold get_role. intros H. apply List.find_some in H as [Hin Heq].
  split; [apply Z.eqb_eq, Heq | apply list_elem_of_In, Hin].
Qed.

(** The roles a row resolves to are found again under their own ids. *)
Lemma pinged_found_ids (record : gmap string Cell) (found : list Role) :
  report_pinged_roles record = Some <$> found →
  get_role <$> (role_id <$> found) = Some <$> found.
Proof.
  unfold report_pinged_roles.
  destruct (cell record "pinged_role_ids") as [| | |ids];
    try (destruct found; [reflexivity | discriminate]).
  revert found. induction ids as [|id ids IH]; intros [|x found] H;
    try discriminate; [reflexivity |].
  cbn [fmap list_fmap] in *. injection H as Hx Hrest.
  destruct (get_role_id _ _ Hx) as [-> _]. rewrite Hx. f_equal. apply IH, Hrest.
Qed.

(** "Add Role" answered with a role. *)
Lemma add_role_step (fuel m : nat) (s : Session)
    (text : string) (rest : list Interaction) (found : list Role) (r : Role) :
  m ∉ deleted s →
  script s = Press 3 :: Reply text :: rest →
  convert_role text = Some r →
  let record := default default_reports_row (lookup_records "reports" s) in
  report_pinged_roles record = Some <$> found →
  report_unadded_roles (Some <$> found) ≠ [] →
  let q := Upsert "reports" "pinged_role_ids"
             (CInts (role_id <$> found ++ [r])) guild_id in
  ∃ s',
    h_report (handlers (S (S fuel))) (Some m) s
    = h_report (handlers (S fuel)) (Some m) s'
    ∧ trace s'
      = trace s
        ++ [Edited m (reports_embed (report_channel record) (Some <$> found))
              (reports_view record (report_channel record) (Some <$> found)
                 (report_unadded_roles (Some <$> found)));
            Asked (Some m)
              {| title := "Reports Settings";
                 description := "Select a role to add to the list of roles that will be mentioned when a new report is made.";
                 color := embed_blue; fields := [] |}
              ((λ r, {| opt_label := role_name r; opt_value := OInt (role_id r);
                        opt_description := None |})
                 <$> report_unadded_roles (Some <$> found))
              "Select a role...";
            Executed q;
            Refreshed "reports" guild_id]
    ∧ db s' = execute_sql q (db s)
    ∧ lookup_records "reports" s'
      = Some (<["pinged_role_ids"%string := CInts (role_id <$> found ++ [r])]>
                (default ∅ (db s !! ("reports"%string, guild_id))))
    ∧ script s' = rest
    ∧ deleted s' = deleted s.
Proof.
  intros Hlive Hscript Hconv record Hfound Hunadded q.
  destruct (cache_fill_frame "reports" s) as (Hdb & Hpar & Htr & Hdel & Hsc & Hnm).
  assert (Hres : resolve_text RoleType [] text = Ret (GotRole r)).
  { unfold resolve_text, resolve. rewrite Hconv.
    rewrite bool_decide_eq_false_2 by apply not_elem_of_nil. reflexivity. }
  eassert (Hmain : h_report (handlers (S (S fuel))) (Some m) s
                   = h_report (handlers (S fuel)) (Some m) _).
  { change (h_report (handlers (S (S fuel))))
      with (settings_report (menu_actions (handlers (S fuel)))
              (h_report (handlers (S fuel)))).
    report_draw Hlive Hscript Hdel Hsc.
    cbv zeta. fold record. rewrite Hfound.
    assert (Hv : view_value
                   (reports_view record (report_channel record) (Some <$> found)
                      (report_unadded_roles (Some <$> found))) (Press 3)
                 = VStr "Add Role").
    { unfold reports_view.
      cbn [ButtonMenuView view_value lookup list_lookup option_button].
      rewrite bool_decide_eq_false_2 by exact Hunadded. reflexivity. }
    rewrite Hv, in_keys_menu_actions, add_role_not_registered.
    rewrite (bool_decide_eq_false_2 (VStr "Add Role" = VStr "Set Channel"))
      by discriminate.
    unfold roles_branches.
    rewrite (bool_decide_eq_true_2 (VStr "Add Role" = VStr "Add Role"))
      by reflexivity.
    erewrite bind_eq by (unfold lift; rewrite role_options_found; reflexivity).
    erewrite try_else_ret;
      [| erewrite bind_eq
           by (erewrite ask_reply by reflexivity; rewrite Hres; reflexivity);
         reflexivity].
    cbn [answer_role]. unfold write_pinged_roles.
    replace ((Some <$> found) ++ [Some r]) with (Some <$> (found ++ [r]))
      by (rewrite fmap_app; reflexivity).
    erewrite bind_eq by (unfold lift; rewrite role_ids_found; reflexivity).
    erewrite bind_eq by apply pool_execute_eq.
    erewrite bind_eq by apply cache_refresh_eq.
    reflexivity. }
  eexists. split; [exact Hmain |].
  unfold lookup_records.
  cbn [trace db db_cache deleted script add_event set_script set_parent
       set_deleted set_db set_db_cache].
  rewrite Htr, Hdb, Hdel, <- !app_assoc, lookup_insert_eq.
  repeat split.
  subst q. cbn [execute_sql]. rewrite lookup_insert_eq. reflexivity.
Qed.

(** "Remove Role" answered with a role of the list. *)
Lemma remove_role_step (fuel m : nat) (s : Session)
    (text : string) (rest : list Interaction) (found : list Role) (r : Role) :
  m ∉ deleted s →
  script s = Press 4 :: Reply text :: rest →
  convert_role text = Some r →
  let record := default default_reports_row (lookup_records "reports" s) in
  report_pinged_roles record = Some <$> found →
  r ∈ found →
  let q := Upsert "reports" "pinged_role_ids"
             (CInts (role_id <$> remove_first r found)) guild_id in
  ∃ s',
    h_report (handlers (S (S fuel))) (Some m) s
    = h_report (handlers (S fuel)) (Some m) s'
    ∧ trace s'
      = trace s
        ++ [Edited m (reports_embed (report_channel record) (Some <$> found))
              (reports_view record (report_channel record) (Some <$> found)
                 (report_unadded_roles (Some <$> found)));
            Asked (Some m)
              {| title := "Reports Settings";
                 description := "Remove a role from the list of roles that is mentioned when a new report is made.";
                 color := embed_blue; fields := [] |}
              ((λ r, {| opt_label := role_name r; opt_value := OInt (role_id r);
                        opt_description := None |}) <$> found)
              "Select a role...";
            Executed q;
            Refreshed "reports" guild_id]
    ∧ db s' = execute_sql q (db s)
    ∧ lookup_records "reports" s'
      = Some (<["pinged_role_ids"%string := CInts (role_id <$> remove_first r found)]>
                (default ∅ (db s !! ("reports"%string, guild_id))))
    ∧ script s' = rest
    ∧ deleted s' = deleted s.
Proof.
  intros Hlive Hscript Hconv record Hfound Hin q.
  destruct (cache_fill_frame "reports" s) as (Hdb & Hpar & Htr & Hdel & Hsc & Hnm).
  assert (Hres : resolve_text RoleType [] text = Ret (GotRole r)).
  { unfold resolve_text, resolve. rewrite Hconv.
    rewrite bool_decide_eq_false_2 by apply not_elem_of_nil. reflexivity. }
  eassert (Hmain : h_report (handlers (S (S fuel))) (Some m) s
                   = h_report (handlers (S fuel)) (Some m) _).
  { change (h_report (handlers (S (S fuel))))
      with (settings_report (menu_actions (handlers (S fuel)))
              (h_report (handlers (S fuel)))).
    report_draw Hlive Hscript Hdel Hsc.
    cbv zeta. fold record. rewrite Hfound.
    assert (Hv : view_value
                   (reports_view record (report_channel record) (Some <$> found)
                      (report_unadded_roles (Some <$> found))) (Press 4)
                 = VStr "Remove Role").
    { unfold reports_view.
      cbn [ButtonMenuView view_value lookup list_lookup option_button].
      rewrite bool_decide_eq_false_2; [reflexivity |].
      destruct found; [apply elem_of_nil in Hin; contradiction | discriminate]. }
    rewrite Hv, in_keys_menu_actions, remove_role_not_registered.
    rewrite (bool_decide_eq_false_2 (VStr "Remove Role" = VStr "Set Channel"))
      by discriminate.
    unfold roles_branches.
    rewrite (bool_decide_eq_false_2 (VStr "Remove Role" = VStr "Add Role"))
      by discriminate.
    rewrite (bool_decide_eq_true_2 (VStr "Remove Role" = VStr "Remove Role"))
      by reflexivity.
    erewrite bind_eq by (unfold lift; rewrite role_options_found; reflexivity).
    erewrite try_else_ret;
      [| erewrite bind_eq
           by (erewrite ask_reply by reflexivity; rewrite Hres; reflexivity);
         cbn [answer_role];
         rewrite bool_decide_eq_true_2
           by (apply list_elem_of_fmap; exists r; auto);
         reflexivity].
    rewrite remove_first_Some. unfold write_pinged_roles.
    erewrite bind_eq by (unfold lift; rewrite role_ids_found; reflexivity).
    erewrite bind_eq by apply pool_execute_eq.
    erewrite bind_eq by apply cache_refresh_eq.
    reflexivity. }
  eexists. split; [exact Hmain |].
  unfold lookup_records.
  cbn [trace db db_cache deleted script add_event set_script set_parent
       set_deleted set_db set_db_cache].
  rewrite Htr, Hdb, Hdel, <- !app_assoc, lookup_insert_eq.
  repeat split.
  subst q. cbn [execute_sql]. rewrite lookup_insert_eq. reflexivity.
Qed.

(** X19.  Adding a role to the pinged list and removing it again restores
    the list: "Add Role" answered with a role not yet listed stores the old
    ids followed by the new one, and "Remove Role" answered with the same
    role stores the old ids again, so the menu then shows what it showed
    before.  Each step is one upsert of [pinged_role_ids]. *)
Theorem reports_add_then_remove_restores (fuel m : nat) (s : Session)
    (text : string) (rest : list Interaction) (found : list Role) (r : Role) :
  m ∉ deleted s →
  script s = Press 3 :: Reply text :: Press 4 :: Reply text :: rest →
  convert_role text = Some r →
  get_role (role_id r) = Some r →
  let record := default default_reports_row (lookup_records "reports" s) in
  report_pinged_roles record = Some <$> found →
  r ∉ found →
  ∃ s',
    h_report (handlers (S (S (S fuel)))) (Some m) s
    = h_report (handlers (S fuel)) (Some m) s'
    ∧ filter (λ e, is_write e = true) (drop (length (trace s)) (trace s'))
      = [Executed (Upsert "reports" "pinged_role_ids"
                     (CInts (role_id <$> found ++ [r])) guild_id);
         Executed (Upsert "reports" "pinged_role_ids"
                     (CInts (role_id <$> found)) guild_id)]
    ∧ report_pinged_roles (default default_reports_row (lookup_records "reports" s'))
      = Some <$> found
    ∧ script s' = rest
    ∧ m ∉ deleted s'.
Proof.
  intros Hlive Hscript Hconv Hrole record Hfound Hnotin.
  assert (Hunadded : report_unadded_roles (Some <$> found) ≠ []).
  { intros Hnil.
    assert (Hin : r ∈ report_unadded_roles (Some <$> found)).
    { unfold report_unadded_roles. apply list_elem_of_filter. split.
      - intros Hs. apply Hnotin.
        apply list_elem_of_fmap in Hs as (r' & [= ->] & Hs). exact Hs.
      - apply elem_of_remove_dups. apply (get_role_id _ _ Hrole). }
    rewrite Hnil in Hin. apply elem_of_nil in Hin. contradiction. }
  destruct (add_role_step (S fuel) m s text (Press 4 :: Reply text :: rest) found r
              Hlive Hscript Hconv Hfound Hunadded)
    as (s1 & Hrun1 & Htr1 & Hdb1 & Hlk1 & Hsc1 & Hdel1).
  assert (Hfound1 : report_pinged_roles
                      (default default_reports_row (lookup_records "reports" s1))
                    = Some <$> (found ++ [r])).
  { rewrite Hlk1. cbn [default from_option id].
    unfold report_pinged_roles, cell. rewrite lookup_insert_eq.
    cbn [default from_option id].
    rewrite !fmap_app, (pinged_found_ids _ _ Hfound). cbn [fmap list_fmap].
    rewrite Hrole. reflexivity. }
  assert (Hlive1 : m ∉ deleted s1) by (rewrite Hdel1; exact Hlive).
  assert (Hin1 : r ∈ found ++ [r])
    by (apply elem_of_app; right; apply list_elem_of_singleton; reflexivity).
  destruct (remove_role_step fuel m s1 text rest (found ++ [r]) r
              Hlive1 Hsc1 Hconv Hfound1 Hin1)
    as (s2 & Hrun2 & Htr2 & Hdb2 & Hlk2 & Hsc2 & Hdel2).
  rewrite remove_first_app_last in Htr2, Hlk2 by exact Hnotin.
  exists s2. split; [rewrite Hrun1; exact Hrun2 |].
  split; [| split; [| split; [exact Hsc2 | rewrite Hdel2; exact Hlive1]]].
  - rewrite Htr2, Htr1, <- !app_assoc, drop_app_length. reflexivity.
  - rewrite Hlk2. cbn [default from_option id].
    unfold report_pinged_roles, cell. rewrite lookup_insert_eq.
    cbn [default from_option id]. apply (pinged_found_ids _ _ Hfound).
Qed.

(** ** The Moderation and Logging menus at work *)

Lemma traverse_lookup {A B} (f : A → Res B) (l : list A) (ys : list B)
    (i : nat) (x : A) :
  traverse f l = Ret ys → l !! i = Some x →
  ∃ y, ys !! i = Some y ∧ f x = Ret y.
Proof.
  revert ys i. induction l as [|a l IH]; intros ys i Ht Hi; [discriminate Hi |].
  cbn [traverse] in Ht. destruct (f a) as [y| | |] eqn:Ea; try discriminate Ht.
  destruct (traverse f l) as [ys'| | |] eqn:El; try discriminate Ht.
  injection Ht as <-. destruct i as [|i]; cbn in Hi |- *.
  - injection Hi as <-. eauto.
  - eapply IH; eauto.
Qed.

(** The labels of the Moderation menu depend on the keys only. *)
Lemma mod_labels_keys (r r' : option (gmap string Cell)) :
  mod_labels (mod_settings_view r) = mod_labels (mod_settings_view r').
Proof.
  unfold mod_labels, mod_settings_view.
  induction default_mod_settings as [|kd l IH]; [reflexivity |].
  cbn [fmap list_fmap traverse fst]. cbn [fmap list_fmap] in IH.
  destruct (subscript mod_settings_strings kd.1); try reflexivity.
  rewrite IH. reflexivity.
Qed.

Lemma dict_get_NoDup {V} (d : list (string * V)) (i : nat) (k : string) (v : V) :
  NoDup d.*1 → d !! i = Some (k, v) → dict_get d k = Some v.
Proof.
  revert i. induction d as [|[k' v'] d IH]; intros i Hnd Hi; [discriminate Hi |].
  cbn [fmap list_fmap fst] in Hnd. apply NoDup_cons in Hnd as [Hnotin Hnd].
  cbn [dict_get]. destruct i as [|i]; cbn in Hi.
  - injection Hi as -> ->. rewrite decide_True by reflexivity. reflexivity.
  - destruct (decide (k' = k)) as [->|Hne]; [| eapply IH; eauto].
    exfalso. apply Hnotin. apply list_elem_of_fmap. exists (k, v).
    split; [reflexivity | eapply list_elem_of_lookup_2, Hi].
Qed.

Lemma mod_settings_view_keys (r : option (gmap string Cell)) :
  (mod_settings_view r).*1 = default_mod_settings.*1.
Proof.
  unfold mod_settings_view. rewrite <- list_fmap_compose.
  apply list_fmap_ext. intros _ [k d] _. reflexivity.
Qed.

(** The Moderation menu entered without a message: the edit raises before
    anything is drawn. *)
Lemma mod_redraw_raises (actions : Actions) (self : Handler) (s : Session)
    (labels : list string) :
  mod_labels (mod_settings_view (lookup_records "mod_config" s)) = Ret labels →
  ∃ s',
    settings_mod actions self None s
    = (Exc (AttributeError "'NoneType' object has no attribute 'edit'"), s')
    ∧ trace s' = trace s
    ∧ db s' = db s.
Proof.
  intros Hlabels.
  destruct (cache_fill_frame "mod_config" s) as (Hdb & Hpar & Htr & Hdel & Hsc & Hnm).
  eassert (Hmain : settings_mod actions self None s = (Exc _, _)).
  { unfold settings_mod.
    erewrite bind_eq by apply get_settings_eq.
    erewrite bind_eq by (unfold lift; rewrite Hlabels; reflexivity).
    erewrite bind_eq by reflexivity.
    reflexivity. }
  eexists. split; [exact Hmain |].
  cbn [trace db set_parent]. rewrite Htr, Hdb. split; reflexivity.
Qed.

(** A press on the button of a setting, up to the redraw. *)
Lemma mod_toggle_step (fuel m : nat) (s : Session)
    (rest : list Interaction) (labels : list string) (i : nat)
    (option label : string) (current : bool) :
  m ∉ deleted s →
  script s = Press (S i) :: rest →
  start_tolerates_none = true →
  let mod_settings := mod_settings_view (lookup_records "mod_config" s) in
  mod_labels mod_settings = Ret labels →
  labels !! i = Some label →
  label ∉ registered →
  get_key mod_settings_strings label = Ret option →
  subscript mod_settings option = Ret current →
  let q := Upsert "mod_config" option (CBool (negb current)) guild_id in
  ∃ s',
    h_mod (handlers (S (S fuel))) (Some m) s = h_mod (handlers (S fuel)) None s'
    ∧ trace s'
      = trace s
        ++ [Edited m (mod_embed labels mod_settings) (mod_view labels);
            Executed q;
            Refreshed "mod_config" guild_id]
    ∧ db s' = execute_sql q (db s).
Proof.
  intros Hlive Hscript Htol mod_settings Hlabels Hlabel Hunreg Hkey Hcur q.
  destruct (cache_fill_frame "mod_config" s) as (Hdb & Hpar & Htr & Hdel & Hsc & Hnm).
  assert (Hv : view_value (mod_view labels) (Press (S i)) = VStr label).
  { assert (Hl : mod_view labels !! S i
                 = Some (OptionButton SECONDARY label None false)).
    { unfold mod_view, ButtonMenuView.
      change ((BackButton :: ?l) !! S i) with (l !! i).
      rewrite list_lookup_fmap, Hlabel. reflexivity. }
    unfold view_value. rewrite Hl. reflexivity. }
  eassert (Hmain : h_mod (handlers (S (S fuel))) (Some m) s
                   = h_mod (handlers (S fuel)) None _).
  { change (h_mod (handlers (S (S fuel))))
      with (settings_mod (menu_actions (handlers (S fuel)))
              (h_mod (handlers (S fuel)))).
    unfold settings_mod at 1.
    erewrite bind_eq by apply get_settings_eq.
    fold mod_settings.
    erewrite bind_eq by (unfold lift; rewrite Hlabels; reflexivity).
    erewrite bind_eq by reflexivity.
    erewrite bind_eq by (apply maybe_edit_live; cbn; rewrite Hdel; exact Hlive).
    erewrite bind_eq by (unfold view_start; rewrite Htol; reflexivity).
    erewrite bind_eq.
    2:{ apply view_wait_eq with (i := Press (S i)) (rest := rest).
        - cbn. rewrite Hsc. exact Hscript.
        - reflexivity. }
    rewrite Hv, in_keys_menu_actions.
    rewrite (bool_decide_eq_false_2 _ Hunreg).
    erewrite bind_eq by (unfold lift; rewrite Hkey; reflexivity).
    erewrite bind_eq by (unfold lift; rewrite Hcur; reflexivity).
    fold q.
    erewrite bind_eq by apply pool_execute_eq.
    erewrite bind_eq by apply cache_refresh_eq.
    reflexivity. }
  eexists. split; [exact Hmain |].
  cbn [trace db add_event set_script set_parent set_db set_db_cache].
  rewrite Htr, Hdb, <- !app_assoc. split; reflexivity.
Qed.

(** Where [View.start] does not put up with a missing message, the
    Moderation menu raises as soon as it has drawn itself: [maybe_edit]
    returned [None], and that is what the view is started on. *)
Lemma mod_start_raises (fuel m : nat) (s : Session) (labels : list string) :
  m ∉ deleted s →
  start_tolerates_none = false →
  let mod_settings := mod_settings_view (lookup_records "mod_config" s) in
  mod_labels mod_settings = Ret labels →
  ∃ s',
    h_mod (handlers (S fuel)) (Some m) s = (Exc TypeError, s')
    ∧ trace s'
      = trace s ++ [Edited m (mod_embed labels mod_settings) (mod_view labels)]
    ∧ db s' = db s
    ∧ script s' = script s.
Proof.
  intros Hlive Htol mod_settings Hlabels.
  destruct (cache_fill_frame "mod_config" s) as (Hdb & Hpar & Htr & Hdel & Hsc & Hnm).
  eassert (Hmain : h_mod (handlers (S fuel)) (Some m) s = (Exc TypeError, _)).
  { change (h_mod (handlers (S fuel)))
      with (settings_mod (menu_actions (handlers fuel)) (h_mod (handlers fuel))).
    unfold settings_mod at 1.
    erewrite bind_eq by apply get_settings_eq.
    fold mod_settings.
    erewrite bind_eq by (unfold lift; rewrite Hlabels; reflexivity).
    erewrite bind_eq by reflexivity.
    erewrite bind_eq by (apply maybe_edit_live; cbn; rewrite Hdel; exact Hlive).
    erewrite bind_exc by (unfold view_start; rewrite Htol; reflexivity).
    reflexivity. }
  eexists. split; [exact Hmain |].
  cbn [trace db script add_event set_parent].
  rewrite Htr, Hdb, Hsc. repeat split.
Qed.

(** X20.  A press on the button of a moderation setting, where miru's
    [View.start] accepts the [None] that [maybe_edit] returned: the menu
    executes one upsert into [mod_config], on the column whose label the
    button carries (found back with [get_key]) and with the negation of the
    value shown, then refreshes the cache; the redraw that follows is called
    with that [None] and raises [AttributeError], so the new value is stored
    but never shown.  Where [View.start] rejects [None], the menu raises
    [TypeError] as soon as it has drawn itself: the press is not read and
    nothing is written. *)
Theorem mod_toggle_writes_negated (fuel m : nat) (s : Session)
    (rest : list Interaction) (labels : list string) (i : nat)
    (option label : string) (current : bool) :
  m ∉ deleted s →
  script s = Press (S i) :: rest →
  NoDup mod_settings_strings.*2 →
  NoDup default_mod_settings.*1 →
  let mod_settings := mod_settings_view (lookup_records "mod_config" s) in
  mod_labels mod_settings = Ret labels →
  mod_settings !! i = Some (option, current) →
  labels !! i = Some label →
  label ∉ registered →
  let q := Upsert "mod_config" option (CBool (negb current)) guild_id in
  dict_get mod_settings_strings option = Some label
  ∧ ∃ s',
      if start_tolerates_none
      then
        h_mod (handlers (S (S fuel))) (Some m) s
        = (Exc (AttributeError "'NoneType' object has no attribute 'edit'"), s')
        ∧ trace s'
          = trace s
            ++ [Edited m (mod_embed labels mod_settings) (mod_view labels);
                Executed q;
                Refreshed "mod_config" guild_id]
        ∧ db s' = execute_sql q (db s)
      else
        h_mod (handlers (S (S fuel))) (Some m) s = (Exc TypeError, s')
        ∧ trace s'
          = trace s ++ [Edited m (mod_embed labels mod_settings) (mod_view labels)]
        ∧ db s' = db s
        ∧ script s' = script s.
Proof.
  intros Hlive Hscript Hvalues Hkeys mod_settings Hlabels Hi Hlabel Hunreg q.
  assert (Hstr : dict_get mod_settings_strings option = Some label).
  { destruct (traverse_lookup _ _ _ _ _ Hlabels Hi) as (y & Hy & Hsub).
    rewrite Hlabel in Hy. injection Hy as <-. unfold subscript in Hsub. cbn in Hsub.
    destruct (dict_get mod_settings_strings option); [congruence | discriminate]. }
  split; [exact Hstr |].
  destruct start_tolerates_none eqn:Htol.
  - assert (Hkey : get_key mod_settings_strings label = Ret option)
      by (apply get_key_of_dict_get; assumption).
    assert (Hcur : subscript mod_settings option = Ret current).
    { unfold subscript. erewrite dict_get_NoDup; [reflexivity | | exact Hi].
      unfold mod_settings. rewrite mod_settings_view_keys. exact Hkeys. }
    destruct (mod_toggle_step fuel m s rest labels i option label current
                Hlive Hscript Htol Hlabels Hlabel Hunreg Hkey Hcur)
      as (s1 & Hrun1 & Htr1 & Hdb1).
    assert (Hlabels1 : mod_labels (mod_settings_view (lookup_records "mod_config" s1))
                       = Ret labels).
    { rewrite (mod_labels_keys _ (lookup_records "mod_config" s)). exact Hlabels. }
    destruct (mod_redraw_raises (menu_actions (handlers fuel)) (h_mod (handlers fuel))
                s1 labels Hlabels1) as (s2 & Hrun2 & Htr2 & Hdb2).
    exists s2. split; [rewrite Hrun1; exact Hrun2 |].
    rewrite Htr2, Hdb2. auto.
  - destruct (mod_start_raises (S fuel) m s labels Hlive Htol Hlabels)
      as (s' & Hrun & Htr & Hdb & Hsc).
    exists s'. auto.
Qed.

(** The options [settings_logging] offers for the channel of an event. *)
Definition log_channel_options : list SelectOption :=
  {| opt_label := "Disable"; opt_value := OStr "disable";
     opt_description := Some "Stop logging this event." |}
  :: textable_channel_options.

Definition log_channel_embed (event_name : string) : Embed :=
  {| title := "Logging Settings";
     description := "Please select a channel where the following event should be logged: `"
                    +:+ event_name +:+ "`";
     color := embed_blue; fields := [] |}.

(** A category picked and answered where [View.start] accepts [None], up to
    the redraw that raises. *)
Lemma logging_category_step (fuel m : nat) (s : Session)
    (j : nat) (text : string) (rest : list Interaction) (names : list string)
    (log_event event_name : string) (current target : option Z) :
  m ∉ deleted s →
  script s = Choose 0 j :: Reply text :: rest →
  start_tolerates_none = true →
  let records := lookup_records "log_config" s in
  let log_channels := log_channels_view records in
  logging_names log_channels = Ret names →
  log_channels !! j = Some (log_event, current) →
  names !! j = Some event_name →
  log_event ∉ registered →
  (text = "disable"%string ∧ target = None)
  ∨ (text ≠ "disable"%string
     ∧ ∃ c, convert_channel text = Some c ∧ channel_textable c = true
            ∧ target = Some (channel_id c)) →
  ∃ s',
    h_logging (handlers (S (S fuel))) (Some m) s
    = (Exc (AttributeError "'NoneType' object has no attribute 'edit'"), s')
    ∧ trace s'
      = trace s
        ++ [Edited m (logging_embed names log_channels)
              (logging_view names log_channels (color_view records));
            Asked None (log_channel_embed event_name) log_channel_options
              "Select a channel...";
            SetLogChannel log_event guild_id target]
    ∧ script s' = rest.
Proof.
  intros Hlive Hscript Htol records log_channels Hnames Hj Hname Hunreg Hcase.
  destruct (cache_fill_frame "log_config" s) as (Hdb & Hpar & Htr & Hdel & Hsc & Hnm).
  destruct (cache_fill_frame "log_config" (cache_fill "log_config" s))
    as (Hdb' & Hpar' & Htr' & Hdel' & Hsc' & Hnm').
  pose proof (lookup_records_cache_fill "log_config" s) as Hsame.
  assert (Hev : subscript log_event_strings log_event = Ret event_name).
  { destruct (traverse_lookup _ _ _ _ _ Hnames Hj) as (y & Hy & Hsub).
    rewrite Hname in Hy. injection Hy as <-. exact Hsub. }
  assert (Hv : view_value (logging_view names log_channels (color_view records))
                 (Choose 0 j) = VStr log_event).
  { unfold logging_view, SelectMenuView, view_value.
    cbn [app lookup list_lookup].
    change (list_lookup j ?l) with (l !! j).
    rewrite lookup_zip_with, Hname, Hj. reflexivity. }
  assert (Hres : ∃ answer,
    resolve_text TextableGuildChannel ["disable"%string] text = Ret answer
    ∧ match answer with
      | GotChannel c => Ret (Some (channel_id c))
      | GotRole r => Ret (Some (role_id r))
      | GotRaw v =>
          if String.eqb v "disable" then Ret None
          else Exc (AttributeError "'str' object has no attribute 'id'")
      end = Ret target).
  { unfold resolve_text, resolve.
    destruct Hcase as [[-> ->] | (Hne & c & Hc & Ht & ->)].
    - exists (GotRaw "disable"). split; reflexivity.
    - exists (GotChannel c). rewrite bool_decide_eq_false_2, Hc, Ht.
      + split; reflexivity.
      + intros Hin. apply list_elem_of_singleton in Hin. contradiction. }
  destruct Hres as (answer & Hres & Hid).
  eassert (Hmain : h_logging (handlers (S (S fuel))) (Some m) s = (Exc _, _)).
  { change (h_logging (handlers (S (S fuel))))
      with (settings_logging (menu_actions (handlers (S fuel)))
              (h_logging (handlers (S fuel)))).
    unfold settings_logging at 1.
    erewrite bind_eq by apply get_log_channel_ids_view_eq.
    fold records. fold log_channels.
    erewrite bind_eq by (unfold lift; rewrite Hnames; reflexivity).
    erewrite bind_eq by apply is_color_enabled_eq.
    rewrite Hsame. fold records.
    erewrite bind_eq by reflexivity.
    erewrite bind_eq
      by (apply maybe_edit_live; cbn; rewrite Hdel', Hdel; exact Hlive).
    erewrite bind_eq by (unfold view_start; rewrite Htol; reflexivity).
    erewrite bind_eq.
    2:{ apply view_wait_eq with (i := Choose 0 j) (rest := Reply text :: rest).
        - cbn. rewrite Hsc', Hsc. exact Hscript.
        - reflexivity. }
    rewrite Hv, in_keys_menu_actions, (bool_decide_eq_false_2 _ Hunreg).
    erewrite bind_eq by (unfold lift; rewrite Hev; reflexivity).
    fold log_channel_options. fold (log_channel_embed event_name).
    erewrite try_else_ret;
      [| erewrite ask_reply by reflexivity; rewrite Hres; reflexivity].
    erewrite bind_eq by (unfold lift; rewrite Hid; reflexivity).
    erewrite bind_eq by reflexivity.
    change (h_logging (handlers (S fuel)))
      with (settings_logging (menu_actions (handlers fuel))
              (h_logging (handlers fuel))).
    unfold settings_logging.
    erewrite bind_eq by apply get_log_channel_ids_view_eq.
    erewrite bind_eq
      by (unfold lift; rewrite (logging_names_categories _ records);
          fold log_channels; rewrite Hnames; reflexivity).
    erewrite bind_eq by apply is_color_enabled_eq.
    erewrite bind_eq by reflexivity.
    reflexivity. }
  eexists. split; [exact Hmain |].
  (* the cache update plays no part in what follows *)
  match goal with
  | |- context [set_db_cache ?f _] => generalize f; intros update
  end.
  split.
  - cbn [trace set_parent].
    repeat match goal with
           | |- trace (cache_fill ?t ?x) = _ =>
               rewrite (proj1 (proj2 (proj2 (cache_fill_frame t x))))
           end.
    cbn [trace set_db_cache set_db add_event set_script set_parent].
    rewrite Htr', Htr, <- !app_assoc. reflexivity.
  - cbn [script set_parent].
    repeat match goal with
           | |- script (cache_fill ?t ?x) = _ =>
               rewrite (proj1 (proj2 (proj2 (proj2 (proj2 (cache_fill_frame t x))))))
           end.
    cbn [script set_db_cache set_db add_event set_script set_parent].
    reflexivity.
Qed.

(** Where [View.start] does not put up with a missing message, the Logging
    menu raises as soon as it has drawn itself. *)
Lemma logging_start_raises (fuel m : nat) (s : Session) (names : list string) :
  m ∉ deleted s →
  start_tolerates_none = false →
  let records := lookup_records "log_config" s in
  let log_channels := log_channels_view records in
  logging_names log_channels = Ret names →
  ∃ s',
    h_logging (handlers (S fuel)) (Some m) s = (Exc TypeError, s')
    ∧ trace s'
      = trace s
        ++ [Edited m (logging_embed names log_channels)
              (logging_view names log_channels (color_view records))]
    ∧ script s' = script s.
Proof.
  intros Hlive Htol records log_channels Hnames.
  destruct (cache_fill_frame "log_config" s) as (Hdb & Hpar & Htr & Hdel & Hsc & Hnm).
  destruct (cache_fill_frame "log_config" (cache_fill "log_config" s))
    as (Hdb' & Hpar' & Htr' & Hdel' & Hsc' & Hnm').
  pose proof (lookup_records_cache_fill "log_config" s) as Hsame.
  eassert (Hmain : h_logging (handlers (S fuel)) (Some m) s = (Exc TypeError, _)).
  { change (h_logging (handlers (S fuel)))
      with (settings_logging (menu_actions (handlers fuel))
              (h_logging (handlers fuel))).
    unfold settings_logging at 1.
    erewrite bind_eq by apply get_log_channel_ids_view_eq.
    fold records. fold log_channels.
    erewrite bind_eq by (unfold lift; rewrite Hnames; reflexivity).
    erewrite bind_eq by apply is_color_enabled_eq.
    rewrite Hsame. fold records.
    erewrite bind_eq by reflexivity.
    erewrite bind_eq
      by (apply maybe_edit_live; cbn; rewrite Hdel', Hdel; exact Hlive).
    erewrite bind_exc by (unfold view_start; rewrite Htol; reflexivity).
    reflexivity. }
  eexists. split; [exact Hmain |].
  cbn [trace script add_event set_parent].
  rewrite Htr', Htr, Hsc', Hsc. split; reflexivity.
Qed.

(** X21.  In the Logging menu, where miru's [View.start] accepts the [None]
    that [maybe_edit] returned, a category picked from the select and then
    answered: with "disable" the event's channel is set to [None], with text
    naming a textable channel it is set to that channel's id; in both cases
    by one call of [set_log_channel] for the picked event and this guild.
    The prompt is shown without a message to edit, and the redraw that follows
    raises [AttributeError]: both are given that [None].  Where [View.start]
    rejects [None], the menu raises [TypeError] as soon as it has drawn
    itself: the select is not read and [set_log_channel] is not called. *)
Theorem logging_category_sets_channel (fuel m : nat) (s : Session)
    (j : nat) (text : string) (rest : list Interaction) (names : list string)
    (log_event event_name : string) (current target : option Z) :
  m ∉ deleted s →
  script s = Choose 0 j :: Reply text :: rest →
  let records := lookup_records "log_config" s in
  let log_channels := log_channels_view records in
  logging_names log_channels = Ret names →
  log_channels !! j = Some (log_event, current) →
  names !! j = Some event_name →
  log_event ∉ registered →
  (text = "disable"%string ∧ target = None)
  ∨ (text ≠ "disable"%string
     ∧ ∃ c, convert_channel text = Some c ∧ channel_textable c = true
            ∧ target = Some (channel_id c)) →
  ∃ s',
    if start_tolerates_none
    then
      h_logging (handlers (S (S fuel))) (Some m) s
      = (Exc (AttributeError "'NoneType' object has no attribute 'edit'"), s')
      ∧ trace s'
        = trace s
          ++ [Edited m (logging_embed names log_channels)
                (logging_view names log_channels (color_view records));
              Asked None (log_channel_embed event_name) log_channel_options
                "Select a channel...";
              SetLogChannel log_event guild_id target]
      ∧ script s' = rest
    else
      h_logging (handlers (S (S fuel))) (Some m) s = (Exc TypeError, s')
      ∧ trace s'
        = trace s
          ++ [Edited m (logging_embed names log_channels)
                (logging_view names log_channels (color_view records))]
      ∧ script s' = script s.
Proof.
  intros Hlive Hscript records log_channels Hnames Hj Hname Hunreg Hcase.
  destruct start_tolerates_none eqn:Htol.
  - exact (logging_category_step fuel m s j text rest names log_event event_name
             current target Hlive Hscript Htol Hnames Hj Hname Hunreg Hcase).
  - exact (logging_start_raises (S fuel) m s names Hlive Htol Hnames).
Qed.

End Sessions.

Section Discipline.
Context {world : World}.

(** The event touches this guild's rows of the settings tables only. *)
Definition own_guild (e : Event) : bool :=
  match e with
  | Executed q =>
      (sql_guild q =? guild_id) && bool_decide (sql_table q ∈ settings_tables)
  | Refreshed _ guild | SetLogChannel _ guild _ => guild =? guild_id
  | _ => true
  end.

Variable t0 : list Event.
Variable d0 : gmap (string * Z) (gmap string Cell).

Definition disciplined (s : Session) : Prop :=
  (∃ t, trace s = t0 ++ t ∧ forallb own_guild t = true ∧ refreshed t = true)
  ∧ ∀ table guild, guild ≠ guild_id → db s !! (table, guild) = d0 !! (table, guild).

Definition keeps {A} (m : M Session A) : Prop :=
  ∀ s, disciplined s → disciplined (m s).2.

Lemma refreshed_from_app (pending : option Sql) (t t' : list Event) :
  refreshed_from pending t = true →
  refreshed_from pending (t ++ t') = refreshed_from None t'.
Proof.
  revert pending. induction t as [|e t IH]; intros pending H; cbn [app].
  - destruct pending; [discriminate H | reflexivity].
  - cbn [refreshed_from] in *. destruct pending as [q|].
    + destruct e; try discriminate H.
      apply andb_true_iff in H as [H1 H2]. rewrite H1. cbn [andb]. apply IH, H2.
    + destruct e; apply IH, H.
Qed.

Lemma disciplined_frame (s s' : Session) :
  trace s' = trace s → db s' = db s → disciplined s → disciplined s'.
Proof. unfold disciplined. intros -> ->. auto. Qed.

Lemma disciplined_add_event (s : Session) (e : Event) :
  own_guild e = true → refreshed [e] = true →
  disciplined s → disciplined (add_event e s).
Proof.
  intros He Hr [(t & Ht & Hown & Href) Hdb]. split; [| exact Hdb].
  exists (t ++ [e]). cbn [trace add_event]. rewrite Ht, app_assoc.
  split; [reflexivity |]. split.
  - rewrite forallb_app, Hown. cbn. rewrite He. reflexivity.
  - unfold refreshed. rewrite refreshed_from_app by exact Href. exact Hr.
Qed.

Lemma execute_sql_foreign (q : Sql) (d : gmap (string * Z) (gmap string Cell))
    (table : string) (guild : Z) :
  guild ≠ sql_guild q → execute_sql q d !! (table, guild) = d !! (table, guild).
Proof.
  intros Hne. destruct q as [t c v g|t c v g]; cbn [execute_sql sql_guild] in *.
  - apply lookup_insert_ne. congruence.
  - destruct (d !! (t, g)); [| reflexivity]. apply lookup_insert_ne. congruence.
Qed.

(** A statement on this guild's row, with the refresh that follows it. *)
Lemma disciplined_write (q : Sql) (s : Session) f :
  sql_guild q = guild_id → sql_table q ∈ settings_tables →
  disciplined s →
  disciplined
    (set_db_cache f
       (add_event (Refreshed (sql_table q) guild_id)
          (set_db (execute_sql q) (add_event (Executed q) s)))).
Proof.
  intros Hg Ht [(t & Htr & Hown & Href) Hdb]. split.
  - exists (t ++ [Executed q; Refreshed (sql_table q) guild_id]).
    cbn [trace set_db_cache add_event set_db].
    rewrite Htr, <- !app_assoc. split; [reflexivity |]. split.
    + rewrite forallb_app, Hown. cbn [forallb own_guild andb].
      rewrite Hg, Z.eqb_refl, (bool_decide_eq_true_2 _ Ht). reflexivity.
    + unfold refreshed. rewrite refreshed_from_app by exact Href.
      cbn [refreshed_from]. rewrite Hg, Z.eqb_refl, String.eqb_refl. reflexivity.
  - intros table guild Hne. cbn [db set_db_cache add_event set_db].
    rewrite execute_sql_foreign by congruence. apply Hdb, Hne.
Qed.

Ltac keep_discipline :=
  repeat first
    [ assumption
    | apply disciplined_add_event; [reflexivity | reflexivity |]
    | eapply disciplined_frame; [reflexivity | reflexivity |] ].

Lemma keeps_ret {A} (a : A) : keeps (ret a).
Proof. intros s Hs. exact Hs. Qed.

Lemma keeps_raise {A} (e : Exception) : keeps (raise (A := A) e).
Proof. intros s Hs. exact Hs. Qed.

Lemma keeps_lift {A} (r : Res A) : keeps (lift r).
Proof. intros s Hs. exact Hs. Qed.

Lemma keeps_bind {A B} (m : M Session A) (k : A → M Session B) :
  keeps m → (∀ a, keeps (k a)) → keeps (bind m k).
Proof.
  intros Hm Hk s Hs. specialize (Hm s Hs). unfold bind.
  destruct (m s) as [[a|e| |] s']; cbn in *; try exact Hm.
  apply (Hk a s' Hm).
Qed.

Lemma keeps_set_parent (p : option string) : keeps (modify (set_parent p)).
Proof. intros s Hs. cbn. keep_discipline. Qed.

Lemma keeps_maybe_edit message embed components :
  keeps (maybe_edit message embed components).
Proof.
  intros s Hs. destruct message as [m|]; cbn; [| exact Hs].
  destruct (bool_decide (m ∈ deleted s)); cbn; keep_discipline.
Qed.

Lemma keeps_maybe_delete message : keeps (maybe_delete message).
Proof.
  intros s Hs. destruct message as [m|]; cbn; [| exact Hs].
  destruct (bool_decide (m ∈ deleted s)); cbn; keep_discipline.
Qed.

Lemma keeps_respond embed components : keeps (respond embed components).
Proof. intros s Hs. cbn. keep_discipline. Qed.

Lemma keeps_view_start message : keeps (view_start message).
Proof.
  destruct message; cbn; [apply keeps_ret |].
  destruct start_tolerates_none; [apply keeps_ret | apply keeps_raise].
Qed.

Lemma keeps_next_interaction : keeps next_interaction.
Proof. intros s Hs. unfold next_interaction. destruct (script s); cbn; keep_discipline. Qed.

Lemma keeps_view_wait message items : keeps (view_wait message items).
Proof.
  unfold view_wait. apply keeps_bind; [apply keeps_next_interaction |].
  intros i s Hs. exact Hs.
Qed.

Lemma keeps_cache_get table : keeps (cache_get table).
Proof.
  intros s Hs. unfold cache_get.
  destruct (db_cache s !! (table, guild_id)); cbn; keep_discipline.
Qed.

Lemma keeps_emit_quiet (e : Event) :
  own_guild e = true → refreshed [e] = true → keeps (emit e).
Proof. intros He Hr s Hs. cbn. apply disciplined_add_event; assumption. Qed.

Lemma keeps_write {A} (q : Sql) (k : M Session A) :
  sql_guild q = guild_id → sql_table q ∈ settings_tables →
  keeps k →
  keeps (pool_execute q ;; cache_refresh (sql_table q) ;; k).
Proof.
  intros Hg Ht Hk s Hs.
  erewrite bind_eq by apply pool_execute_eq.
  erewrite bind_eq by apply cache_refresh_eq.
  apply Hk. apply disciplined_write; assumption.
Qed.

Lemma keeps_modify (f : Session → Session) :
  (∀ s, disciplined s → disciplined (f s)) → keeps (modify f).
Proof. intros Hf s Hs. apply Hf, Hs. Qed.

Lemma keeps_set_log_channel log_event channel :
  keeps (set_log_channel log_event channel).
Proof.
  unfold set_log_channel.
  apply keeps_bind.
  { apply keeps_emit_quiet; [apply Z.eqb_refl | reflexivity]. }
  intros _. apply keeps_bind.
  { apply keeps_modify. intros s [Ht Hdb]. split; [exact Ht |].
    intros table guild Hne. cbn [db set_db].
    rewrite execute_sql_foreign by (cbn; congruence). apply Hdb, Hne. }
  intros _. apply keeps_modify. intros s Hs. keep_discipline.
Qed.

Lemma keeps_ask options return_type embed placeholder ignore message :
  keeps (ask options return_type embed placeholder ignore message).
Proof.
  unfold ask. apply keeps_bind; [apply keeps_emit_quiet; reflexivity |]. intros _.
  apply keeps_bind; [apply keeps_next_interaction |]. intros i.
  destruct i as [n|n j|text|]; try apply keeps_raise; try apply keeps_lift.
  destruct (options !! j) as [o|]; [| apply keeps_raise].
  destruct (opt_value o); apply keeps_lift.
Qed.

Lemma keeps_try_else {A B} (body : M Session A)
    (handlers : Exception → option (M Session B)) (orelse : A → M Session B) :
  keeps body →
  (∀ e h, handlers e = Some h → keeps h) →
  (∀ a, keeps (orelse a)) →
  keeps (try_else body handlers orelse).
Proof.
  intros Hb Hh Ho s Hs. specialize (Hb s Hs). unfold try_else.
  destruct (body s) as [[a|e| |] s']; cbn in *; try exact Hb.
  - apply (Ho a s' Hb).
  - destruct (handlers e) as [h|] eqn:E; [apply (Hh e h E s' Hb) | exact Hb].
Qed.

Definition handler_keeps (h : Handler) : Prop := ∀ message, keeps (h message).

Definition actions_keep (actions : Actions) : Prop :=
  ∀ key h, dict_get actions key = Some h → handler_keeps h.

Lemma keeps_call actions key message :
  actions_keep actions → keeps (call actions key message).
Proof.
  intros Ha. unfold call.
  apply keeps_bind; [apply keeps_emit_quiet; reflexivity |]. intros _.
  destruct (dict_get actions key) as [h|] eqn:E; [eapply Ha, E | apply keeps_raise].
Qed.

Lemma keeps_call_value actions v message :
  actions_keep actions → keeps (call_value actions v message).
Proof.
  intros Ha. destruct v; cbn [call_value]; try apply keeps_call; try exact Ha;
    (apply keeps_bind; [apply keeps_emit_quiet; reflexivity |]; intros _;
     apply keeps_raise).
Qed.

Lemma keeps_error_view_handler actions message embed return_to :
  actions_keep actions →
  keeps (error_view_handler actions message embed return_to).
Proof.
  intros Ha. unfold error_view_handler.
  apply keeps_bind; [apply keeps_set_parent |]. intros _.
  apply keeps_bind; [apply keeps_maybe_edit |]. intros _.
  apply keeps_bind; [apply keeps_view_start |]. intros _.
  apply keeps_bind; [apply keeps_view_wait |]. intros v.
  apply keeps_call_value, Ha.
Qed.

Lemma keeps_settings_main actions message :
  actions_keep actions → keeps (settings_main actions message).
Proof.
  intros Ha. unfold settings_main.
  apply keeps_bind; [apply keeps_set_parent |]. intros _.
  apply keeps_bind.
  - destruct message.
    + apply keeps_bind; [apply keeps_maybe_edit |]. intros _.
      apply keeps_bind; [apply keeps_view_start |]. intros _. apply keeps_ret.
    + apply keeps_bind; [apply keeps_respond |]. intros sent.
      apply keeps_bind; [apply keeps_view_start |]. intros _. apply keeps_ret.
  - intros message'. apply keeps_bind; [apply keeps_view_wait |]. intros v.
    apply keeps_call_value, Ha.
Qed.

Lemma mod_config_table : "mod_config"%string ∈ settings_tables.
Proof. apply (bool_decide_unpack _). vm_compute. exact I. Qed.
Lemma log_config_table : "log_config"%string ∈ settings_tables.
Proof. apply (bool_decide_unpack _). vm_compute. exact I. Qed.
Lemma reports_table : "reports"%string ∈ settings_tables.
Proof. apply (bool_decide_unpack _). vm_compute. exact I. Qed.

Lemma keeps_guarded actions message (otherwise : M Session unit) v :
  actions_keep actions → keeps otherwise →
  keeps (if in_keys actions v then call_value actions v message else otherwise).
Proof.
  intros Ha Ho. destruct (in_keys actions v); [apply keeps_call_value, Ha | exact Ho].
Qed.

Lemma keeps_get_settings : keeps get_settings.
Proof.
  unfold get_settings. apply keeps_bind; [apply keeps_cache_get |].
  intros. apply keeps_ret.
Qed.

Lemma keeps_settings_mod actions self message :
  actions_keep actions → handler_keeps self →
  keeps (settings_mod actions self message).
Proof.
  intros Ha Hself. unfold settings_mod.
  apply keeps_bind; [apply keeps_get_settings |]. intros mod_settings.
  apply keeps_bind; [apply keeps_lift |]. intros labels.
  apply keeps_bind; [apply keeps_set_parent |]. intros _.
  apply keeps_bind; [apply keeps_maybe_edit |]. intros _.
  apply keeps_bind; [apply keeps_view_start |]. intros _.
  apply keeps_bind; [apply keeps_view_wait |]. intros v.
  apply keeps_guarded; [exact Ha |].
  apply keeps_bind; [apply keeps_lift |]. intros option.
  apply keeps_bind; [apply keeps_lift |]. intros current.
  apply (keeps_write (Upsert "mod_config" option (CBool (negb current)) guild_id));
    [reflexivity | apply mod_config_table | apply Hself].
Qed.

Lemma keeps_settings_logging actions self message :
  actions_keep actions → handler_keeps self →
  keeps (settings_logging actions self message).
Proof.
  intros Ha Hself. unfold settings_logging.
  apply keeps_bind.
  { unfold get_log_channel_ids_view. apply keeps_bind; [apply keeps_cache_get |].
    intros. apply keeps_ret. }
  intros log_channels.
  apply keeps_bind; [apply keeps_lift |]. intros names.
  apply keeps_bind.
  { unfold is_color_enabled. apply keeps_bind; [apply keeps_cache_get |].
    intros. apply keeps_ret. }
  intros is_color.
  apply keeps_bind; [apply keeps_set_parent |]. intros _.
  apply keeps_bind; [apply keeps_maybe_edit |]. intros _.
  apply keeps_bind; [apply keeps_view_start |]. intros _.
  apply keeps_bind; [apply keeps_view_wait |]. intros v.
  apply keeps_guarded; [exact Ha |].
  destruct v as [|log_event|z|label state]; try apply keeps_lift.
  - apply keeps_bind; [apply keeps_lift |]. intros event_name.
    apply keeps_try_else; [apply keeps_ask | |].
    + intros e h He. destruct e; try discriminate; injection He as <-.
      * apply keeps_error_view_handler, Ha.
      * apply keeps_call, Ha.
    + intros channel. apply keeps_bind; [apply keeps_lift |]. intros id.
      apply keeps_bind; [apply keeps_set_log_channel |]. intros _. apply Hself.
  - destruct (String.eqb label "Color logs"); [| apply keeps_lift].
    apply (keeps_write (Update "log_config" "color" (CBool state) guild_id));
      [reflexivity | apply log_config_table | apply Hself].
Qed.

Lemma keeps_write_pinged_roles self message pinged_roles :
  handler_keeps self → keeps (write_pinged_roles self message pinged_roles).
Proof.
  intros Hself. unfold write_pinged_roles.
  apply keeps_bind; [apply keeps_lift |]. intros ids.
  apply (keeps_write (Upsert "reports" "pinged_role_ids" (CInts ids) guild_id));
    [reflexivity | apply reports_table | apply Hself].
Qed.

Lemma keeps_roles_handlers actions self message pinged_roles description e h :
  actions_keep actions → handler_keeps self →
  match e with
  | TypeError =>
      Some (error_view_handler actions message (role_not_found_embed description)
              "Reports")
  | AsyncTimeoutError =>
      Some (call actions "Quit" message ;;
            write_pinged_roles self message pinged_roles)
  | _ => None
  end = Some h →
  keeps h.
Proof.
  intros Ha Hself He. destruct e; try discriminate; injection He as <-.
  - apply keeps_error_view_handler, Ha.
  - apply keeps_bind; [apply keeps_call, Ha |].
    intros _. apply keeps_write_pinged_roles, Hself.
Qed.

Lemma keeps_roles_branches actions self message v pinged_roles unadded_roles :
  actions_keep actions → handler_keeps self →
  keeps (roles_branches actions self message v pinged_roles unadded_roles).
Proof.
  intros Ha Hself. unfold roles_branches.
  destruct (bool_decide (v = VStr "Add Role")).
  { apply keeps_bind; [apply keeps_lift |]. intros options.
    apply keeps_try_else.
    - apply keeps_bind; [apply keeps_ask |]. intros role. apply keeps_ret.
    - intros e h He. eapply keeps_roles_handlers; eauto.
    - intros roles'. apply keeps_write_pinged_roles, Hself. }
  destruct (bool_decide (v = VStr "Remove Role")).
  { apply keeps_bind; [apply keeps_lift |]. intros options.
    apply keeps_try_else.
    - apply keeps_bind; [apply keeps_ask |]. intros role.
      destruct (bool_decide _); [apply keeps_ret | apply keeps_raise].
    - intros e h He. eapply keeps_roles_handlers; eauto.
    - intros roles'. apply keeps_write_pinged_roles, Hself. }
  apply keeps_write_pinged_roles, Hself.
Qed.

Lemma keeps_settings_report actions self message :
  actions_keep actions → handler_keeps self →
  keeps (settings_report actions self message).
Proof.
  intros Ha Hself. unfold settings_report.
  apply keeps_bind; [apply keeps_cache_get |]. intros records.
  apply keeps_bind; [apply keeps_set_parent |]. intros _.
  apply keeps_bind; [apply keeps_maybe_edit |]. intros _.
  apply keeps_bind; [apply keeps_view_start |]. intros _.
  apply keeps_bind; [apply keeps_view_wait |]. intros v.
  apply keeps_guarded; [exact Ha |].
  destruct (match v with
            | VTuple label state =>
                if String.eqb label "Enabled" then Some state else None
            | _ => None
            end) as [state|].
  { apply (keeps_write (Upsert "reports" "is_enabled" (CBool state) guild_id));
      [reflexivity | apply reports_table | apply Hself]. }
  destruct (bool_decide (v = VStr "Set Channel"));
    [| apply keeps_roles_branches; assumption].
  apply keeps_try_else; [apply keeps_ask | |].
  - intros e h He. destruct e; try discriminate; injection He as <-.
    + apply keeps_error_view_handler, Ha.
    + apply keeps_bind; [apply keeps_call, Ha |].
      intros _. apply keeps_roles_branches; assumption.
  - intros channel. apply keeps_bind; [apply keeps_lift |]. intros id.
    apply (keeps_write (Upsert "reports" "channel_id" (CInt id) guild_id));
      [reflexivity | apply reports_table | apply Hself].
Qed.

Lemma keeps_back actions message :
  actions_keep actions → keeps (back actions message).
Proof.
  intros Ha. unfold back. apply keeps_bind; [intros s Hs; exact Hs |].
  intros ctx. destruct (parent ctx) as [menu|]; [| apply keeps_ret].
  destruct (String.eqb menu ""); [apply keeps_ret | apply keeps_call, Ha].
Qed.

Lemma handlers_keep (fuel : nat) : actions_keep (menu_actions (handlers fuel)).
Proof.
  induction fuel as [|fuel IH].
  - intros key h Hk message s Hs.
    assert (h = out_of_fuel) as ->.
    { cbn in Hk. repeat case_decide; congruence. }
    exact Hs.
  - intros key h Hk.
    cbn [handlers menu_actions h_main h_mod h_automod h_logging h_report
         h_timeout_or_quit h_back dict_get] in Hk.
    repeat case_decide; try discriminate; injection Hk as <-; intros message.
    + apply keeps_settings_main, IH.
    + apply keeps_settings_mod; [exact IH |]. apply (IH "Moderation"%string). reflexivity.
    + apply keeps_ret.
    + apply keeps_settings_logging; [exact IH |]. apply (IH "Logging"%string). reflexivity.
    + apply keeps_settings_report; [exact IH |]. apply (IH "Reports"%string). reflexivity.
    + apply keeps_maybe_delete.
    + apply keeps_maybe_delete.
    + apply keeps_back, IH.
Qed.

End Discipline.

Section DisciplineOfSessions.
Context {world : World}.

Lemma settings_cmd_disciplined (fuel : nat) (s : Session) :
  disciplined (trace s) (db s) (settings_cmd fuel s).2.
Proof.
  unfold settings_cmd. erewrite bind_eq by reflexivity.
  apply (handlers_keep (trace s) (db s) fuel "Main"%string); [reflexivity |].
  split; [| reflexivity]. exists []. rewrite app_nil_r. repeat split.
Qed.

(** X22.  Whatever the fuel and the script, a [/settings] session writes
    only to the rows of its own guild: every statement it executes and every
    log channel it sets carries [ctx.guild_id] and one of the three settings
    tables, and the rows of every other guild are at the end what they were
    at the start. *)
Theorem session_writes_only_own_guild (fuel : nat) (s : Session) :
  let s' := (settings_cmd fuel s).2 in
  forallb own_guild (drop (length (trace s)) (trace s')) = true
  ∧ ∀ table guild, guild ≠ guild_id →
      db s' !! (table, guild) = db s !! (table, guild).
Proof.
  destruct (settings_cmd_disciplined fuel s) as [(t & Ht & Hown & _) Hdb].
  cbv zeta. rewrite Ht, drop_app_length. split; [exact Hown | exact Hdb].
Qed.

(** X23.  Whatever the fuel and the script, every statement a [/settings]
    session executes is followed at once by the refresh of the cache entry
    of the same table and guild: no menu is drawn, and no answer awaited,
    between a write and its refresh. *)
Theorem session_refreshes_after_every_statement (fuel : nat) (s : Session) :
  refreshed (drop (length (trace s)) (trace (settings_cmd fuel s).2)) = true.
Proof.
  destruct (settings_cmd_disciplined fuel s) as [(t & Ht & _ & Href) _].
  rewrite Ht, drop_app_length. exact Href.
Qed.

End DisciplineOfSessions.

(** ** Every re-entry of a menu is preceded by an answer of the user *)

Section Progress.
Context {world : World}.

(** The interactions still to come. *)
Definition budget (s : Session) : nat := length (script s).

(** The names [ctx.parent] takes: those of menu functions that wait. *)
Definition parent_menu (s : Session) : Prop :=
  parent s = None ∨ parent s = Some "Main"%string
  ∨ parent s = Some "Logging"%string ∨ parent s = Some "Reports"%string.

(** [m] calls no menu function and awaits nothing, or suspends. *)
Definition quiet {A} (m : M Session A) : Prop :=
  ∀ s, parent_menu s →
    (m s).1 ≠ OutOfFuel
    ∧ (budget (m s).2 ≤ budget s)%nat
    ∧ parent_menu (m s).2.

(** [m] calls no menu function, and goes on only with an answer. *)
Definition consumes {A} (m : M Session A) : Prop :=
  quiet m
  ∧ ∀ s, parent_menu s → (m s).1 ≠ Suspended → (S (budget (m s).2) ≤ budget s)%nat.

(** With at most [b] interactions to come, [m] has fuel enough. *)
Definition fine {A} (b : nat) (m : M Session A) : Prop :=
  ∀ s, (budget s ≤ b)%nat → parent_menu s → (m s).1 ≠ OutOfFuel.

Lemma quiet_ret {A} (a : A) : quiet (ret a).
Proof. intros s Hp. cbn. auto. Qed.

Lemma quiet_raise {A} (e : Exception) : quiet (raise (A := A) e).
Proof. intros s Hp. cbn. auto. Qed.

Lemma quiet_lift {A} (r : Res A) : r ≠ OutOfFuel → quiet (lift r).
Proof. intros Hr s Hp. cbn. auto. Qed.

Lemma quiet_frame (f : Session → Session) :
  (∀ s, script (f s) = script s) →
  (∀ s, parent_menu s → parent_menu (f s)) →
  quiet (modify f).
Proof.
  intros Hs Hp s Hpm. cbn. unfold budget. rewrite Hs. auto using Hp.
Qed.

Lemma quiet_bind {A B} (m : M Session A) (k : A → M Session B) :
  quiet m → (∀ a, quiet (k a)) → quiet (bind m k).
Proof.
  intros Hm Hk s Hp. destruct (Hm s Hp) as (Hf & Hb & Hp'). unfold bind.
  destruct (m s) as [[a|e| |] s']; cbn in *;
    try (split; [discriminate | auto]);
    try (exfalso; apply Hf; reflexivity).
  destruct (Hk a s' Hp') as (Hf' & Hb' & Hp''). repeat split; auto. lia.
Qed.

Lemma fine_quiet {A} (b : nat) (m : M Session A) : quiet m → fine b m.
Proof. intros Hm s _ Hp. apply (Hm s Hp). Qed.

Lemma fine_bind {A B} (b : nat) (m : M Session A) (k : A → M Session B) :
  quiet m → (∀ a, fine b (k a)) → fine b (bind m k).
Proof.
  intros Hm Hk s Hb Hp. destruct (Hm s Hp) as (Hf & Hb' & Hp'). unfold bind.
  destruct (m s) as [[a|e| |] s']; cbn in *; try discriminate;
    try (exfalso; apply Hf; reflexivity).
  apply Hk; [lia | exact Hp'].
Qed.

Lemma fine_bind_wait {A B} (b : nat) (m : M Session A) (k : A → M Session B) :
  consumes m → (∀ b' a, b = S b' → fine b' (k a)) → fine b (bind m k).
Proof.
  intros [Hm Hc] Hk s Hb Hp. destruct (Hm s Hp) as (Hf & _ & Hp').
  specialize (Hc s Hp). unfold bind.
  destruct (m s) as [[a|e| |] s']; cbn in *; try discriminate;
    try (exfalso; apply Hf; reflexivity).
  specialize (Hc ltac:(discriminate)).
  destruct b as [|b']; [lia |]. apply (Hk b' a eq_refl); [lia | exact Hp'].
Qed.

Lemma fine_try_else_wait {A B} (b : nat) (body : M Session A)
    (handlers : Exception → option (M Session B)) (orelse : A → M Session B) :
  consumes body →
  (∀ b' e h, b = S b' → handlers e = Some h → fine b' h) →
  (∀ b' a, b = S b' → fine b' (orelse a)) →
  fine b (try_else body handlers orelse).
Proof.
  intros [Hm Hc] Hh Ho s Hb Hp. destruct (Hm s Hp) as (Hf & _ & Hp').
  specialize (Hc s Hp). unfold try_else.
  destruct (body s) as [[a|e| |] s']; cbn in *; try discriminate;
    try (exfalso; apply Hf; reflexivity).
  - specialize (Hc ltac:(discriminate)).
    destruct b as [|b']; [lia |]. apply (Ho b' a eq_refl); [lia | exact Hp'].
  - specialize (Hc ltac:(discriminate)).
    destruct (handlers e) as [h|] eqn:E; [| discriminate].
    destruct b as [|b']; [lia |]. apply (Hh b' e h eq_refl E); [lia | exact Hp'].
Qed.

Lemma fine_le {A} (b b' : nat) (m : M Session A) :
  fine b m → (b' ≤ b)%nat → fine b' m.
Proof. intros Hm Hle s Hb Hp. apply Hm; [lia | exact Hp]. Qed.

Lemma consumes_bind {A B} (m : M Session A) (k : A → M Session B) :
  consumes m → (∀ a, quiet (k a)) → consumes (bind m k).
Proof.
  intros [Hm Hc] Hk. split; [apply quiet_bind; assumption |].
  intros s Hp. destruct (Hm s Hp) as (Hf & Hb & Hp'). specialize (Hc s Hp).
  unfold bind. destruct (m s) as [[a|e| |] s']; cbn in *; auto.
  intros _. destruct (Hk a s' Hp') as (_ & Hb' & _).
  specialize (Hc ltac:(discriminate)). lia.
Qed.

Lemma quiet_emit (e : Event) : quiet (emit e).
Proof. apply quiet_frame; auto. Qed.

Lemma quiet_set_parent_main : quiet (modify (set_parent (Some "Main"%string))).
Proof. apply quiet_frame; [reflexivity |]. intros s _. right. left. reflexivity. Qed.

Lemma quiet_set_parent_none : quiet (modify (set_parent None)).
Proof. apply quiet_frame; [reflexivity |]. intros s _. left. reflexivity. Qed.

Lemma quiet_maybe_edit message embed components :
  quiet (maybe_edit message embed components).
Proof.
  destruct message as [m|]; [| apply quiet_raise].
  intros s Hp. cbn. destruct (bool_decide (m ∈ deleted s)); cbn; auto.
Qed.

Lemma quiet_maybe_delete message : quiet (maybe_delete message).
Proof.
  destruct message as [m|]; [| apply quiet_raise].
  intros s Hp. cbn. destruct (bool_decide (m ∈ deleted s)); cbn; auto.
Qed.

Lemma quiet_respond embed components : quiet (respond embed components).
Proof. intros s Hp. cbn. auto. Qed.

Lemma quiet_view_start message : quiet (view_start message).
Proof.
  destruct message; cbn; [apply quiet_ret |].
  destruct start_tolerates_none; [apply quiet_ret | apply quiet_raise].
Qed.

Lemma consumes_next_interaction : consumes next_interaction.
Proof.
  split.
  - intros s Hp. unfold next_interaction, budget.
    destruct (script s) eqn:E; cbn; rewrite ?E; cbn; repeat split; auto; discriminate.
  - intros s Hp. unfold next_interaction, budget.
    destruct (script s) eqn:E; cbn; [congruence | lia].
Qed.

Lemma consumes_view_wait message items : consumes (view_wait message items).
Proof.
  unfold view_wait. apply consumes_bind; [apply consumes_next_interaction |].
  intros i s Hp. cbn. auto.
Qed.

Lemma quiet_cache_get table : quiet (cache_get table).
Proof.
  intros s Hp. unfold cache_get.
  destruct (db_cache s !! (table, guild_id)); cbn; auto.
Qed.

Lemma quiet_pool_execute q : quiet (pool_execute q).
Proof.
  unfold pool_execute. apply quiet_bind; [apply quiet_emit |]. intros _.
  apply quiet_frame; auto.
Qed.

Lemma quiet_cache_refresh table : quiet (cache_refresh table).
Proof.
  unfold cache_refresh. apply quiet_bind; [apply quiet_emit |]. intros _.
  apply quiet_frame; auto.
Qed.

Lemma quiet_set_log_channel log_event channel :
  quiet (set_log_channel log_event channel).
Proof.
  unfold set_log_channel. apply quiet_bind; [apply quiet_emit |]. intros _.
  apply quiet_bind; [apply quiet_frame; auto |]. intros _. apply quiet_frame; auto.
Qed.

Lemma traverse_fuel {A B} (f : A → Res B) (l : list A) :
  (∀ x, f x ≠ OutOfFuel) → traverse f l ≠ OutOfFuel.
Proof.
  intros Hf. induction l as [|x l IH]; cbn [traverse]; [discriminate |].
  specialize (Hf x). destruct (f x); try congruence; try discriminate.
  destruct (traverse f l); congruence.
Qed.

Lemma resolve_fuel return_type c r : resolve return_type c r ≠ OutOfFuel.
Proof.
  destruct return_type, c as [c|], r as [r|]; cbn; try discriminate;
    destruct (channel_textable c); discriminate.
Qed.

Lemma resolve_text_fuel return_type ignore text :
  resolve_text return_type ignore text ≠ OutOfFuel.
Proof.
  unfold resolve_text. destruct (bool_decide _); [discriminate | apply resolve_fuel].
Qed.

Lemma consumes_ask options return_type embed placeholder ignore message :
  consumes (ask options return_type embed placeholder ignore message).
Proof.
  unfold ask. split.
  - apply quiet_bind; [apply quiet_emit |]. intros _.
    apply quiet_bind; [apply consumes_next_interaction |]. intros i.
    destruct i as [n|n j|text|]; try apply quiet_raise.
    + destruct (options !! j) as [o|]; [| apply quiet_raise].
      destruct (opt_value o); apply quiet_lift;
        [apply resolve_text_fuel | apply resolve_fuel].
    + apply quiet_lift, resolve_text_fuel.
  - intros s Hp. erewrite bind_eq by reflexivity.
    destruct consumes_next_interaction as [Hq Hc].
    assert (Hp' : parent_menu (add_event (Asked message embed options placeholder) s))
      by exact Hp.
    specialize (Hc _ Hp'). destruct (Hq _ Hp') as (_ & _ & Hp'').
    unfold bind.
    destruct (next_interaction (add_event _ s)) as [[i|e| |] s'] eqn:E;
      cbn in *; try (intros _; apply Hc; discriminate); try congruence.
    intros _. specialize (Hc ltac:(discriminate)).
    assert (Hsame : ∀ r : Res Answer, budget (lift r s').2 = budget s') by reflexivity.
    destruct i as [n|n j|text|]; cbn; try exact Hc.
    destruct (options !! j) as [o|]; cbn; [| exact Hc].
    destruct (opt_value o); exact Hc.
Qed.

Lemma subscript_fuel {V} (d : list (string * V)) (k : string) :
  subscript d k ≠ OutOfFuel.
Proof. unfold subscript. destruct (dict_get d k); discriminate. Qed.

Lemma get_key_fuel (d : list (string * string)) (v : string) :
  get_key d v ≠ OutOfFuel.
Proof.
  unfold get_key. destruct (index v d.*2) as [i|]; [| discriminate].
  destruct (d.*1 !! i); discriminate.
Qed.

(** A menu function has fuel enough when twice the interactions to come,
    and one, are at hand; any function of the table with one unit more. *)
Definition menu_fine (f : nat) (h : Handler) : Prop :=
  ∀ message b, (2 * b + 1 ≤ f)%nat → fine b (h message).

Definition any_fine (f : nat) (h : Handler) : Prop :=
  ∀ message b, (2 * b + 2 ≤ f)%nat → fine b (h message).

Definition table_fine (f : nat) : Prop :=
  (∀ key h, dict_get (menu_actions (handlers f)) key = Some h → any_fine f h)
  ∧ menu_fine f (h_main (handlers f))
  ∧ menu_fine f (h_mod (handlers f))
  ∧ menu_fine f (h_logging (handlers f))
  ∧ menu_fine f (h_report (handlers f)).

Lemma fine_call (n b : nat) (key : string) (message : option nat) :
  table_fine n → (2 * b + 2 ≤ n)%nat →
  fine b (call (menu_actions (handlers n)) key message).
Proof.
  intros [Ht _] Hb. unfold call. apply fine_bind; [apply quiet_emit |]. intros _.
  destruct (dict_get (menu_actions (handlers n)) key) as [h|] eqn:E.
  - apply (Ht key h E message b Hb).
  - apply fine_quiet, quiet_raise.
Qed.

Lemma fine_call_value (n b : nat) (v : Value) (message : option nat) :
  table_fine n → (2 * b + 2 ≤ n)%nat →
  fine b (call_value (menu_actions (handlers n)) v message).
Proof.
  intros Ht Hb. destruct v; cbn [call_value]; try (apply fine_call; assumption);
    apply fine_quiet, quiet_bind; try apply quiet_emit; intros _; apply quiet_raise.
Qed.

Lemma quiet_call_quit (n : nat) (message : option nat) :
  (1 ≤ n)%nat → quiet (call (menu_actions (handlers n)) "Quit" message).
Proof.
  intros Hn. destruct n as [|n]; [lia |]. unfold call.
  apply quiet_bind; [apply quiet_emit |]. intros _. apply quiet_maybe_delete.
Qed.

Lemma fine_error_view_handler (n b : nat) message embed return_to :
  table_fine n → (2 * b ≤ n)%nat →
  return_to = "Logging"%string ∨ return_to = "Reports"%string →
  fine b (error_view_handler (menu_actions (handlers n)) message embed return_to).
Proof.
  intros Ht Hb Hr. unfold error_view_handler.
  apply fine_bind.
  { apply quiet_frame; [reflexivity |]. intros s _. unfold parent_menu. cbn.
    destruct Hr as [-> | ->]; auto. }
  intros _. apply fine_bind; [apply quiet_maybe_edit |]. intros _.
  apply fine_bind; [apply quiet_view_start |]. intros _.
  apply fine_bind_wait; [apply consumes_view_wait |]. intros b' v ->.
  apply fine_call_value; [exact Ht | lia].
Qed.

Lemma fine_settings_main (n : nat) :
  table_fine n → menu_fine (S n) (settings_main (menu_actions (handlers n))).
Proof.
  intros Ht message b Hb. unfold settings_main.
  apply fine_bind; [apply quiet_set_parent_none |]. intros _.
  apply fine_bind.
  { destruct message.
    - apply quiet_bind; [apply quiet_maybe_edit |]. intros _.
      apply quiet_bind; [apply quiet_view_start |]. intros _. apply quiet_ret.
    - apply quiet_bind; [apply quiet_respond |]. intros sent.
      apply quiet_bind; [apply quiet_view_start |]. intros _. apply quiet_ret. }
  intros message'. apply fine_bind_wait; [apply consumes_view_wait |].
  intros b' v ->. apply fine_call_value; [exact Ht | lia].
Qed.

Lemma fine_write (b : nat) (q : Sql) (table : string) (self : Handler)
    (message : option nat) (n : nat) :
  menu_fine n self → (2 * b + 1 ≤ n)%nat →
  fine b (pool_execute q ;; cache_refresh table ;; self message).
Proof.
  intros Hself Hb.
  apply fine_bind; [apply quiet_pool_execute |]. intros _.
  apply fine_bind; [apply quiet_cache_refresh |]. intros _. apply Hself, Hb.
Qed.

Lemma fine_guarded (n b : nat) (v : Value) (message : option nat)
    (otherwise : M Session unit) :
  table_fine n → (2 * b + 2 ≤ n)%nat → fine b otherwise →
  fine b (if in_keys (menu_actions (handlers n)) v
          then call_value (menu_actions (handlers n)) v message else otherwise).
Proof.
  intros Ht Hb Ho. destruct (in_keys _ v); [apply fine_call_value; assumption | exact Ho].
Qed.

Lemma quiet_get_settings : quiet get_settings.
Proof.
  unfold get_settings. apply quiet_bind; [apply quiet_cache_get |].
  intros. apply quiet_ret.
Qed.

Lemma fine_settings_mod (n : nat) :
  table_fine n →
  menu_fine (S n) (settings_mod (menu_actions (handlers n)) (h_mod (handlers n))).
Proof.
  intros Ht message b Hb. unfold settings_mod.
  apply fine_bind; [apply quiet_get_settings |]. intros mod_settings.
  apply fine_bind.
  { apply quiet_lift, traverse_fuel. intros x. apply subscript_fuel. }
  intros labels.
  apply fine_bind; [apply quiet_set_parent_main |]. intros _.
  apply fine_bind; [apply quiet_maybe_edit |]. intros _.
  apply fine_bind; [apply quiet_view_start |]. intros _.
  apply fine_bind_wait; [apply consumes_view_wait |]. intros b' v ->.
  apply fine_guarded; [exact Ht | lia |].
  apply fine_bind.
  { apply quiet_lift. destruct v; try discriminate. apply get_key_fuel. }
  intros option.
  apply fine_bind; [apply quiet_lift, subscript_fuel |]. intros current.
  eapply fine_write; [apply Ht | lia].
Qed.

Lemma fine_settings_logging (n : nat) :
  table_fine n →
  menu_fine (S n)
    (settings_logging (menu_actions (handlers n)) (h_logging (handlers n))).
Proof.
  intros Ht message b Hb. unfold settings_logging.
  apply fine_bind.
  { unfold get_log_channel_ids_view. apply quiet_bind; [apply quiet_cache_get |].
    intros. apply quiet_ret. }
  intros log_channels.
  apply fine_bind.
  { apply quiet_lift, traverse_fuel. intros x. apply subscript_fuel. }
  intros names.
  apply fine_bind.
  { unfold is_color_enabled. apply quiet_bind; [apply quiet_cache_get |].
    intros. apply quiet_ret. }
  intros is_color.
  apply fine_bind; [apply quiet_set_parent_main |]. intros _.
  apply fine_bind; [apply quiet_maybe_edit |]. intros _.
  apply fine_bind; [apply quiet_view_start |]. intros _.
  apply fine_bind_wait; [apply consumes_view_wait |]. intros b' v ->.
  apply fine_guarded; [exact Ht | lia |].
  destruct v as [|log_event|z|label state];
    try (apply fine_quiet, quiet_lift; discriminate).
  - apply fine_bind; [apply quiet_lift, subscript_fuel |]. intros event_name.
    apply fine_try_else_wait; [apply consumes_ask | |].
    + intros b'' e h -> He. destruct e; try discriminate; injection He as <-.
      * apply fine_error_view_handler; [exact Ht | lia | auto].
      * apply fine_call; [exact Ht | lia].
    + intros b'' channel ->.
      apply fine_bind.
      { apply quiet_lift. destruct channel as [c|r|v]; try discriminate.
        destruct (String.eqb v "disable"); discriminate. }
      intros id.
      apply fine_bind; [apply quiet_set_log_channel |]. intros _.
      apply Ht. lia.
  - destruct (String.eqb label "Color logs");
      [| apply fine_quiet, quiet_lift; discriminate].
    eapply fine_write; [apply Ht | lia].
Qed.

Lemma role_ids_fuel (pinged_roles : list (option Role)) :
  traverse (λ r : option Role,
              match r with
              | Some r => Ret (role_id r)
              | None => Exc (AttributeError "'NoneType' object has no attribute 'id'")
              end) pinged_roles ≠ OutOfFuel.
Proof. apply traverse_fuel. intros [r|]; discriminate. Qed.

Lemma role_options_fuel (rs : list (option Role)) : role_options rs ≠ OutOfFuel.
Proof. apply traverse_fuel. intros [r|]; discriminate. Qed.

Lemma fine_write_pinged_roles (n b : nat) (message : option nat)
    (pinged_roles : list (option Role)) :
  table_fine n → (2 * b + 1 ≤ n)%nat →
  fine b (write_pinged_roles (h_report (handlers n)) message pinged_roles).
Proof.
  intros Ht Hb. unfold write_pinged_roles.
  apply fine_bind; [apply quiet_lift, role_ids_fuel |]. intros ids.
  eapply fine_write; [apply Ht | exact Hb].
Qed.

Lemma fine_roles_handlers (n b : nat) message pinged_roles description e h :
  table_fine n → (2 * b + 1 ≤ n)%nat →
  match e with
  | TypeError =>
      Some (error_view_handler (menu_actions (handlers n)) message
              (role_not_found_embed description) "Reports")
  | AsyncTimeoutError =>
      Some (call (menu_actions (handlers n)) "Quit" message ;;
            write_pinged_roles (h_report (handlers n)) message pinged_roles)
  | _ => None
  end = Some h →
  fine b h.
Proof.
  intros Ht Hb He. destruct e; try discriminate; injection He as <-.
  - apply fine_error_view_handler; [exact Ht | lia | auto].
  - apply fine_bind; [apply quiet_call_quit; lia |]. intros _.
    apply fine_write_pinged_roles; assumption.
Qed.

Lemma fine_roles_branches (n b : nat) message v pinged_roles unadded_roles :
  table_fine n → (2 * b + 1 ≤ n)%nat →
  fine b (roles_branches (menu_actions (handlers n)) (h_report (handlers n))
            message v pinged_roles unadded_roles).
Proof.
  intros Ht Hb. unfold roles_branches.
  destruct (bool_decide (v = VStr "Add Role")).
  { apply fine_bind; [apply quiet_lift, role_options_fuel |]. intros options.
    apply fine_try_else_wait.
    - apply consumes_bind; [apply consumes_ask |]. intros role. apply quiet_ret.
    - intros b' e h -> He. eapply fine_roles_handlers; [exact Ht | | exact He]. lia.
    - intros b' roles' ->. apply fine_write_pinged_roles; [exact Ht | lia]. }
  destruct (bool_decide (v = VStr "Remove Role")).
  { apply fine_bind; [apply quiet_lift, role_options_fuel |]. intros options.
    apply fine_try_else_wait.
    - apply consumes_bind; [apply consumes_ask |]. intros role.
      destruct (bool_decide _); [apply quiet_ret | apply quiet_raise].
    - intros b' e h -> He. eapply fine_roles_handlers; [exact Ht | | exact He]. lia.
    - intros b' roles' ->. apply fine_write_pinged_roles; [exact Ht | lia]. }
  apply fine_write_pinged_roles; assumption.
Qed.

Lemma fine_settings_report (n : nat) :
  table_fine n →
  menu_fine (S n)
    (settings_report (menu_actions (handlers n)) (h_report (handlers n))).
Proof.
  intros Ht message b Hb. unfold settings_report.
  apply fine_bind; [apply quiet_cache_get |]. intros records.
  apply fine_bind; [apply quiet_set_parent_main |]. intros _.
  apply fine_bind; [apply quiet_maybe_edit |]. intros _.
  apply fine_bind; [apply quiet_view_start |]. intros _.
  apply fine_bind_wait; [apply consumes_view_wait |]. intros b' v ->.
  apply fine_guarded; [exact Ht | lia |].
  destruct (match v with
            | VTuple label state =>
                if String.eqb label "Enabled" then Some state else None
            | _ => None
            end) as [state|].
  { eapply fine_write; [apply Ht | lia]. }
  destruct (bool_decide (v = VStr "Set Channel"));
    [| apply fine_roles_branches; [exact Ht | lia]].
  apply fine_try_else_wait; [apply consumes_ask | |].
  - intros b'' e h -> He. destruct e; try discriminate; injection He as <-.
    + apply fine_error_view_handler; [exact Ht | lia | auto].
    + apply fine_bind; [apply quiet_call_quit; lia |]. intros _.
      apply fine_roles_branches; [exact Ht | lia].
  - intros b'' channel ->.
    apply fine_bind.
    { apply quiet_lift. destruct channel; discriminate. }
    intros id. eapply fine_write; [apply Ht | lia].
Qed.

Lemma fine_back (n : nat) :
  table_fine n → any_fine (S n) (back (menu_actions (handlers n))).
Proof.
  intros Ht message b Hb s Hbs Hp. unfold back.
  erewrite bind_eq by reflexivity.
  assert (Hmenu : ∀ key h, dict_get (menu_actions (handlers n)) key = Some h →
                           menu_fine n h →
                           (call (menu_actions (handlers n)) key message s).1
                           ≠ OutOfFuel).
  { intros key h Hk Hh. erewrite call_registered by exact Hk.
    apply (Hh message b); [lia | exact Hbs | exact Hp]. }
  destruct Ht as (_ & Hmain & _ & Hlog & Hrep).
  destruct Hp as [Hp|[Hp|[Hp|Hp]]]; rewrite Hp; cbn [String.eqb Ascii.eqb Bool.eqb].
  - discriminate.
  - eapply Hmenu; [apply menu_actions_get | exact Hmain].
  - eapply Hmenu; [apply menu_actions_get | exact Hlog].
  - eapply Hmenu; [apply menu_actions_get | exact Hrep].
Qed.

Lemma menu_fine_any (f : nat) (h : Handler) : menu_fine f h → any_fine f h.
Proof. intros Hh message b Hb. apply Hh. lia. Qed.

Lemma handlers_fine (fuel : nat) : table_fine fuel.
Proof.
  induction fuel as [|n IH].
  - split; [| repeat split]; try (intros message b Hb; lia).
    intros key h _ message b Hb. lia.
  - pose proof (fine_settings_main n IH) as Hmain.
    pose proof (fine_settings_mod n IH) as Hmod.
    pose proof (fine_settings_logging n IH) as Hlog.
    pose proof (fine_settings_report n IH) as Hrep.
    split; [| repeat split; assumption].
    intros key h Hk.
    cbn [handlers menu_actions h_main h_mod h_automod h_logging h_report
         h_timeout_or_quit h_back dict_get] in Hk.
    repeat case_decide; try discriminate; injection Hk as <-.
    + apply menu_fine_any, Hmain.
    + apply menu_fine_any, Hmod.
    + intros message b _. apply fine_quiet, quiet_ret.
    + apply menu_fine_any, Hlog.
    + apply menu_fine_any, Hrep.
    + intros message b _. apply fine_quiet, quiet_maybe_delete.
    + intros message b _. apply fine_quiet, quiet_maybe_delete.
    + apply fine_back, IH.
Qed.

(** X24.  A session never re-enters a menu without an answer of the user in
    between, except through Back, which leads to a menu that waits: with
    [n] interactions to come, a chain of [2 n + 1] calls is enough, so that
    with this much fuel [/settings] returns, raises, or is left suspended
    waiting for the user. *)
Theorem session_has_fuel_enough (fuel : nat) (s : Session) :
  (2 * length (script s) + 1 ≤ fuel)%nat →
  (settings_cmd fuel s).1 = Suspended
  ∨ (settings_cmd fuel s).1 = Ret tt
  ∨ ∃ e, (settings_cmd fuel s).1 = Exc e.
Proof.
  intros Hfuel.
  assert (Hfine : (settings_cmd fuel s).1 ≠ OutOfFuel).
  { unfold settings_cmd. erewrite bind_eq by reflexivity.
    destruct (handlers_fine fuel) as (_ & Hmain & _).
    apply (Hmain None (length (script s)) Hfuel); [reflexivity |].
    left. reflexivity. }
  destruct (settings_cmd fuel s).1 as [[]|e| |]; eauto. congruence.
Qed.

End Progress.

End Settings.

(** ** A concrete guild, for evaluating sessions *)

Module SettingsDemo.
Import Py Settings.

Definition general : Channel :=
  {| channel_id := 100; channel_name := "general"; channel_textable := true |}.
Definition voice : Channel :=
  {| channel_id := 101; channel_name := "Lounge"; channel_textable := false |}.
Definition moderators : Role := {| role_id := 200; role_name := "Moderators" |}.

(** Free text is resolved when it is the name of a channel or of a role. *)
Definition by_channel_name (text : string) : option Channel :=
  List.find (λ c, String.eqb (channel_name c) text) [general; voice].
Definition by_role_name (text : string) : option Role :=
  List.find (λ r, String.eqb (role_name r) text) [moderators].

Definition demo_world (tolerant : bool) : World :=
  {| guild_id := 1;
     channels := [general; voice];
     roles := [moderators];
     bot_permissions := 8;
     mod_settings_strings :=
       [("dm_users_on_punish", "DM users after punishment");
        ("is_ephemeral", "Send mod commands ephemerally")]%string;
     log_event_strings :=
       [("ban", "Ban"); ("kick", "Kick")]%string;
     default_mod_settings :=
       [("dm_users_on_punish", true); ("is_ephemeral", false)]%string;
     log_categories := ["ban"; "kick"]%string;
     default_color := false;
     convert_channel := by_channel_name;
     convert_role := by_role_name;
     start_tolerates_none := tolerant |}.

(** A session that has written nothing yet. *)
Definition fresh (script : list Interaction) : Session :=
  {| db := ∅; db_cache := ∅; parent := None; trace := []; next_message := 0;
     deleted := []; script := script |}.

Definition run (tolerant : bool) (script : list Interaction) : Res unit * Session :=
  settings_cmd (world := demo_world tolerant) 12 (fresh script).

(** A session whose menu message, number 0, is on display. *)
Definition showing (parent : option string) (script : list Interaction) : Session :=
  {| db := ∅; db_cache := ∅; parent := parent; trace := []; next_message := 1;
     deleted := []; script := script |}.

(** The same session over storage that already holds rows. *)
Definition run_on (db : gmap (string * Z) (gmap string Cell)) (tolerant : bool)
    (script : list Interaction) : Res unit * Session :=
  settings_cmd (world := demo_world tolerant) 12
    {| db := db; db_cache := ∅; parent := None; trace := []; next_message := 0;
       deleted := []; script := script |}.

Definition colourless : gmap (string * Z) (gmap string Cell) :=
  {[ ("log_config"%string, 1) := {[ "color"%string := CBool false ]} ]}.

Definition reporting_to_general : gmap (string * Z) (gmap string Cell) :=
  {[ ("reports"%string, 1) := {[ "channel_id"%string := CInt 100 ]} ]}.

Definition shows_on (label : string) (item : Item) : bool :=
  match item with
  | BooleanButton SUCCESS l _ _ true => String.eqb l label
  | _ => false
  end.

Definition renders_color_logs_on (e : Event) : bool :=
  match e with
  | Edited _ _ components | Responded _ _ components =>
      existsb (shows_on "Color logs") components
  | _ => false
  end.

Definition is_deletion (e : Event) : bool :=
  match e with Deleted _ => true | _ => false end.

(** Main, then Reports, then "Set Channel", then no answer: the upsert follows
    the deletion.  And a timeout in the Moderation menu reaches the Quit action
    with the message variable already overwritten by [None]: deleting raises
    [AttributeError] and the message is never deleted. *)
Example ask_timeout_session (tolerant : bool) :
  let r := run tolerant [Press 4; Press 2; Idle] in
  drop 4 (trace r.2)
  = [Lookup "Quit"; Deleted 0;
     Executed (Upsert "reports" "pinged_role_ids" (CInts []) 1);
     Refreshed "reports" 1]
  ∧ db r.2 !! ("reports"%string, 1)
    = Some {[ "pinged_role_ids"%string := CInts [] ]}
  ∧ (run true [Press 1; Idle]).1
    = Exc (AttributeError "'NoneType' object has no attribute 'delete'")
  ∧ filter (λ e, is_deletion e = true) (trace (run true [Press 1; Idle]).2) = [].
Proof. destruct tolerant; vm_compute; repeat split. Qed.

(** Main, then Logging, then "Color logs" pressed while it is off: without a
    row nothing is persisted, with a row the value is stored, and in both
    cases no render ever shows the control switched on.  With a view that
    refuses to start without its message, the menu raises before any press.
    The toggles of the Moderation menu end the same way: the upsert is executed
    and the redraw raises. *)
Example color_logs_session :
  let absent := run_on ∅ true [Press 3; Press 2] in
  let present := run_on colourless true [Press 3; Press 2] in
  let strict := run_on colourless false [Press 3; Press 2] in
  let moderation := run_on ∅ true [Press 1; Press 1] in
  absent.1 = Exc (AttributeError "'NoneType' object has no attribute 'edit'")
  ∧ drop 3 (trace absent.2)
    = [Executed (Update "log_config" "color" (CBool true) 1);
       Refreshed "log_config" 1]
  ∧ db absent.2 = ∅
  ∧ present.1 = Exc (AttributeError "'NoneType' object has no attribute 'edit'")
  ∧ db present.2 !! ("log_config"%string, 1)
    = Some {[ "color"%string := CBool true ]}
  ∧ filter (λ e, renders_color_logs_on e = true) (trace present.2) = []
  ∧ strict.1 = Exc TypeError
  ∧ filter (λ e, is_write e = true) (trace strict.2) = []
  ∧ moderation.1 = Exc (AttributeError "'NoneType' object has no attribute 'edit'")
  ∧ filter (λ e, is_write e = true) (trace moderation.2)
    = [Executed (Upsert "mod_config" "dm_users_on_punish" (CBool false) 1)].
Proof. vm_compute. repeat split. Qed.

(** The sibling toggle of the Reports menu does what the claim says: one
    upsert with the new value, a refresh, and a redraw showing it. *)
Example reports_toggle_redrawn :
  let r := run_on reporting_to_general true [Press 4; Press 1] in
  r.1 = Suspended
  ∧ ∃ embed,
      drop 3 (trace r.2)
      = [Executed (Upsert "reports" "is_enabled" (CBool true) 1);
         Refreshed "reports" 1;
         Edited 0 embed
           [BackButton; boolean_button true "Enabled" false;
            option_button "Set Channel" false; option_button "Add Role" false;
            option_button "Remove Role" true]].
Proof. vm_compute. split; [reflexivity |]. eexists. reflexivity. Qed.

(** The Reports menu of the concrete guild: the prompt times out. *)
Lemma quit_after_ask_timeout_still_writes_witness :
  ∃ s',
    h_report (handlers (world := demo_world true) 2) (Some 0%nat)
      (showing None [Press 2; Idle])
    = h_report (handlers (world := demo_world true) 1) (Some 0%nat) s'
    ∧ filter (λ e, is_deletion e || is_write e = true) (trace s')
      = [Deleted 0;
         Executed (Upsert "reports" "pinged_role_ids" (CInts []) 1)]
    ∧ db s' !! ("reports"%string, 1)
      = Some {[ "pinged_role_ids"%string := CInts [] ]}.
Proof.
  destruct (quit_after_ask_timeout_still_writes (world := demo_world true) 0 0
              (showing None [Press 2; Idle]) [] []
              (not_elem_of_nil 0%nat) eq_refl eq_refl)
    as (s' & Hrun & Htrace & _ & Hdb).
  exists s'. split; [exact Hrun |]. split.
  - rewrite Htrace. reflexivity.
  - rewrite Hdb. reflexivity.
Defined.

(** The Logging menu of the concrete guild, which has no row in [log_config]. *)
Lemma color_logs_toggle_not_redrawn_witness :
  ∃ s',
    h_logging (handlers (world := demo_world true) 2) (Some 0%nat)
      (showing None [Press 2])
    = (Exc (AttributeError "'NoneType' object has no attribute 'edit'"), s')
    ∧ filter (λ e, renders_color_logs_on e = true) (trace s') = []
    ∧ filter (λ e, is_write e = true) (trace s')
      = [Executed (Update "log_config" "color" (CBool true) 1)]
    ∧ db s' = ∅.
Proof.
  destruct (color_logs_toggle_not_redrawn (world := demo_world true) 0 0
              (showing None [Press 2]) [] ["Ban"; "Kick"]%string
              (not_elem_of_nil 0%nat) eq_refl eq_refl eq_refl)
    as (s' & Hrun & Htrace & _ & Hdb).
  exists s'. split; [exact Hrun |]. split; [| split].
  - rewrite Htrace. reflexivity.
  - rewrite Htrace. reflexivity.
  - apply Hdb. reflexivity.
Defined.

(** The panel on the concrete guild: "nowhere" names no channel. *)
Lemma channel_not_found_panel_witness :
  convert_channel (World := demo_world true) "nowhere" = None
  ∧ ∃ s',
      h_report (handlers (world := demo_world true) 2) (Some 0%nat)
        (showing None [Press 2; Reply "nowhere"])
      = (Suspended, s')
      ∧ parent s' = Some "Reports"%string
      ∧ db s' = ∅
      ∧ filter (λ e, is_write e = true) (trace s') = [].
Proof.
  split; [reflexivity |].
  destruct (channel_not_found_panel (world := demo_world true) 0 0
              (showing None [Press 2; Reply "nowhere"]) "nowhere" []
              (not_elem_of_nil 0%nat) eq_refl eq_refl)
    as (s' & _ & Htrace & Hparent & Hdb & _ & Hwaits & _).
  exists s'. split; [apply Hwaits; reflexivity |].
  split; [exact Hparent |]. split; [exact Hdb |].
  rewrite Htrace. reflexivity.
Defined.

(** Back from the error panel of the Reports menu. *)
Lemma back_returns_to_recorded_parent_witness :
  call (menu_actions (handlers (world := demo_world true) 2))
    "Back" (Some 0%nat) (showing (Some "Reports"%string) [])
  = call (menu_actions (handlers (world := demo_world true) 1))
      "Reports" (Some 0%nat)
      (add_event (Lookup "Back") (showing (Some "Reports"%string) [])).
Proof.
  destruct (back_returns_to_recorded_parent (world := demo_world true) 1)
    as [Hback _].
  apply Hback; [reflexivity | discriminate].
Defined.

(** C7, as stated: a key that is not registered does not fail silently. *)
Lemma unregistered_key_raises :
  let r := call
             (menu_actions (handlers (world := demo_world true) 1))
             "Permissions" (Some 0%nat) (showing None []) in
  r.1 = Exc (KeyError "Permissions") ∧ r.1 ≠ Ret tt.
Proof. vm_compute. split; [reflexivity | discriminate]. Qed.

(** "Permissions" is no key of the table: looking it up raises. *)
Lemma only_registered_keys_are_dispatched_witness :
  ("Permissions"%string ∉ registered)
  ∧ call
      (menu_actions (handlers (world := demo_world true) 3))
      "Permissions" None (fresh [])
    = (Exc (KeyError "Permissions"), add_event (Lookup "Permissions") (fresh [])).
Proof.
  assert (Hno : "Permissions"%string ∉ registered)
    by (apply (bool_decide_unpack _); vm_compute; exact I).
  split; [exact Hno |].
  destruct (only_registered_keys_are_dispatched (world := demo_world true) 3
              (fresh [])) as [_ Hraise].
  apply Hraise, Hno.
Defined.

Definition demo_strings : list (string * string) :=
  mod_settings_strings (World := demo_world true).

(** The round trip on the labels of the Moderation menu. *)
Lemma get_key_first_and_round_trip_witness :
  NoDup demo_strings.*2
  ∧ dict_get demo_strings "is_ephemeral" = Some "Send mod commands ephemerally"%string
  ∧ get_key demo_strings "Send mod commands ephemerally"%string = Ret "is_ephemeral"%string.
Proof.
  assert (Hnd : NoDup demo_strings.*2)
    by (apply (bool_decide_unpack _); vm_compute; exact I).
  split; [exact Hnd |]. split; [reflexivity |].
  destruct (get_key_first_and_round_trip demo_strings) as [_ Hround].
  apply (Hround Hnd). reflexivity.
Defined.

(** ** The concrete guild at work: more sessions *)

(** [/settings], then Quit. *)
Lemma main_menu_quit_deletes_message_witness :
  ∃ s',
    settings_cmd (world := demo_world true) 2 (fresh [Press 0]) = (Ret tt, s')
    ∧ deleted s' = [0%nat]
    ∧ filter (λ e, is_write e = true) (trace s') = [].
Proof.
  destruct (main_menu_quit_deletes_message (world := demo_world true) 0
              (fresh [Press 0]) (Press 0) [] "Quit"
              eq_refl (not_elem_of_nil 0%nat) eq_refl (or_introl eq_refl))
    as (s' & Hrun & Htrace & Hdel & _).
  exists s'. split; [exact Hrun |]. split; [exact Hdel |].
  rewrite Htrace. reflexivity.
Defined.

(** [/settings], then "Auto-Moderation". *)
Lemma auto_moderation_ends_session_witness :
  ∃ s',
    settings_cmd (world := demo_world true) 2 (fresh [Press 2]) = (Ret tt, s')
    ∧ deleted s' = []
    ∧ last (trace s') = Some (Lookup "Auto-Moderation").
Proof.
  destruct (auto_moderation_ends_session (world := demo_world true) 0
              (fresh [Press 2]) [] eq_refl (not_elem_of_nil 0%nat))
    as (s' & Hrun & Htrace & Hdel & _).
  exists s'. split; [exact Hrun |]. split; [exact Hdel |].
  rewrite Htrace. reflexivity.
Defined.

(** A session showing the menu message 0 over given storage. *)
Definition showing_on (db : gmap (string * Z) (gmap string Cell))
    (script : list Interaction) : Session :=
  {| db := db; db_cache := ∅; parent := None; trace := []; next_message := 1;
     deleted := []; script := script |}.

(** Reports are sent to #general and are off: the toggle switches them on. *)
Lemma reports_toggle_read_after_write_witness :
  ∃ s',
    h_report (handlers (world := demo_world true) 3) (Some 0%nat)
      (showing_on reporting_to_general [Press 1])
    = (Suspended, s')
    ∧ db s' !! ("reports"%string, 1)
      = Some {[ "channel_id"%string := CInt 100; "is_enabled"%string := CBool true ]}.
Proof.
  destruct (reports_toggle_read_after_write (world := demo_world true) 0 0
              (showing_on reporting_to_general [Press 1])
              {[ "channel_id"%string := CInt 100 ]} general
              (not_elem_of_nil 0%nat) eq_refl eq_refl eq_refl eq_refl)
    as (s' & Hrun & _ & _ & Hdb).
  exists s'. split; [exact Hrun |]. rewrite Hdb. vm_compute. reflexivity.
Defined.

(** "Set Channel" answered with the name of #general. *)
Lemma reports_set_channel_stores_id_witness :
  ∃ s',
    h_report (handlers (world := demo_world true) 2) (Some 0%nat)
      (showing None [Press 2; Reply "general"])
    = h_report (handlers (world := demo_world true) 1) (Some 0%nat) s'
    ∧ filter (λ e, is_write e = true) (trace s')
      = [Executed (Upsert "reports" "channel_id" (CInt 100) 1)].
Proof.
  destruct (reports_set_channel_stores_id (world := demo_world true) 0 0
              (showing None [Press 2; Reply "general"]) "general" [] general
              (not_elem_of_nil 0%nat) eq_refl eq_refl eq_refl)
    as (s' & Hrun & Htrace & _).
  exists s'. split; [exact Hrun |]. rewrite Htrace. reflexivity.
Defined.

(** A guild with two roles, of which only the moderators are pinged. *)
Definition helpers : Role := {| role_id := 201; role_name := "Helpers" |}.

Definition staffed_world : World :=
  {| guild_id := 1;
     channels := [general; voice];
     roles := [moderators; helpers];
     bot_permissions := 8;
     mod_settings_strings := mod_settings_strings (World := demo_world true);
     log_event_strings := log_event_strings (World := demo_world true);
     default_mod_settings := default_mod_settings (World := demo_world true);
     log_categories := log_categories (World := demo_world true);
     default_color := false;
     convert_channel := by_channel_name;
     convert_role :=
       λ text, List.find (λ r, String.eqb (role_name r) text) [moderators; helpers];
     start_tolerates_none := true |}.

Definition pinging_moderators : gmap (string * Z) (gmap string Cell) :=
  {[ ("reports"%string, 1) := {[ "pinged_role_ids"%string := CInts [200] ]} ]}.

(** The helpers are not pinged: removing them is refused. *)
Lemma reports_remove_unlisted_role_refused_witness :
  ∃ s',
    h_report (handlers (world := staffed_world) 2) (Some 0%nat)
      (showing_on pinging_moderators [Press 4; Reply "Helpers"])
    = (Suspended, s')
    ∧ parent s' = Some "Reports"%string
    ∧ db s' = pinging_moderators.
Proof.
  assert (Hnotin : helpers ∉ [moderators])
    by (apply (bool_decide_unpack _); vm_compute; exact I).
  destruct (reports_remove_unlisted_role_refused (world := staffed_world) 0 0
              (showing_on pinging_moderators [Press 4; Reply "Helpers"])
              "Helpers" [] [moderators] helpers
              (not_elem_of_nil 0%nat) eq_refl eq_refl eq_refl
              ltac:(discriminate) Hnotin)
    as (s' & Hrun & _ & Hparent & Hdb & Hscript).
  exists s'. split; [| split; [exact Hparent | exact Hdb]].
  rewrite Hrun. unfold bind, view_wait, bind, next_interaction.
  rewrite Hscript. reflexivity.
Defined.

(** The helpers are added to the pinged roles and removed again. *)
Lemma reports_add_then_remove_restores_witness :
  ∃ s',
    h_report (handlers (world := staffed_world) 3) (Some 0%nat)
      (showing_on pinging_moderators
         [Press 3; Reply "Helpers"; Press 4; Reply "Helpers"])
    = h_report (handlers (world := staffed_world) 1) (Some 0%nat) s'
    ∧ filter (λ e, is_write e = true) (trace s')
      = [Executed (Upsert "reports" "pinged_role_ids" (CInts [200; 201]) 1);
         Executed (Upsert "reports" "pinged_role_ids" (CInts [200]) 1)].
Proof.
  assert (Hnotin : helpers ∉ [moderators])
    by (apply (bool_decide_unpack _); vm_compute; exact I).
  destruct (reports_add_then_remove_restores (world := staffed_world) 0 0
              (showing_on pinging_moderators
                 [Press 3; Reply "Helpers"; Press 4; Reply "Helpers"])
              "Helpers" [] [moderators] helpers
              (not_elem_of_nil 0%nat) eq_refl eq_refl eq_refl eq_refl Hnotin)
    as (s' & Hrun & Hwrites & _).
  exists s'. split; [exact Hrun |]. exact Hwrites.
Defined.

(** The second button of the Moderation menu: "Send mod commands ephemerally",
    in a world whose views start without a message and in one whose views
    do not. *)
Lemma mod_toggle_writes_negated_witness :
  (∃ s',
     h_mod (handlers (world := demo_world true) 2) (Some 0%nat)
       (showing None [Press 2])
     = (Exc (AttributeError "'NoneType' object has no attribute 'edit'"), s')
     ∧ filter (λ e, is_write e = true) (trace s')
       = [Executed (Upsert "mod_config" "is_ephemeral" (CBool true) 1)])
  ∧ (∃ s',
       h_mod (handlers (world := demo_world false) 2) (Some 0%nat)
         (showing None [Press 2])
       = (Exc TypeError, s')
       ∧ filter (λ e, is_write e = true) (trace s') = []
       ∧ script s' = [Press 2]).
Proof.
  assert (Hvalues : ∀ b, NoDup (mod_settings_strings (World := demo_world b)).*2)
    by (intros b; apply (bool_decide_unpack _); vm_compute; exact I).
  assert (Hkeys : ∀ b, NoDup (default_mod_settings (World := demo_world b)).*1)
    by (intros b; apply (bool_decide_unpack _); vm_compute; exact I).
  assert (Hunreg : "Send mod commands ephemerally"%string ∉ registered)
    by (apply (bool_decide_unpack _); vm_compute; exact I).
  split.
  - destruct (mod_toggle_writes_negated (world := demo_world true) 0 0
                (showing None [Press 2]) []
                ["DM users after punishment"; "Send mod commands ephemerally"]%string
                1 "is_ephemeral" "Send mod commands ephemerally" false
                (not_elem_of_nil 0%nat) eq_refl (Hvalues true) (Hkeys true)
                eq_refl eq_refl eq_refl Hunreg)
      as (_ & s' & Hrun & Htrace & _).
    exists s'. split; [exact Hrun |]. rewrite Htrace. reflexivity.
  - destruct (mod_toggle_writes_negated (world := demo_world false) 0 0
                (showing None [Press 2]) []
                ["DM users after punishment"; "Send mod commands ephemerally"]%string
                1 "is_ephemeral" "Send mod commands ephemerally" false
                (not_elem_of_nil 0%nat) eq_refl (Hvalues false) (Hkeys false)
                eq_refl eq_refl eq_refl Hunreg)
      as (_ & s' & Hrun & Htrace & _ & Hscript).
    exists s'. split; [exact Hrun |]. rewrite Htrace.
    split; [reflexivity | exact Hscript].
Defined.

(** The "ban" category of the Logging menu, answered with "disable", in the
    same two worlds. *)
Lemma logging_category_sets_channel_witness :
  (∃ s',
     h_logging (handlers (world := demo_world true) 2) (Some 0%nat)
       (showing None [Choose 0 0; Reply "disable"])
     = (Exc (AttributeError "'NoneType' object has no attribute 'edit'"), s')
     ∧ filter (λ e, is_write e = true) (trace s')
       = [SetLogChannel "ban" 1 None])
  ∧ (∃ s',
       h_logging (handlers (world := demo_world false) 2) (Some 0%nat)
         (showing None [Choose 0 0; Reply "disable"])
       = (Exc TypeError, s')
       ∧ filter (λ e, is_write e = true) (trace s') = []).
Proof.
  assert (Hunreg : "ban"%string ∉ registered)
    by (apply (bool_decide_unpack _); vm_compute; exact I).
  split.
  - destruct (logging_category_sets_channel (world := demo_world true) 0 0
                (showing None [Choose 0 0; Reply "disable"]) 0 "disable" []
                ["Ban"; "Kick"]%string "ban" "Ban" None None
                (not_elem_of_nil 0%nat) eq_refl eq_refl eq_refl eq_refl
                Hunreg (or_introl (conj eq_refl eq_refl)))
      as (s' & Hrun & Htrace & _).
    exists s'. split; [exact Hrun |]. rewrite Htrace. reflexivity.
  - destruct (logging_category_sets_channel (world := demo_world false) 0 0
                (showing None [Choose 0 0; Reply "disable"]) 0 "disable" []
                ["Ban"; "Kick"]%string "ban" "Ban" None None
                (not_elem_of_nil 0%nat) eq_refl eq_refl eq_refl eq_refl
                Hunreg (or_introl (conj eq_refl eq_refl)))
      as (s' & Hrun & Htrace & _).
    exists s'. split; [exact Hrun |]. rewrite Htrace. reflexivity.
Defined.

(** Three interactions, seven units of fuel. *)
Lemma session_has_fuel_enough_witness :
  (settings_cmd (world := demo_world true) 7 (fresh [Press 4; Press 1; Press 0])).1
  ≠ OutOfFuel.
Proof.
  destruct (session_has_fuel_enough (world := demo_world true) 7
              (fresh [Press 4; Press 1; Press 0]) ltac:(vm_compute; lia))
    as [H | [H | [e H]]]; rewrite H; discriminate.
Defined.

End SettingsDemo.
